(** * The worker core of pelikan: event dispatch and connection handoff

    A shallow embedding of [src/core/data/worker.c].  The worker thread is
    single-threaded: every function of the file runs to completion inside one
    reactor callback, so the code is modelled by explicit state passing over a
    [world] that holds the event base, the connection records, the two handoff
    queues and a chronological trace of the calls made to the outside (transport,
    processor hooks, event base, queues, pipes, log). *)

From Stdlib Require Import ZArith Lia.
From stdpp Require Import gmap list strings.

Local Open Scope Z_scope.

(** ** Constants of the common library *)

(** Modelled from the spec: the status codes of [rstatus_i], which the common
    library defines (cc_define.h): zero is success and every error code is
    negative, the codes being pairwise distinct. *)
Definition CC_OK : Z := 0.
Definition CC_ERROR : Z := -1.
Definition CC_EAGAIN : Z := -2.
Definition CC_ERETRY : Z := -3.

(** Modelled from the spec: the masks of cc_event.h.  The event mask is a
    [uint32_t] carrying the three readiness classes READABLE, WRITABLE and
    ERROR in disjoint bit groups. *)
Definition EVENT_READ : Z := 0x0000ff.
Definition EVENT_WRITE : Z := 0x00ff00.
Definition EVENT_ERR : Z := 0xff0000.

(** Modelled from the spec: the constant of cc_ring_array.h used as the fixed
    scratch capacity when the inbound pipe is drained. *)
Definition RING_ARRAY_DEFAULT_CAP : Z := 1024.

(** The C test [events & MASK]: true when the conjunction is not zero. *)
Definition has_event (events mask : Z) : bool := negb (Z.land events mask =? 0).

(** ** Data model *)

(** Connection records are referred to by address, a [nat]; the null pointer
    is [None] of [option nat]. *)

Abbreviation buf := (list Byte.byte).

(** Modelled from the spec: [struct buf] and [buf_rsize] of cc_buf.h.  A buffer
    is the sequence of bytes written to it and not yet consumed, and
    [buf_rsize] is how many of them there are. *)
Definition buf_rsize (b : buf) : Z := Z.of_nat (length b).

(** Modelled from the spec: the channel states of cc_channel.h that a
    connection owned by a worker can be in. *)
Inductive channel_state := CHANNEL_OPEN | CHANNEL_TERM | CHANNEL_ERROR.

#[global] Instance channel_state_eq_dec : EqDecision channel_state.
Proof. solve_decision. Defined.

(** Modelled from the spec: [struct tcp_conn] of cc_tcp.h, the transport handle
    of a connection, kept to its socket descriptor and its channel state. *)
Record tcp_conn := TcpConn { c_sd : Z; c_state : channel_state }.

(** Modelled from the spec: [channel_handler_st] of cc_channel.h, the fixed set
    of channel operations, kept to the fields the worker calls ([term], [rid],
    [wid]).  Closing the transport talks to the outside, hence the environment
    [Env]. *)
Record channel_handler_st (Env : Type) := ChannelHandler {
  term : tcp_conn -> Env -> tcp_conn * Env;
  rid : tcp_conn -> Z;
  wid : tcp_conn -> Z
}.
Arguments ChannelHandler {Env} _ _ _.
Arguments term {Env} _ _ _.
Arguments rid {Env} _ _.
Arguments wid {Env} _ _.

(** Modelled from the spec: [struct buf_sock] of cc_sockio.h, the connection
    record.  [bs_owner] is the address of the owning context; [bs_hdl] refers
    to the handler table, which never changes after setup and is therefore
    kept by value. *)
Record buf_sock (Env : Type) := BufSock {
  bs_owner : option nat;
  bs_hdl : option (channel_handler_st Env);
  bs_ch : tcp_conn;
  bs_rbuf : buf;
  bs_wbuf : buf;
  bs_data : Z
}.
Arguments BufSock {Env} _ _ _ _ _ _.
Arguments bs_owner {Env} _.
Arguments bs_hdl {Env} _.
Arguments bs_ch {Env} _.
Arguments bs_rbuf {Env} _.
Arguments bs_wbuf {Env} _.
Arguments bs_data {Env} _.

(** Modelled from the spec: [struct data_processor], the three hooks.  Each
    receives the addresses of the two buffers and of the private slot only, so
    these are all a hook can change; it returns its status. *)
Record data_processor (Env : Type) := DataProcessor {
  proc_read : buf -> buf -> Z -> Env -> (Z * (buf * buf * Z)) * Env;
  proc_write : buf -> buf -> Z -> Env -> (Z * (buf * buf * Z)) * Env;
  proc_error : buf -> buf -> Z -> Env -> (Z * (buf * buf * Z)) * Env
}.
Arguments DataProcessor {Env} _ _ _.
Arguments proc_read {Env} _ _ _ _ _.
Arguments proc_write {Env} _ _ _ _ _.
Arguments proc_error {Env} _ _ _ _ _.

(** Modelled from the spec: the ring array of cc_ring_array.h is a bounded
    first-in first-out queue of connection references.  A push on a full queue
    and a pop on an empty one fail ([None] stands for a status other than
    [CC_OK]) and leave it as it is. *)
Record ring_array := RingArray { ra_cap : nat; ra_elems : list nat }.

Definition ring_array_push (s : nat) (q : ring_array) : option ring_array :=
  if decide (length (ra_elems q) < ra_cap q)%nat
  then Some (RingArray (ra_cap q) (ra_elems q ++ [s]))
  else None.

Definition ring_array_pop (q : ring_array) : option (nat * ring_array) :=
  match ra_elems q with
  | [] => None
  | s :: rest => Some (s, RingArray (ra_cap q) rest)
  end.

(** Modelled from the spec: the event base of cc_event.h keeps, per id, the
    registered read interest and the registered write interest, each with its
    user data ([None] is the null pointer).  Registration is idempotent and
    unregistration removes whatever is registered for the id. *)
Record event_base := EventBase {
  ev_rd : gmap Z (option nat);
  ev_wr : gmap Z (option nat)
}.

Definition evb_add_read (id : Z) (data : option nat) (b : event_base) : event_base :=
  EventBase (<[id := data]> (ev_rd b)) (ev_wr b).

Definition evb_add_write (id : Z) (data : option nat) (b : event_base) : event_base :=
  EventBase (ev_rd b) (<[id := data]> (ev_wr b)).

Definition evb_del (id : Z) (b : event_base) : event_base :=
  EventBase (delete id (ev_rd b)) (delete id (ev_wr b)).

(** Modelled from the spec: [worker_metrics_st] of worker.h, kept to the
    counters that the dispatch path increments. *)
Module Metric.
Inductive name :=
| worker_event_read | worker_event_write | worker_event_error
| worker_add_stream | worker_ret_stream.

#[global] Instance name_eq_dec : EqDecision name.
Proof. solve_decision. Defined.
End Metric.

Definition metrics_st := Metric.name -> Z.

Definition metrics_incr (m : Metric.name) (ms : metrics_st) : metrics_st :=
  fun x => if decide (x = m) then ms x + 1 else ms x.

(** ** The outside world *)

Inductive log_level := LOG_ERROR | LOG_WARN | LOG_INFO | LOG_DEBUG | LOG_VERB.

Inductive queue_name := Q_conn_new | Q_conn_term.

(** One entry per call that leaves the worker, with the result it gave. *)
Inductive event :=
| EvLog (lvl : log_level) (msg : string)
| EvLogN (lvl : log_level) (msg : string) (n : Z)
| EvTcpRead (s : nat) (status : Z)
| EvTcpWrite (s : nat) (status : Z)
| EvProcRead (s : nat) (status : Z)
| EvProcWrite (s : nat) (status : Z)
| EvProcError (s : nat) (status : Z)
| EvAddRead (id : Z) (data : option nat)
| EvAddWrite (id : Z) (data : option nat)
| EvDel (id : Z)
| EvPop (q : queue_name) (got : option nat)
| EvPush (q : queue_name) (s : nat) (ok : bool)
| EvPipeRecv (n : Z)
| EvPipeSend (status : Z)
| EvTerm (s : nat)
| EvSockReset (s : nat)
| EvSockReturn (s : nat).

#[global] Instance log_level_eq_dec : EqDecision log_level.
Proof. solve_decision. Defined.
#[global] Instance queue_name_eq_dec : EqDecision queue_name.
Proof. solve_decision. Defined.
#[global] Instance event_eq_dec : EqDecision event.
Proof. solve_decision. Defined.

(** Modelled from the spec: the transport ([buf_tcp_read], [buf_tcp_write]),
    the pipes ([pipe_recv], [pipe_send]) and the record pool
    ([buf_sock_reset]) of the common library, taken as an interface over a
    hidden environment [Env] that every call may read and advance, so that two
    calls need not give the same answer.  A transport read fills the read
    buffer and a transport write drains the write buffer; transport-level
    errors are reflected into the channel state.  Each returns its status, the
    new buffer and the new channel state. *)
Class Platform (Env : Type) := {
  io_tcp_read : buf_sock Env -> Env -> (Z * buf * channel_state) * Env;
  io_tcp_write : buf_sock Env -> Env -> (Z * buf * channel_state) * Env;
  (** [pipe_recv(pipe_new, buf, cap)]: bytes read, or a negative status *)
  io_pipe_recv : Z -> Env -> Z * Env;
  (** [pipe_send(pipe_term, .., 1)]: bytes written, or a negative status *)
  io_pipe_send : Env -> Z * Env;
  io_sock_reset : buf_sock Env -> buf_sock Env
}.

Section World.
Context {Env : Type}.

Record world := World {
  evb : event_base;                   (* ctx->evb *)
  heap : gmap nat (buf_sock Env);     (* the records the worker may touch *)
  conn_new : ring_array;
  conn_term : ring_array;
  worker_metrics : option metrics_st;
  env : Env;
  trace : list event
}.

Definition set_evb (f : event_base -> event_base) (w : world) : world :=
  World (f (evb w)) (heap w) (conn_new w) (conn_term w) (worker_metrics w) (env w) (trace w).
Definition set_heap (f : gmap nat (buf_sock Env) -> gmap nat (buf_sock Env)) (w : world) : world :=
  World (evb w) (f (heap w)) (conn_new w) (conn_term w) (worker_metrics w) (env w) (trace w).
Definition set_conn_new (q : ring_array) (w : world) : world :=
  World (evb w) (heap w) q (conn_term w) (worker_metrics w) (env w) (trace w).
Definition set_conn_term (q : ring_array) (w : world) : world :=
  World (evb w) (heap w) (conn_new w) q (worker_metrics w) (env w) (trace w).
Definition set_metrics (f : metrics_st -> metrics_st) (w : world) : world :=
  World (evb w) (heap w) (conn_new w) (conn_term w) (f <$> worker_metrics w) (env w) (trace w).
Definition set_env (e : Env) (w : world) : world :=
  World (evb w) (heap w) (conn_new w) (conn_term w) (worker_metrics w) e (trace w).
Definition emit (e : event) (w : world) : world :=
  World (evb w) (heap w) (conn_new w) (conn_term w) (worker_metrics w) (env w) (trace w ++ [e]).

(** State passing with failure: [None] is a dereference of an address that
    holds no connection record, which the C code never checks for. *)
Definition M (A : Type) : Type := world -> option (A * world).

Definition ret {A} (a : A) : M A := fun w => Some (a, w).

Definition bind {A B} (m : M A) (k : A -> M B) : M B :=
  fun w => match m w with
           | Some (a, w') => k a w'
           | None => None
           end.

Definition when (b : bool) (m : M unit) : M unit := if b then m else ret tt.
End World.
Arguments world : clear implicits.
Arguments M : clear implicits.

Notation "x <- m ;; k" := (bind m (fun x => k))
  (at level 20, m at level 99, k at level 200, right associativity).
Notation "m ;; k" := (bind m (fun _ => k))
  (at level 100, k at level 200, right associativity).

(** ** The worker *)

Section Worker.
Context {Env : Type} `{!Platform Env}.

(** The statics of the file after [core_worker_setup]: [ctx] is the address
    of the worker's context, [hdl] its handler table, [processor] the hooks
    handed to the event loop and [pipe_term_wid] is
    [pipe_write_id(pipe_term)]. *)
Variable ctx : nat.
Variable hdl : channel_handler_st Env.
Variable processor : data_processor Env.
Variable pipe_term_wid : Z.

Local Abbreviation W := (M Env).

(** *** Calls to the outside, as steps on the world *)

Definition log (lvl : log_level) (msg : string) : W unit :=
  fun w => Some (tt, emit (EvLog lvl msg) w).

Definition logn (lvl : log_level) (msg : string) (n : Z) : W unit :=
  fun w => Some (tt, emit (EvLogN lvl msg n) w).

(** [INCR(worker_metrics, m)] does nothing when [worker_metrics] is null. *)
Definition INCR (m : Metric.name) : W unit :=
  fun w => Some (tt, set_metrics (metrics_incr m) w).

Definition load (s : nat) : W (buf_sock Env) :=
  fun w => match heap w !! s with
           | Some b => Some (b, w)
           | None => None
           end.

Definition store (s : nat) (b : buf_sock Env) : W unit :=
  fun w => Some (tt, set_heap <[s := b]> w).

Definition with_state (st : channel_state) (b : buf_sock Env) : buf_sock Env :=
  BufSock (bs_owner b) (bs_hdl b) (TcpConn (c_sd (bs_ch b)) st)
          (bs_rbuf b) (bs_wbuf b) (bs_data b).

Definition with_ch (c : tcp_conn) (b : buf_sock Env) : buf_sock Env :=
  BufSock (bs_owner b) (bs_hdl b) c (bs_rbuf b) (bs_wbuf b) (bs_data b).

Definition with_owner (o : option nat) (b : buf_sock Env) : buf_sock Env :=
  BufSock o (bs_hdl b) (bs_ch b) (bs_rbuf b) (bs_wbuf b) (bs_data b).

Definition with_hdl (h : option (channel_handler_st Env)) (b : buf_sock Env)
  : buf_sock Env :=
  BufSock (bs_owner b) h (bs_ch b) (bs_rbuf b) (bs_wbuf b) (bs_data b).

Definition with_bufs (r : buf * buf * Z) (b : buf_sock Env) : buf_sock Env :=
  BufSock (bs_owner b) (bs_hdl b) (bs_ch b) r.1.1 r.1.2 r.2.

Definition with_rbuf (rb : buf) (b : buf_sock Env) : buf_sock Env :=
  BufSock (bs_owner b) (bs_hdl b) (bs_ch b) rb (bs_wbuf b) (bs_data b).

Definition with_wbuf (wb : buf) (b : buf_sock Env) : buf_sock Env :=
  BufSock (bs_owner b) (bs_hdl b) (bs_ch b) (bs_rbuf b) wb (bs_data b).

(** [s->ch->state = st] *)
Definition set_state (s : nat) (st : channel_state) : W unit :=
  b <- load s ;; store s (with_state st b).

(** [s->ch], read *)
Definition get_ch (s : nat) : W tcp_conn :=
  b <- load s ;; ret (bs_ch b).

Definition buf_tcp_read (s : nat) : W Z :=
  b <- load s ;;
  fun w =>
    let '(status, rb, st, e) := io_tcp_read b (env w) in
    Some (status,
          emit (EvTcpRead s status)
            (set_env e (set_heap <[s := with_state st (with_rbuf rb b)]> w))).

Definition buf_tcp_write (s : nat) : W Z :=
  b <- load s ;;
  fun w =>
    let '(status, wb, st, e) := io_tcp_write b (env w) in
    Some (status,
          emit (EvTcpWrite s status)
            (set_env e (set_heap <[s := with_state st (with_wbuf wb b)]> w))).

(** A hook of the processor applied to [&s->rbuf, &s->wbuf, &s->data]. *)
Definition call_hook
    (hook : buf -> buf -> Z -> Env -> (Z * (buf * buf * Z)) * Env)
    (ev : nat -> Z -> event) (s : nat) : W Z :=
  b <- load s ;;
  fun w =>
    let '(status, r, e) := hook (bs_rbuf b) (bs_wbuf b) (bs_data b) (env w) in
    Some (status,
          emit (ev s status) (set_env e (set_heap <[s := with_bufs r b]> w))).

Definition processor_read : nat -> W Z := call_hook (proc_read processor) EvProcRead.
Definition processor_write : nat -> W Z := call_hook (proc_write processor) EvProcWrite.
Definition processor_error : nat -> W Z := call_hook (proc_error processor) EvProcError.

Definition event_add_read (id : Z) (data : option nat) : W unit :=
  fun w => Some (tt, emit (EvAddRead id data) (set_evb (evb_add_read id data) w)).

Definition event_add_write (id : Z) (data : option nat) : W unit :=
  fun w => Some (tt, emit (EvAddWrite id data) (set_evb (evb_add_write id data) w)).

Definition event_del (id : Z) : W unit :=
  fun w => Some (tt, emit (EvDel id) (set_evb (evb_del id) w)).

(** [ring_array_pop(&s, conn_new)] *)
Definition pop_conn_new : W (option nat) :=
  fun w => match ring_array_pop (conn_new w) with
           | Some (s, q) =>
               Some (Some s, emit (EvPop Q_conn_new (Some s)) (set_conn_new q w))
           | None => Some (None, emit (EvPop Q_conn_new None) w)
           end.

(** [ring_array_push(&s, conn_term)]; the result says whether it was [CC_OK] *)
Definition push_conn_term (s : nat) : W bool :=
  fun w => match ring_array_push s (conn_term w) with
           | Some q => Some (true, emit (EvPush Q_conn_term s true) (set_conn_term q w))
           | None => Some (false, emit (EvPush Q_conn_term s false) w)
           end.

Definition pipe_recv (cap : Z) : W Z :=
  fun w => let '(n, e) := io_pipe_recv cap (env w) in
           Some (n, emit (EvPipeRecv n) (set_env e w)).

Definition pipe_send : W Z :=
  fun w => let '(n, e) := io_pipe_send (env w) in
           Some (n, emit (EvPipeSend n) (set_env e w)).

(** [hdl->term(s->ch)] *)
Definition hdl_term (s : nat) : W unit :=
  b <- load s ;;
  fun w => let '(c, e) := term hdl (bs_ch b) (env w) in
           Some (tt, emit (EvTerm s) (set_env e (set_heap <[s := with_ch c b]> w))).

Definition buf_sock_reset (s : nat) : W unit :=
  b <- load s ;;
  fun w => Some (tt, emit (EvSockReset s) (set_heap <[s := io_sock_reset b]> w)).

(** [buf_sock_return(&s)]: the record goes back to the pool and is no longer
    the worker's to touch. *)
Definition buf_sock_return (s : nat) : W unit :=
  fun w => Some (tt, emit (EvSockReturn s) (set_heap (delete s) w)).

(** *** The functions of worker.c *)

(** Connection Write.  The caller only needs the returned status when it got
    a write event and wants to re-register the read event after a full,
    successful write. *)
Definition _worker_event_write (s : nat) : W Z :=
  log LOG_VERB "writing on buf_sock" ;;
  status <- buf_tcp_write s ;;
  (if (status =? CC_ERETRY) || (status =? CC_EAGAIN) then
     (* stop reading until the kernel buffer takes the output *)
     c <- get_ch s ;;
     event_del (wid hdl c) ;;
     c <- get_ch s ;;
     event_add_write (wid hdl c) (Some s)
   else if status =? CC_ERROR then
     set_state s CHANNEL_TERM
   else ret tt) ;;
  r <- processor_write s ;;
  if r <? 0 then
    log LOG_DEBUG "handler signals channel termination" ;;
    set_state s CHANNEL_TERM ;;
    ret CC_ERROR
  else
    ret status.

(** Connection Read: a read event over an existing connection. *)
Definition _worker_event_read (s : nat) : W unit :=
  log LOG_VERB "reading on buf_sock" ;;
  _ <- buf_tcp_read s ;;
  r <- processor_read s ;;
  if r <? 0 then
    log LOG_DEBUG "handler signals channel termination" ;;
    set_state s CHANNEL_TERM
  else
    b <- load s ;;
    if buf_rsize (bs_wbuf b) >? 0 then
      log LOG_VERB "attempt to write" ;;
      _ <- _worker_event_write s ;;
      ret tt
    else ret tt.

(** The loop of [worker_add_stream]: [i] is the number of signal bytes still
    to be matched with a connection of the queue. *)
Fixpoint add_stream_loop (i : nat) : W unit :=
  match i with
  | O => ret tt
  | S i' =>
      got <- pop_conn_new ;;
      match got with
      | None =>
          logn LOG_WARN "event number does not match conn queue: missing conns"
               (Z.of_nat i)
      | Some s =>
          INCR Metric.worker_add_stream ;;
          log LOG_VERB "Adding new buf_sock to worker thread" ;;
          b <- load s ;;
          store s (with_owner (Some ctx) b) ;;
          b <- load s ;;
          store s (with_hdl (Some hdl) b) ;;
          c <- get_ch s ;;
          event_add_read (rid hdl c) (Some s) ;;
          add_stream_loop i'
      end
  end.

(** Inbound Handoff: the server pushes a connection before it writes to the
    pipe, so the pipe is read first and as many connections are taken off the
    queue as bytes were received. *)
Definition worker_add_stream : W unit :=
  i <- pipe_recv RING_ARRAY_DEFAULT_CAP ;;
  if i <? 0 then
    log LOG_WARN "not adding new connections due to pipe error"
  else
    add_stream_loop (Z.to_nat i).

(** Outbound Handoff Signal. *)
Definition _worker_pipe_write : W unit :=
  status <- pipe_send ;;
  if (status =? 0) || (status =? CC_EAGAIN) then
    log LOG_VERB "server core: retry send on pipe" ;;
    event_add_write pipe_term_wid None
  else if status =? CC_ERROR then
    log LOG_ERROR "could not write to pipe"
  else ret tt.

(** Return Connection. *)
Definition worker_ret_stream (s : nat) : W unit :=
  log LOG_INFO "worker core marking buf_sock for return" ;;
  _ <- processor_error s ;;
  c <- get_ch s ;;
  event_del (rid hdl c) ;;
  INCR Metric.worker_ret_stream ;;
  ok <- push_conn_term s ;;
  if negb ok then
    log LOG_ERROR "term connetion queue is full" ;;
    hdl_term s ;;
    buf_sock_reset s ;;
    buf_sock_return s
  else
    _worker_pipe_write.

Definition is_term_or_error (c : tcp_conn) : bool :=
  bool_decide (c_state c = CHANNEL_TERM) || bool_decide (c_state c = CHANNEL_ERROR).

(** Dispatch: the callback of the event base.  [arg] is the user data of the
    ready interest, null for the pipes. *)
Definition _worker_event (arg : option nat) (events : Z) : W unit :=
  log LOG_VERB "worker event" ;;
  match arg with
  | None => (* event on pipe *)
      when (has_event events EVENT_READ)
        (INCR Metric.worker_event_read ;;
         worker_add_stream) ;;
      when (has_event events EVENT_WRITE)
        (INCR Metric.worker_event_write ;;
         _worker_pipe_write) ;;
      when (has_event events EVENT_ERR)
        (INCR Metric.worker_event_error ;;
         log LOG_ERROR "error event received on pipe")
  | Some s => (* event on one of the connections *)
      when (has_event events EVENT_READ)
        (log LOG_VERB "processing worker read event on buf_sock" ;;
         INCR Metric.worker_event_read ;;
         _worker_event_read s) ;;
      when (has_event events EVENT_WRITE)
        (log LOG_VERB "processing worker write event on buf_sock" ;;
         INCR Metric.worker_event_write ;;
         status <- _worker_event_write s ;;
         when (status =? CC_OK)
           (c <- get_ch s ;;
            event_del (wid hdl c) ;;
            c <- get_ch s ;;
            event_add_read (rid hdl c) (Some s))) ;;
      when (has_event events EVENT_ERR)
        (set_state s CHANNEL_TERM ;;
         INCR Metric.worker_event_error) ;;
      c <- get_ch s ;;
      when (is_term_or_error c) (worker_ret_stream s)
  end.

(** The connection branch of [_worker_event] up to, and without, its last
    statement: the handling of the three classes of the event mask.  It is
    not a function of the source; it names the point at which the final
    check of the channel state is made. *)
Definition conn_event_bits (s : nat) (events : Z) : W unit :=
  when (has_event events EVENT_READ)
    (log LOG_VERB "processing worker read event on buf_sock" ;;
     INCR Metric.worker_event_read ;;
     _worker_event_read s) ;;
  when (has_event events EVENT_WRITE)
    (log LOG_VERB "processing worker write event on buf_sock" ;;
     INCR Metric.worker_event_write ;;
     status <- _worker_event_write s ;;
     when (status =? CC_OK)
       (c <- get_ch s ;;
        event_del (wid hdl c) ;;
        c <- get_ch s ;;
        event_add_read (rid hdl c) (Some s))) ;;
  when (has_event events EVENT_ERR)
    (set_state s CHANNEL_TERM ;;
     INCR Metric.worker_event_error).

(** The last statement of the connection branch of [_worker_event]. *)
Definition conn_event_check (s : nat) : W unit :=
  c <- get_ch s ;;
  when (is_term_or_error c) (worker_ret_stream s).

End Worker.

Arguments _worker_event_write {Env _} hdl processor s w.
Arguments _worker_event_read {Env _} hdl processor s w.
Arguments add_stream_loop {Env} ctx hdl i w.
Arguments worker_add_stream {Env _} ctx hdl w.
Arguments _worker_pipe_write {Env _} pipe_term_wid w.
Arguments worker_ret_stream {Env _} hdl processor pipe_term_wid s w.
Arguments _worker_event {Env _} ctx hdl processor pipe_term_wid arg events w.
Arguments conn_event_bits {Env _} hdl processor s events w.
Arguments conn_event_check {Env _} hdl processor pipe_term_wid s w.

(** ** Vocabulary of the statements *)

(** The addresses that the successful pops of a trace took off the inbound
    queue, in the order of the pops. *)
Definition popped (t : list event) : list nat :=
  omap (fun e => match e with EvPop Q_conn_new (Some p) => Some p | _ => None end) t.

(** The first call of Return Connection, which marks each run of it. *)
Definition ret_mark : event :=
  EvLog LOG_INFO "worker core marking buf_sock for return".

Definition is_ret_mark (e : event) : bool :=
  match e with
  | EvLog LOG_INFO msg => String.eqb msg "worker core marking buf_sock for return"
  | _ => false
  end.

Definition is_pipe_send (e : event) : bool :=
  match e with EvPipeSend _ => true | _ => false end.

Definition is_tcp_write (e : event) : bool :=
  match e with EvTcpWrite _ _ => true | _ => false end.

(** How many times a trace has an event of the given kind. *)
Definition count (f : event -> bool) (t : list event) : nat := length (filter f t).


Section Vocabulary.
Context {Env : Type}.

(** The handler table that [core_worker_setup] installs is the TCP one, whose
    read id and write id are both the socket descriptor of the connection. *)
Definition tcp_ids (h : channel_handler_st Env) : Prop :=
  forall c, rid h c = c_sd c /\ wid h c = c_sd c.

(** Every address held by the inbound queue is that of a connection record. *)
Definition queue_valid (w : world Env) : Prop :=
  Forall (fun p => is_Some (heap w !! p)) (ra_elems (conn_new w)).

(** What Inbound Handoff does to the record of a connection it takes over. *)
Definition adopt (ctx : nat) (h : channel_handler_st Env) (b : buf_sock Env)
  : buf_sock Env :=
  BufSock (Some ctx) (Some h) (bs_ch b) (bs_rbuf b) (bs_wbuf b) (bs_data b).

(** The calls Inbound Handoff makes for the connection at address [p]. *)
Definition adopt_events (h : channel_handler_st Env) (w : world Env) (p : nat)
  : list event :=
  match heap w !! p with
  | Some b => [EvPop Q_conn_new (Some p);
               EvLog LOG_VERB "Adding new buf_sock to worker thread";
               EvAddRead (rid h (bs_ch b)) (Some p)]
  | None => []
  end.

(** Exactly one of read interest and write interest is registered under [id]. *)
Definition one_interest (e : event_base) (id : Z) : Prop :=
  (is_Some (ev_rd e !! id) /\ ev_wr e !! id = None) \/
  (ev_rd e !! id = None /\ is_Some (ev_wr e !! id)).

(** What the handling of the event classes of a connection [s] keeps: the
    record stays, with its socket descriptor; under the TCP handler table no
    write interest is lost under any id but that descriptor, and a connection
    that had exactly one interest registered still has exactly one; and the
    trace only grows, by calls among which Return Connection does not start. *)
Definition conn_frame (h : channel_handler_st Env) (s : nat) (w w' : world Env)
  : Prop :=
  (exists b b',
      heap w !! s = Some b /\ heap w' !! s = Some b' /\
      c_sd (bs_ch b') = c_sd (bs_ch b) /\
      (tcp_ids h -> forall id, id <> c_sd (bs_ch b) ->
         is_Some (ev_wr (evb w) !! id) -> is_Some (ev_wr (evb w') !! id)) /\
      (tcp_ids h -> one_interest (evb w) (c_sd (bs_ch b)) ->
         one_interest (evb w') (c_sd (bs_ch b)))) /\
  (exists delta, trace w' = trace w ++ delta /\
                 count is_ret_mark delta = 0%nat).

(** A step of the worker that returns on every world holding the record of
    [s] and keeps the frame of [s]. *)
Definition framed (h : channel_handler_st Env) (s : nat) (m : M Env unit) : Prop :=
  forall w b, heap w !! s = Some b ->
    exists w', m w = Some (tt, w') /\ conn_frame h s w w'.

(** What a dispatch needs of the world it starts from.  For the pipes, the
    inbound queue holds connection records.  For a connection, its record is
    there, the handler table is the TCP one, and its socket descriptor is not
    the id [pid] (two open descriptors are never equal). *)
Definition dispatch_ready (h : channel_handler_st Env) (pid : Z)
    (arg : option nat) (w : world Env) : Prop :=
  match arg with
  | None => queue_valid w
  | Some s => tcp_ids h /\ exists b, heap w !! s = Some b /\ c_sd (bs_ch b) <> pid
  end.

(** The trace of a run, empty when the run did not return. *)
Definition final_trace {A} (r : option (A * world Env)) : list event :=
  match r with Some (_, w) => trace w | None => [] end.

(** The channel state of [s] after a run. *)
Definition final_state {A} (r : option (A * world Env)) (s : nat)
  : option channel_state :=
  match r with
  | Some (_, w) => (fun b => c_state (bs_ch b)) <$> heap w !! s
  | None => None
  end.

(** The channel state of the connection at address [s], if there is one. *)
Definition conn_state (w : world Env) (s : nat) : option channel_state :=
  (fun b => c_state (bs_ch b)) <$> heap w !! s.
End Vocabulary.

(** The failed pop and the warning that end the loop of Inbound Handoff when
    the queue ([len] entries) runs out before the [k] signal bytes do. *)
Definition shortfall (k len : nat) : list event :=
  if decide (len < k)%nat
  then [EvPop Q_conn_new None;
        EvLogN LOG_WARN "event number does not match conn queue: missing conns"
               (Z.of_nat (k - len))]
  else [].

(** ** A scripted environment

    A concrete outside world for running the worker on examples: the hidden
    environment is the list of the statuses that the coming calls will return,
    consumed from the head (an exhausted script answers [0]). *)
Module Script.
Definition next (e : list Z) : Z * list Z :=
  match e with
  | [] => (0, [])
  | x :: e' => (x, e')
  end.

(** A write that succeeds drains the buffer; a read leaves it as it is. *)
#[export] Instance platform : Platform (list Z) := {|
  io_tcp_read b e := let (x, e') := next e in ((x, bs_rbuf b, c_state (bs_ch b)), e');
  io_tcp_write b e :=
    let (x, e') := next e in
    ((x, if x =? CC_OK then [] else bs_wbuf b, c_state (bs_ch b)), e');
  io_pipe_recv cap e := next e;
  io_pipe_send e := next e;
  io_sock_reset b := BufSock None None (TcpConn 0 CHANNEL_OPEN) [] [] 0
|}.

(** The handler table set up for TCP: both ids are the socket descriptor. *)
Definition tcp : channel_handler_st (list Z) :=
  ChannelHandler (fun c e => (TcpConn (c_sd c) CHANNEL_TERM, e)) c_sd c_sd.

(** An echo processor: the read hook moves the request to the reply. *)
Definition echo : data_processor (list Z) :=
  DataProcessor
    (fun rb wb d e => let (x, e') := next e in ((x, ([], wb ++ rb, d)), e'))
    (fun rb wb d e => let (x, e') := next e in ((x, (rb, wb, d)), e'))
    (fun rb wb d e => let (x, e') := next e in ((x, ([], [], d)), e')).

Definition conn (sd : Z) (rb wb : list Byte.byte) : buf_sock (list Z) :=
  BufSock None None (TcpConn sd CHANNEL_OPEN) rb wb 0.

(** A world with the given read and write interests, connection records,
    inbound queue, capacity of the (empty) outbound queue, and script. *)
Definition mk_world (rd wr : list (Z * option nat))
    (conns : list (nat * buf_sock (list Z))) (new_q : list nat)
    (term_cap : nat) (script : list Z) : world (list Z) :=
  World (EventBase (list_to_map rd) (list_to_map wr)) (list_to_map conns)
        (RingArray 1024 new_q) (RingArray term_cap []) None script [].

Definition world0 := mk_world [] [].

(** The address of the worker context and the write id of [pipe_term]. *)
Definition ctx : nat := 100%nat.
Definition pipe_wid : Z := 4.

Definition dispatch := _worker_event ctx tcp echo pipe_wid.

(** A connection on descriptor 7 with a reply of one byte pending in its write
    buffer, and an idle one on descriptor 8. *)
Definition c1 : buf_sock (list Z) := conn 7 [] [Byte.x01].
Definition c2 : buf_sock (list Z) := conn 8 [] [].
End Script.

(** ** Vocabulary of the further properties *)

(** One for the counter [m], nothing for the others. *)
Definition unit_at (m x : Metric.name) : Z := if decide (x = m) then 1 else 0.

(** What a dispatch adds to the three counters of event classes: one for each
    class of the mask. *)
Definition class_delta (events : Z) (x : Metric.name) : Z :=
  match x with
  | Metric.worker_event_read => if has_event events EVENT_READ then 1 else 0
  | Metric.worker_event_write => if has_event events EVENT_WRITE then 1 else 0
  | Metric.worker_event_error => if has_event events EVENT_ERR then 1 else 0
  | _ => 0
  end.

(** What a trace accounts for in the two counters of streams: the connections
    popped off the inbound queue and the runs of Return Connection. *)
Definition tally (delta : list event) (x : Metric.name) : Z :=
  match x with
  | Metric.worker_add_stream => Z.of_nat (length (popped delta))
  | Metric.worker_ret_stream => Z.of_nat (count is_ret_mark delta)
  | _ => 0
  end.

Section MoreVocabulary.
Context {Env : Type}.

(** The counters moved by [d]: a null [worker_metrics] stays null, and a
    counter [x] of a non-null one has grown by [d x]. *)
Definition metrics_rel (d : Metric.name -> Z) (w w' : world Env) : Prop :=
  match worker_metrics w with
  | None => worker_metrics w' = None
  | Some ms => exists ms', worker_metrics w' = Some ms' /\ forall x, ms' x = ms x + d x
  end.

(** What the handling of the event classes of the connection [s] leaves alone:
    the other records, the owner, handler and descriptor of [s], and both
    queues; it pops nothing, starts no Return Connection and sends nothing on
    the outbound pipe; the counters move by [d]. *)
Definition quiet (d : Metric.name -> Z) (s : nat) (w w' : world Env) : Prop :=
  (forall p, p <> s -> heap w' !! p = heap w !! p) /\
  (exists b b',
      heap w !! s = Some b /\ heap w' !! s = Some b' /\
      bs_owner b' = bs_owner b /\ bs_hdl b' = bs_hdl b /\
      c_sd (bs_ch b') = c_sd (bs_ch b)) /\
  conn_new w' = conn_new w /\ conn_term w' = conn_term w /\
  (exists delta,
      trace w' = trace w ++ delta /\ popped delta = [] /\
      count is_ret_mark delta = 0%nat /\ count is_pipe_send delta = 0%nat) /\
  metrics_rel d w w'.

(** A step that returns on every world holding the record of [s], quietly. *)
Definition quietly (d : Metric.name -> Z) (s : nat) (m : M Env unit) : Prop :=
  forall w b, heap w !! s = Some b ->
    exists w', m w = Some (tt, w') /\ quiet d s w w'.

(** The argument of a dispatch refers to something the worker holds. *)
Definition dispatch_valid (arg : option nat) (w : world Env) : Prop :=
  match arg with
  | None => queue_valid w
  | Some s => is_Some (heap w !! s)
  end.
End MoreVocabulary.

(** ** Setup and teardown *)

(** Modelled from the spec: [EX_CONFIG] of sysexits.h, the exit status of a
    configuration error. *)
Definition EX_CONFIG : Z := 78.

(** Modelled from the spec: [worker_options_st] of worker.h, the two recognized
    options, each with the unsigned value that [option_uint] reads from it. *)
Record worker_options_st := WorkerOptions { worker_timeout : Z; worker_nevent : Z }.

(** The C assignment of an unsigned value to an [int] of 32 bits. *)
Definition int_of_uint (v : Z) : Z :=
  let r := v mod 2 ^ 32 in if r <? 2 ^ 31 then r else r - 2 ^ 32.

(** The calls that setup and teardown make to the outside, with their results. *)
Inductive life_event :=
| LfLog (lvl : log_level) (msg : string)
| LfCrit (msg : string)
| LfCreate (nevent : Z) (ok : bool)
| LfDestroy
| LfAddRead (id : Z) (data : option nat)
| LfExit (code : Z).

Definition is_create_ok (e : life_event) : bool :=
  match e with LfCreate _ true => true | _ => false end.

Definition is_destroy (e : life_event) : bool :=
  match e with LfDestroy => true | _ => false end.

Definition is_exit (e : life_event) : bool :=
  match e with LfExit _ => true | _ => false end.

(** How many events of a kind a log of setup and teardown has. *)
Definition life_count (f : life_event -> bool) (t : list life_event) : nat :=
  length (filter f t).

(** Modelled from the spec: [event_base_create] of cc_event.h, which answers
    with a null pointer or with a new event base; the environment says
    which. *)
Class Reactor (Env : Type) := {
  io_event_base_create : Z -> Env -> bool * Env
}.

(** The state of the module that setup and teardown work on: the flag
    [worker_init], the timeout and the event base of the context ([None] is
    the null pointer), the [worker_metrics] pointer, and the handler table
    ([None] while its fields are still null; its [recv] and [send] are the
    transport of [Platform]), with the environment and the log of the calls
    made. *)
Record core (Env : Type) := Core {
  worker_init : bool;
  ctx_timeout : Z;
  ctx_evb : option event_base;
  core_metrics : option metrics_st;
  handlers : option (channel_handler_st Env);
  core_env : Env;
  life : list life_event
}.
Arguments Core {Env} _ _ _ _ _ _ _.
Arguments worker_init {Env} _.
Arguments ctx_timeout {Env} _.
Arguments ctx_evb {Env} _.
Arguments core_metrics {Env} _.
Arguments handlers {Env} _.
Arguments core_env {Env} _.
Arguments life {Env} _.

(** How a call ends: it returns, or the process exits with a status. *)
Inductive ending := Returns | Exits (code : Z).

Section Lifecycle.
Context {Env : Type} `{!Reactor Env}.

(** [WORKER_TIMEOUT] and [WORKER_NEVENT], the defaults of worker.h; the
    operations of the TCP channel that setup puts in the handler table; and
    [pipe_read_id(pipe_new)]. *)
Variable WORKER_TIMEOUT : Z.
Variable WORKER_NEVENT : Z.
Variable tcp_close : tcp_conn -> Env -> tcp_conn * Env.
Variable tcp_read_id : tcp_conn -> Z.
Variable tcp_write_id : tcp_conn -> Z.
Variable pipe_new_rid : Z.

Definition life_emit (e : life_event) (c : core Env) : core Env :=
  Core (worker_init c) (ctx_timeout c) (ctx_evb c) (core_metrics c) (handlers c)
       (core_env c) (life c ++ [e]).

Definition set_init (i : bool) (c : core Env) : core Env :=
  Core i (ctx_timeout c) (ctx_evb c) (core_metrics c) (handlers c) (core_env c) (life c).

Definition set_timeout (t : Z) (c : core Env) : core Env :=
  Core (worker_init c) t (ctx_evb c) (core_metrics c) (handlers c) (core_env c) (life c).

Definition set_ctx_evb (e : option event_base) (c : core Env) : core Env :=
  Core (worker_init c) (ctx_timeout c) e (core_metrics c) (handlers c) (core_env c) (life c).

Definition set_core_metrics (m : option metrics_st) (c : core Env) : core Env :=
  Core (worker_init c) (ctx_timeout c) (ctx_evb c) m (handlers c) (core_env c) (life c).

Definition set_handlers (h : option (channel_handler_st Env)) (c : core Env) : core Env :=
  Core (worker_init c) (ctx_timeout c) (ctx_evb c) (core_metrics c) h (core_env c) (life c).

Definition set_core_env (e : Env) (c : core Env) : core Env :=
  Core (worker_init c) (ctx_timeout c) (ctx_evb c) (core_metrics c) (handlers c) e (life c).

(** [event_base_destroy(&(ctx->evb))]: releases the event base and nulls the
    pointer. *)
Definition event_base_destroy (c : core Env) : core Env :=
  life_emit LfDestroy (set_ctx_evb None c).

Definition core_worker_teardown (c : core Env) : core Env :=
  let c := life_emit (LfLog LOG_INFO "tear down the core::worker module") c in
  let c := if negb (worker_init c)
           then life_emit (LfLog LOG_WARN "core::worker has never been setup") c
           else event_base_destroy c in
  let c := set_core_metrics None c in
  set_init false c.

Definition core_worker_setup (options : option worker_options_st)
    (metrics : option metrics_st) (c : core Env) : ending * core Env :=
  let timeout := WORKER_TIMEOUT in
  let nevent := WORKER_NEVENT in
  let c := life_emit (LfLog LOG_INFO "set up the core::worker module") c in
  let c := if worker_init c
           then core_worker_teardown
                  (life_emit (LfLog LOG_WARN "worker has already been setup, re-creating") c)
           else c in
  let c := set_core_metrics metrics c in
  let timeout := match options with
                 | Some o => int_of_uint (worker_timeout o)
                 | None => timeout
                 end in
  let nevent := match options with
                | Some o => int_of_uint (worker_nevent o)
                | None => nevent
                end in
  let c := set_timeout timeout c in
  let '(ok, e) := io_event_base_create nevent (core_env c) in
  let c := life_emit (LfCreate nevent ok) (set_core_env e c) in
  if negb ok then
    (* ctx->evb == NULL *)
    let c := set_ctx_evb None c in
    let c := life_emit
               (LfCrit "failed to setup worker thread core; could not create event_base") c in
    (Exits EX_CONFIG, life_emit (LfExit EX_CONFIG) c)
  else
    let c := set_ctx_evb (Some (EventBase ∅ ∅)) c in
    (* worker thread does not handle accept/reject/open/term directly *)
    let c := set_handlers (Some (ChannelHandler tcp_close tcp_read_id tcp_write_id)) c in
    let c := life_emit (LfAddRead pipe_new_rid None)
               (set_ctx_evb (evb_add_read pipe_new_rid None <$> ctx_evb c) c) in
    (Returns, set_init true c).

(** One call of the interface of the module. *)
Inductive life_op :=
| OpSetup (options : option worker_options_st) (metrics : option metrics_st)
| OpTeardown.

(** A sequence of calls, up to the first that exits the process. *)
Fixpoint run_ops (ops : list life_op) (c : core Env) : ending * core Env :=
  match ops with
  | [] => (Returns, c)
  | OpTeardown :: ops' => run_ops ops' (core_worker_teardown c)
  | OpSetup o m :: ops' =>
      match core_worker_setup o m c with
      | (Returns, c') => run_ops ops' c'
      | (Exits code, c') => (Exits code, c')
      end
  end.

(** The statics when the program starts: nothing set up. *)
Definition core_start (e : Env) : core Env := Core false 0 None None None e [].
End Lifecycle.

Arguments core_worker_teardown {Env} c.
Arguments core_worker_setup {Env _} WORKER_TIMEOUT WORKER_NEVENT tcp_close tcp_read_id
  tcp_write_id pipe_new_rid options metrics c.
Arguments run_ops {Env _} WORKER_TIMEOUT WORKER_NEVENT tcp_close tcp_read_id
  tcp_write_id pipe_new_rid ops c.

(** ** The wait cycle and the main loop *)

(** The calls that the wait cycle and the main loop make to the outside, with
    their results; the calls of the dispatches of a cycle are in the trace of
    the world. *)
Inductive loop_event :=
| LpRunning (b : bool)
| LpWait (timeout : Z) (n : Z)
| LpTimeUpdate
| LpCrit (msg : string)
| LpExit (code : Z).

(** Modelled from the spec: the Event Reactor's [event_wait] of cc_event.h,
    which blocks until registered interests are ready or the timeout elapses
    and then either fails or delivers each ready interest, tagged with its
    user data and its mask, to the callback given when the event base was
    made, and returns how many there were.  The environment says which:
    [inl n] is a return of [n] with nothing delivered, [inr ready] the
    delivery of [ready] in order.  [time_update] refreshes the cached time,
    and the [running] flag of the processor is set by another thread, so each
    reading of it is the environment's. *)
Class Loop (Env : Type) := {
  io_event_wait : event_base -> Z -> Env -> (Z + list (option nat * Z)) * Env;
  io_time_update : Env -> Env;
  io_running : Env -> bool * Env
}.

(** The worker while it runs: the world of the dispatches, whose event base is
    [ctx->evb]; [ctx->timeout]; the counters [worker_event_loop] and
    [worker_event_total] of [worker_metrics], which count only while that
    pointer is not null; and the log of the calls of the loop. *)
Record loop_st (Env : Type) := LoopSt {
  lp_world : world Env;
  lp_timeout : Z;
  worker_event_loop : Z;
  worker_event_total : Z;
  lp_calls : list loop_event
}.
Arguments LoopSt {Env} _ _ _ _ _.
Arguments lp_world {Env} _.
Arguments lp_timeout {Env} _.
Arguments worker_event_loop {Env} _.
Arguments worker_event_total {Env} _.
Arguments lp_calls {Env} _.

(** How a run of the main loop ends: it returns or exits the process, it
    dereferences an address that holds no record, or the fuel given to the
    run is used up before the loop is over. *)
Inductive loop_result (Env : Type) :=
| Ended (r : ending) (st : loop_st Env)
| Faulted
| Unfinished.
Arguments Ended {Env} _ _.
Arguments Faulted {Env}.
Arguments Unfinished {Env}.

Section Loop.
Context {Env : Type} `{!Platform Env} `{!Loop Env}.

Variable ctx : nat.
Variable hdl : channel_handler_st Env.
Variable processor : data_processor Env.
Variable pipe_term_wid : Z.

Definition lp_emit (e : loop_event) (st : loop_st Env) : loop_st Env :=
  LoopSt (lp_world st) (lp_timeout st) (worker_event_loop st) (worker_event_total st)
         (lp_calls st ++ [e]).

Definition lp_set_world (w : world Env) (st : loop_st Env) : loop_st Env :=
  LoopSt w (lp_timeout st) (worker_event_loop st) (worker_event_total st) (lp_calls st).

(** The callbacks of one wait: [_worker_event] on each ready interest. *)
Fixpoint deliver (ready : list (option nat * Z)) : M Env unit :=
  match ready with
  | [] => ret tt
  | (arg, events) :: ready' =>
      _worker_event ctx hdl processor pipe_term_wid arg events ;;
      deliver ready'
  end.

(** [event_wait(ctx->evb, ctx->timeout)], with the count it returns. *)
Definition event_wait (st : loop_st Env) : option (Z * loop_st Env) :=
  let w := lp_world st in
  let '(res, e) := io_event_wait (evb w) (lp_timeout st) (env w) in
  let w := set_env e w in
  match res with
  | inl n => Some (n, lp_emit (LpWait (lp_timeout st) n) (lp_set_world w st))
  | inr ready =>
      match deliver ready w with
      | Some (_, w') =>
          let n := Z.of_nat (length ready) in
          Some (n, lp_emit (LpWait (lp_timeout st) n) (lp_set_world w' st))
      | None => None
      end
  end.

(** [INCR(worker_metrics, worker_event_loop)] *)
Definition INCR_loop (st : loop_st Env) : loop_st Env :=
  match worker_metrics (lp_world st) with
  | Some _ => LoopSt (lp_world st) (lp_timeout st) (worker_event_loop st + 1)
                     (worker_event_total st) (lp_calls st)
  | None => st
  end.

(** [INCR_N(worker_metrics, worker_event_total, n)] *)
Definition INCR_N_total (n : Z) (st : loop_st Env) : loop_st Env :=
  match worker_metrics (lp_world st) with
  | Some _ => LoopSt (lp_world st) (lp_timeout st) (worker_event_loop st)
                     (worker_event_total st + n) (lp_calls st)
  | None => st
  end.

Definition time_update (st : loop_st Env) : loop_st Env :=
  lp_emit LpTimeUpdate
    (lp_set_world (set_env (io_time_update (env (lp_world st))) (lp_world st)) st).

Definition _worker_evwait (st : loop_st Env) : option (Z * loop_st Env) :=
  match event_wait st with
  | Some (n, st) =>
      if n <? 0 then Some (n, st)
      else
        let st := INCR_loop st in
        let st := INCR_N_total n st in
        let st := time_update st in
        Some (CC_OK, st)
  | None => None
  end.

(** [__atomic_load_n(&processor->running, __ATOMIC_ACQUIRE)] *)
Definition load_running (st : loop_st Env) : bool * loop_st Env :=
  let '(r, e) := io_running (env (lp_world st)) in
  (r, lp_emit (LpRunning r) (lp_set_world (set_env e (lp_world st)) st)).

(** The main loop, for at most [fuel] readings of the flag. *)
Fixpoint core_worker_evloop (fuel : nat) (st : loop_st Env) : loop_result Env :=
  match fuel with
  | O => Unfinished
  | S fuel' =>
      let '(r, st) := load_running st in
      if r then
        match _worker_evwait st with
        | Some (status, st) =>
            if negb (status =? CC_OK) then
              let st := lp_emit (LpCrit "worker core event loop exited due to failure") st in
              Ended (Exits 1) (lp_emit (LpExit 1) st)
            else core_worker_evloop fuel' st
        | None => Faulted
        end
      else Ended Returns st
  end.
End Loop.

Arguments deliver {Env _} ctx hdl processor pipe_term_wid ready w.
Arguments event_wait {Env _ _} ctx hdl processor pipe_term_wid st.
Arguments _worker_evwait {Env _ _} ctx hdl processor pipe_term_wid st.
Arguments core_worker_evloop {Env _ _} ctx hdl processor pipe_term_wid fuel st.

(** ** Vocabulary of setup, teardown and the loop *)

(** What the masks of a batch of ready interests add to the three counters of
    event classes. *)
Fixpoint batch_class (ready : list (option nat * Z)) (x : Metric.name) : Z :=
  match ready with
  | [] => 0
  | (_, events) :: ready' => class_delta events x + batch_class ready' x
  end.

(** The calls of the completed cycles of the main loop whose waits, on
    timeout [t], returned the counts [ns]. *)
Fixpoint cycles (t : Z) (ns : list Z) : list loop_event :=
  match ns with
  | [] => []
  | n :: ns' => [LpRunning true; LpWait t n; LpTimeUpdate] ++ cycles t ns'
  end.

Section LoopVocabulary.
Context {Env : Type}.

(** The connections of a batch of ready interests, in the order of their
    events. *)
Definition batch_conns (ready : list (option nat * Z)) : list nat := omap fst ready.

(** What a wait needs of the interests it delivers: the inbound queue holds
    connection records; no connection is ready twice; and every ready
    connection has its record and is not waiting in the inbound queue. *)
Definition batch_valid (ready : list (option nat * Z)) (w : world Env) : Prop :=
  queue_valid w /\
  NoDup (batch_conns ready) /\
  Forall (fun s => is_Some (heap w !! s) /\ s ∉ ra_elems (conn_new w))
         (batch_conns ready).

(** What the dispatches of a batch do between them: the inbound queue loses
    at its head the connections popped, in order; the outbound queue gains at
    its tail connections of the batch, in the order of their events and each
    at most once; the records of the connections that are not in the batch
    change only by adoption; the inbound queue still holds connection
    records; and the counters move by the classes of the masks and by the
    streams added and returned. *)
Definition batch_outcome (ctx : nat) (h : channel_handler_st Env)
    (ready : list (option nat * Z)) (w w' : world Env) : Prop :=
  exists delta rets,
    trace w' = trace w ++ delta /\
    popped delta ++ ra_elems (conn_new w') = ra_elems (conn_new w) /\
    ra_elems (conn_term w') = ra_elems (conn_term w) ++ rets /\
    sublist rets (batch_conns ready) /\
    (forall p, p ∉ batch_conns ready ->
       heap w' !! p = if decide (p ∈ popped delta)
                      then adopt ctx h <$> heap w !! p else heap w !! p) /\
    queue_valid w' /\
    metrics_rel (fun x => batch_class ready x + tally delta x) w w'.
End LoopVocabulary.

(** Setup and the loop on the scripted environment: a negative entry of the
    script makes the creation of the event base, or the wait, fail; a wait
    that succeeds delivers as readable the interest of the inbound pipe when
    the entry is positive and nothing when it is zero; the flag reads as set
    while the entries are positive. *)
Module ScriptLoop.
Import Script.

#[export] Instance reactor : Reactor (list Z) := {|
  io_event_base_create _ e := let (x, e') := next e in (0 <=? x, e')
|}.

#[export] Instance loop : Loop (list Z) := {|
  io_event_wait _ _ e :=
    let (x, e') := next e in
    (if x <? 0 then inl x else if 0 <? x then inr [(None, EVENT_READ)] else inr [], e');
  io_time_update e := e;
  io_running e := let (x, e') := next e in (0 <? x, e')
|}.

Definition setup :=
  core_worker_setup (Env := list Z) 100 1024
    (fun c e => (TcpConn (c_sd c) CHANNEL_TERM, e)) c_sd c_sd 3.

Definition start (w : world (list Z)) : loop_st (list Z) := LoopSt w 100 0 0 [].

Definition evwait := _worker_evwait ctx tcp echo pipe_wid.

Definition evloop := core_worker_evloop ctx tcp echo pipe_wid.
End ScriptLoop.

(** * Properties *)

(** Symbolic execution of the worker's steps on a world. *)
Ltac exec :=
  cbv beta iota zeta delta
      [bind ret when log logn INCR load store set_state get_ch buf_tcp_read
       buf_tcp_write call_hook processor_read processor_write processor_error
       event_add_read event_add_write event_del pop_conn_new push_conn_term
       pipe_recv pipe_send hdl_term buf_sock_reset buf_sock_return
       set_evb set_heap set_conn_new set_conn_term set_metrics set_env emit
       with_state with_ch with_owner with_hdl with_bufs with_rbuf with_wbuf];
  cbn [heap evb env trace conn_new conn_term worker_metrics
       bs_owner bs_hdl bs_ch bs_rbuf bs_wbuf bs_data c_sd c_state fst snd negb].

Ltac run := exec; repeat (rewrite lookup_insert_eq; exec).

Section Connection.
Context {Env : Type} `{!Platform Env}.
Variable hdl : channel_handler_st Env.
Variable processor : data_processor Env.

Lemma retry_not_ok tst :
  tst = CC_ERETRY \/ tst = CC_EAGAIN ->
  (tst =? CC_ERETRY) || (tst =? CC_EAGAIN) = true /\ tst <> CC_OK.
Proof. unfold CC_ERETRY, CC_EAGAIN, CC_OK. intros [-> | ->]; split; (done || lia). Qed.

(** C4: Connection Write calls the write hook of the processor after the
    flush attempt whatever status [tst] the transport gave, on the buffers as
    the transport left them; when the hook returns a negative status the
    connection is in state TERM and the function returns [CC_ERROR], also
    when [tst] was a retry or a success; otherwise it returns [tst]. *)
Theorem write_hook_follows_flush s w b tst wb cs e1 r bufs e2 :
  heap w !! s = Some b ->
  io_tcp_write b (env w) = (tst, wb, cs, e1) ->
  proc_write processor (bs_rbuf b) wb (bs_data b) e1 = (r, bufs, e2) ->
  exists status w' b' regs tail,
    _worker_event_write hdl processor s w = Some (status, w') /\
    trace w' = trace w ++ [EvLog LOG_VERB "writing on buf_sock"; EvTcpWrite s tst]
                       ++ regs ++ [EvProcWrite s r] ++ tail /\
    count is_tcp_write (regs ++ tail) = 0%nat /\
    heap w' !! s = Some b' /\
    (r < 0 -> c_state (bs_ch b') = CHANNEL_TERM /\ status = CC_ERROR) /\
    (0 <= r -> status = tst).
Proof.
  intros Hs Hw Hp. unfold _worker_event_write. run. rewrite Hs. run. rewrite Hw. run.
  destruct ((tst =? CC_ERETRY) || (tst =? CC_EAGAIN)) eqn:Hretry;
    [ | destruct (tst =? CC_ERROR) eqn:Herr ];
    run; rewrite Hp; run; destruct (r <? 0) eqn:Hr; run.
  all: eexists _, _, _.
  1, 2: exists [EvDel (wid hdl (TcpConn (c_sd (bs_ch b)) cs));
                EvAddWrite (wid hdl (TcpConn (c_sd (bs_ch b)) cs)) (Some s)].
  3, 4, 5, 6: exists [].
  1, 3, 5: exists [EvLog LOG_DEBUG "handler signals channel termination"].
  4, 5, 6: exists [].
  all: (split; [reflexivity | ]);
    (split; [by rewrite <- !app_assoc | ]);
    (split; [reflexivity | ]);
    (split; [apply lookup_insert_eq | ]);
    split; intros; first [ lia | done ].
Qed.

(** When the transport answers with a retry status, Connection Write leaves
    the connection with no read interest and with write interest registered
    for it, and its result is not [CC_OK], so that dispatch does not bring the
    read interest back. *)
Lemma write_retry_write_only s w b tst wb cs e1 :
  tcp_ids hdl ->
  heap w !! s = Some b ->
  io_tcp_write b (env w) = (tst, wb, cs, e1) ->
  tst = CC_ERETRY \/ tst = CC_EAGAIN ->
  exists status w' b',
    _worker_event_write hdl processor s w = Some (status, w') /\
    heap w' !! s = Some b' /\
    status <> CC_OK /\
    ev_rd (evb w') !! rid hdl (bs_ch b') = None /\
    ev_wr (evb w') !! wid hdl (bs_ch b') = Some (Some s).
Proof.
  intros Hid Hs Hw Hretry. apply retry_not_ok in Hretry as [Hretry Hnok].
  unfold _worker_event_write. run. rewrite Hs. run. rewrite Hw. run.
  rewrite Hretry. run.
  destruct (proc_write processor (bs_rbuf b) wb (bs_data b) e1) as [[r bufs] e2].
  destruct (r <? 0) eqn:Hr; run; eexists _, _, _;
    (split; [reflexivity | ]); (split; [apply lookup_insert_eq | ]);
    (split; [done | ]); cbn [bs_ch];
    rewrite !(proj1 (Hid _)), !(proj2 (Hid _)); cbn [c_sd ev_rd ev_wr evb_add_write evb_del];
    (split; [apply lookup_delete_eq | apply lookup_insert_eq]).
Qed.

(** Connection Read when the read hook fails: the trace is the read of the
    transport, the hook and a debug line, and the state is TERM. *)
Lemma read_hook_failure s w b rst rb cs e1 r bufs e2 :
  heap w !! s = Some b ->
  io_tcp_read b (env w) = (rst, rb, cs, e1) ->
  proc_read processor rb (bs_wbuf b) (bs_data b) e1 = (r, bufs, e2) ->
  r < 0 ->
  exists w',
    _worker_event_read hdl processor s w = Some (tt, w') /\
    trace w' = trace w ++ [EvLog LOG_VERB "reading on buf_sock"; EvTcpRead s rst;
                           EvProcRead s r;
                           EvLog LOG_DEBUG "handler signals channel termination"] /\
    heap w' = <[s := with_state CHANNEL_TERM (with_bufs bufs b)]> (heap w) /\
    evb w' = evb w /\ conn_term w' = conn_term w /\ conn_new w' = conn_new w.
Proof.
  intros Hs Hrd Hp Hr. unfold _worker_event_read. run. rewrite Hs. run.
  rewrite Hrd. run. rewrite Hp. run.
  replace (r <? 0) with true by lia. run.
  eexists. split; [reflexivity | ]. cbn [trace heap evb conn_term conn_new].
  split; [by rewrite <- !app_assoc | ].
  split; [ | done ].
  by rewrite !insert_insert_eq.
Qed.
End Connection.

Section Counting.
Lemma count_app f (t1 t2 : list event) : count f (t1 ++ t2) = (count f t1 + count f t2)%nat.
Proof. unfold count. by rewrite filter_app, length_app. Qed.

Lemma count_cons f e (t : list event) :
  count f (e :: t) = ((if f e then 1 else 0) + count f t)%nat.
Proof.
  unfold count. rewrite filter_cons.
  destruct (decide (f e)) as [H | H].
  - destruct (f e); [done | by destruct H].
  - destruct (f e); [by destruct H | done].
Qed.

Lemma count_nil f : count f [] = 0%nat.
Proof. done. Qed.
End Counting.

Ltac count_events := rewrite ?count_app, ?count_cons, ?count_nil; cbn; try lia.

Section Handoff.
Context {Env : Type} `{!Platform Env}.
Variable ctx : nat.
Variable hdl : channel_handler_st Env.
Variable processor : data_processor Env.
Variable pipe_term_wid : Z.

Lemma adopt_events_ch (w w1 : world Env) p :
  (fun b => bs_ch b) <$> heap w1 !! p = (fun b => bs_ch b) <$> heap w !! p ->
  adopt_events hdl w1 p = adopt_events hdl w p.
Proof.
  unfold adopt_events. intros H.
  destruct (heap w1 !! p), (heap w !! p); cbn in H; [ | done ..].
  injection H as H. by rewrite H.
Qed.

Lemma adopt_events_no_send (w : world Env) ps :
  count is_pipe_send (flat_map (adopt_events hdl w) ps) = 0%nat.
Proof.
  induction ps as [| p ps IH]; [done | ].
  cbn [flat_map]. rewrite count_app, IH. unfold adopt_events.
  by destruct (heap w !! p).
Qed.

(** The loop of Inbound Handoff on [k] signal bytes: it takes the first [k]
    connections of the queue, or all of them when there are fewer. *)
Lemma add_stream_loop_spec k : forall w,
  queue_valid w ->
  exists w',
    add_stream_loop ctx hdl k w = Some (tt, w') /\
    conn_new w' = RingArray (ra_cap (conn_new w)) (drop k (ra_elems (conn_new w))) /\
    trace w' = trace w ++ flat_map (adopt_events hdl w) (take k (ra_elems (conn_new w)))
                       ++ shortfall k (length (ra_elems (conn_new w))) /\
    (forall p, heap w' !! p =
               if decide (p ∈ take k (ra_elems (conn_new w)))
               then adopt ctx hdl <$> heap w !! p else heap w !! p) /\
    (forall id, is_Some (ev_rd (evb w) !! id) -> is_Some (ev_rd (evb w') !! id)) /\
    (forall p b, p ∈ take k (ra_elems (conn_new w)) -> heap w !! p = Some b ->
                 is_Some (ev_rd (evb w') !! rid hdl (bs_ch b))) /\
    ev_wr (evb w') = ev_wr (evb w) /\
    conn_term w' = conn_term w /\ env w' = env w.
Proof.
  induction k as [| k IH]; intros w Hq.
  - exists w. cbn [add_stream_loop ret take drop flat_map].
    unfold shortfall. rewrite decide_False by lia. rewrite !app_nil_r.
    repeat split; try done.
    + by destruct (conn_new w).
    + intros p b Hp. by apply not_elem_of_nil in Hp.
  - cbn [add_stream_loop]. unfold pop_conn_new at 1, ring_array_pop.
    unfold bind at 1. unfold queue_valid in Hq.
    destruct (ra_elems (conn_new w)) as [| p0 q] eqn:Hel.
    + eexists. split; [reflexivity | ]. cbn [take drop flat_map length].
      unfold shortfall. rewrite decide_True by lia. exec.
      repeat split; try done.
      * destruct (conn_new w); cbn in *; by subst.
      * by rewrite <- !app_assoc, Nat.sub_0_r.
      * intros p b Hp. by apply not_elem_of_nil in Hp.
    + apply Forall_cons in Hq as [[b0 Hb0] Hq].
      run. rewrite Hb0. run.
      match goal with |- context [add_stream_loop ctx hdl k ?w1] => set (w1' := w1) end.
      assert (Hheap1 : forall p, heap w1' !! p =
                if decide (p = p0) then Some (adopt ctx hdl b0) else heap w !! p).
      { intros p. subst w1'. cbn [heap]. rewrite insert_insert_eq.
        destruct (decide (p = p0)) as [-> | Hne];
          [apply lookup_insert_eq | by rewrite lookup_insert_ne]. }
      assert (Hch : forall p, (fun b => bs_ch b) <$> heap w1' !! p
                              = (fun b => bs_ch b) <$> heap w !! p).
      { intros p. rewrite Hheap1. destruct (decide (p = p0)) as [-> | ]; [ | done].
        by rewrite Hb0. }
      destruct (IH w1') as (w' & Hrun & Hcn & Htr & Hhp & Hmono & Hreg & Hwr & Hct & Hen).
      { unfold queue_valid. subst w1'. cbn [conn_new heap ra_elems].
        eapply Forall_impl; [exact Hq | ]. intros p Hp. cbn beta.
        rewrite insert_insert_eq. by apply lookup_insert_is_Some', or_intror. }
      exists w'. split; [exact Hrun | ].
      assert (Hel1 : ra_elems (conn_new w1') = q) by done.
      rewrite Hel1 in *.
      split; [by rewrite Hcn | ].
      split.
      { assert (Htr1 : trace w1' = trace w ++ adopt_events hdl w p0).
        { subst w1'. cbn [trace]. unfold adopt_events. rewrite Hb0.
          by rewrite <- !app_assoc. }
        rewrite Htr, Htr1. cbn [take flat_map length].
        rewrite <- !app_assoc. do 2 f_equal.
        f_equal.
        - apply flat_map_ext. intros p. by apply adopt_events_ch.
        - unfold shortfall. repeat case_decide; try lia; [ | done].
          do 3 f_equal. }
      split.
      { intros p. rewrite Hhp, Hheap1. cbn [take].
        destruct (decide (p = p0)) as [-> | Hne].
        - rewrite (decide_True (P := p0 ∈ p0 :: take k q)) by apply list_elem_of_here.
          rewrite Hb0. by case_decide.
        - destruct (decide (p ∈ take k q)) as [Hin | Hnin].
          + by rewrite decide_True by by apply list_elem_of_further.
          + rewrite decide_False; [done | ].
            intros [? | ?]%elem_of_cons; done. }
      split.
      { intros id Hid. apply Hmono. subst w1'. cbn [evb ev_rd evb_add_read].
        by apply lookup_insert_is_Some', or_intror. }
      split.
      { intros p b. cbn [take]. intros [-> | Hin]%elem_of_cons Hb.
        - rewrite Hb0 in Hb. injection Hb as <-. apply Hmono.
          subst w1'. cbn [evb ev_rd evb_add_read]. rewrite lookup_insert_eq. by eexists.
        - specialize (Hch p). rewrite Hb in Hch.
          destruct (heap w1' !! p) as [b1 | ] eqn:Hb1; [ | done].
          cbn in Hch. injection Hch as Hch. rewrite <- Hch. by eapply Hreg. }
      by rewrite Hwr, Hct, Hen.
Qed.

Lemma popped_adopt_events (w : world Env) ps :
  Forall (fun p => is_Some (heap w !! p)) ps ->
  popped (flat_map (adopt_events hdl w) ps) = ps.
Proof.
  induction 1 as [| p ps [b Hb] _ IH]; [done | ].
  cbn [flat_map]. unfold popped in *. rewrite omap_app, IH.
  unfold adopt_events. by rewrite Hb.
Qed.

Lemma popped_app t1 t2 : popped (t1 ++ t2) = popped t1 ++ popped t2.
Proof. apply omap_app. Qed.

(** C5: when [k] signal bytes are drained and the inbound queue starts with
    [k] connections [pre], Inbound Handoff pops exactly these, in queue
    order, leaves the rest of the queue, and every one of them ends with the
    worker context as owner, the worker's handler table as handler and read
    interest registered under its read id. *)
Theorem handoff_adopts_signalled k w e1 pre rest :
  queue_valid w ->
  io_pipe_recv RING_ARRAY_DEFAULT_CAP (env w) = (Z.of_nat k, e1) ->
  ra_elems (conn_new w) = pre ++ rest ->
  length pre = k ->
  exists w' delta,
    worker_add_stream ctx hdl w = Some (tt, w') /\
    trace w' = trace w ++ delta /\
    delta = EvPipeRecv (Z.of_nat k) :: flat_map (adopt_events hdl w) pre /\
    popped delta = pre /\
    ra_elems (conn_new w') = rest /\
    forall p, p ∈ pre ->
      exists b b', heap w !! p = Some b /\ heap w' !! p = Some b' /\
        bs_owner b' = Some ctx /\ bs_hdl b' = Some hdl /\ bs_ch b' = bs_ch b /\
        is_Some (ev_rd (evb w') !! rid hdl (bs_ch b')).
Proof.
  intros Hq Hrecv Hel Hlen. unfold worker_add_stream. run. rewrite Hrecv. run.
  replace (Z.of_nat k <? 0) with false by lia. rewrite Nat2Z.id.
  match goal with |- context [add_stream_loop ctx hdl k ?w1] => set (w1' := w1) end.
  destruct (add_stream_loop_spec k w1') as
    (w' & Hrun & Hcn & Htr & Hhp & _ & Hreg & _); [exact Hq | ].
  change (ra_elems (conn_new w1')) with (ra_elems (conn_new w)) in *.
  rewrite Hel in *. rewrite take_app_length' in * by done.
  exists w'. eexists. split; [exact Hrun | ].
  assert (Hvalid : Forall (fun p => is_Some (heap w !! p)) pre).
  { unfold queue_valid in Hq. rewrite Hel in Hq. by apply Forall_app in Hq as [? _]. }
  split; [ | split; [reflexivity | ] ].
  { rewrite Htr. subst w1'. cbn [trace]. unfold shortfall.
    rewrite decide_False by (rewrite length_app; lia).
    by rewrite app_nil_r, <- !app_assoc. }
  split.
  { change (popped (?e :: ?t)) with (popped t). by apply popped_adopt_events. }
  split.
  { rewrite Hcn. cbn [ra_elems]. by rewrite drop_app_length'. }
  intros p Hp. rewrite Forall_forall in Hvalid. destruct (Hvalid p Hp) as [b Hb].
  exists b, (adopt ctx hdl b). split; [done | ].
  split. { rewrite Hhp. rewrite decide_True by done. change (heap w1') with (heap w).
           by rewrite Hb. }
  repeat split. cbn [adopt bs_ch]. by eapply Hreg.
Qed.

(** C6: when [k] signal bytes are drained but the inbound queue holds fewer
    than [k] connections, Inbound Handoff pops and adopts the ones there are,
    in order, and on the first failing pop it logs a warning with the number
    of missing connections and stops; when reading the pipe fails, it logs a
    warning and returns with the queue, the records and the event base as
    they were. *)
Theorem handoff_short_queue_or_pipe_error w n e1 :
  queue_valid w ->
  io_pipe_recv RING_ARRAY_DEFAULT_CAP (env w) = (n, e1) ->
  (Z.of_nat (length (ra_elems (conn_new w))) < n ->
   exists w' delta,
     worker_add_stream ctx hdl w = Some (tt, w') /\
     trace w' = trace w ++ delta /\
     delta = EvPipeRecv n :: flat_map (adopt_events hdl w) (ra_elems (conn_new w))
             ++ [EvPop Q_conn_new None;
                 EvLogN LOG_WARN "event number does not match conn queue: missing conns"
                        (n - Z.of_nat (length (ra_elems (conn_new w))))] /\
     popped delta = ra_elems (conn_new w) /\
     ra_elems (conn_new w') = [] /\
     ra_cap (conn_new w') = ra_cap (conn_new w) /\
     forall p, p ∈ ra_elems (conn_new w) ->
       exists b b', heap w !! p = Some b /\ heap w' !! p = Some b' /\
         bs_owner b' = Some ctx /\ bs_hdl b' = Some hdl /\ bs_ch b' = bs_ch b /\
         is_Some (ev_rd (evb w') !! rid hdl (bs_ch b'))) /\
  (n < 0 ->
   exists w',
     worker_add_stream ctx hdl w = Some (tt, w') /\
     trace w' = trace w ++ [EvPipeRecv n;
                            EvLog LOG_WARN "not adding new connections due to pipe error"] /\
     conn_new w' = conn_new w /\ heap w' = heap w /\ evb w' = evb w /\
     conn_term w' = conn_term w).
Proof.
  intros Hq Hrecv. split.
  - intros Hshort. unfold worker_add_stream. run. rewrite Hrecv. run.
    replace (n <? 0) with false by lia.
    match goal with |- context [add_stream_loop ctx hdl ?k ?w1] =>
      set (w1' := w1); set (k' := k) end.
    destruct (add_stream_loop_spec k' w1') as
      (w' & Hrun & Hcn & Htr & Hhp & _ & Hreg & _); [exact Hq | ].
    change (ra_elems (conn_new w1')) with (ra_elems (conn_new w)) in *.
    change (ra_cap (conn_new w1')) with (ra_cap (conn_new w)) in *.
    set (q := ra_elems (conn_new w)) in *.
    assert (Hk : (length q < k')%nat) by (subst k'; lia).
    rewrite take_ge in * by lia. rewrite drop_ge in Hcn by lia.
    exists w'. eexists. split; [exact Hrun | ].
    split; [ | split; [reflexivity | ] ].
    { rewrite Htr. subst w1'. cbn [trace]. unfold shortfall.
      rewrite decide_True by done. rewrite <- !app_assoc. cbn [app].
      do 6 f_equal. subst k'. lia. }
    split.
    { change (popped (?e :: ?t)) with (popped t). rewrite popped_app.
      rewrite popped_adopt_events by exact Hq. apply app_nil_r. }
    rewrite Hcn. repeat split.
    intros p Hp. unfold queue_valid in Hq. rewrite Forall_forall in Hq.
    destruct (Hq p Hp) as [b Hb].
    exists b, (adopt ctx hdl b). split; [done | ].
    split. { rewrite Hhp. rewrite decide_True by done. change (heap w1') with (heap w).
             by rewrite Hb. }
    repeat split. cbn [adopt bs_ch]. by eapply Hreg.
  - intros Hneg. unfold worker_add_stream. run. rewrite Hrecv. run.
    replace (n <? 0) with true by lia. run.
    eexists. split; [reflexivity | ]. cbn [trace conn_new heap evb conn_term].
    by rewrite <- !app_assoc.
Qed.

(** Inbound Handoff always returns on a well-formed queue, sends nothing on
    the outbound pipe and touches neither the write interests nor the
    outbound queue. *)
Lemma worker_add_stream_frame w :
  queue_valid w ->
  exists w' delta,
    worker_add_stream ctx hdl w = Some (tt, w') /\
    trace w' = trace w ++ delta /\
    count is_pipe_send delta = 0%nat /\
    ev_wr (evb w') = ev_wr (evb w) /\
    conn_term w' = conn_term w /\
    queue_valid w'.
Proof.
  intros Hq. unfold worker_add_stream. run.
  destruct (io_pipe_recv RING_ARRAY_DEFAULT_CAP (env w)) as [n e1]. run.
  destruct (n <? 0).
  - run. eexists _, _. split; [reflexivity | ]. cbn [trace evb conn_term].
    split; [by rewrite <- !app_assoc | ]. done.
  - match goal with |- context [add_stream_loop ctx hdl ?k ?w1] =>
      set (w1' := w1); set (k' := k) end.
    destruct (add_stream_loop_spec k' w1') as
      (w' & Hrun & Hcn & Htr & Hhp & _ & _ & Hwr & Hct & _); [exact Hq | ].
    exists w'. eexists. split; [exact Hrun | ].
    split; [rewrite Htr; subst w1'; cbn [trace]; by rewrite <- !app_assoc | ].
    split.
    { cbn [app]. rewrite count_cons, count_app, adopt_events_no_send.
      unfold shortfall. by case_decide. }
    split; [by rewrite Hwr | ]. split; [by rewrite Hct | ].
    unfold queue_valid in *. rewrite Hcn. cbn [ra_elems].
    change (ra_elems (conn_new w1')) with (ra_elems (conn_new w)).
    apply Forall_forall. intros p Hp. rewrite Hhp.
    rewrite Forall_forall in Hq. change (heap w1') with (heap w).
    assert (Hin : p ∈ ra_elems (conn_new w)).
    { rewrite <- (take_drop k' (ra_elems (conn_new w))). apply elem_of_app. by right. }
    destruct (Hq p Hin) as [b Hb]. rewrite Hb. by case_decide.
Qed.

(** Outbound Handoff Signal always returns; it sends once, leaves records and
    queues alone and never removes an interest. *)
Lemma pipe_write_frame w :
  exists w' delta,
    _worker_pipe_write pipe_term_wid w = Some (tt, w') /\
    trace w' = trace w ++ delta /\
    count is_pipe_send delta = 1%nat /\
    count is_ret_mark delta = 0%nat /\
    count is_tcp_write delta = 0%nat /\
    heap w' = heap w /\ conn_new w' = conn_new w /\ conn_term w' = conn_term w /\
    ev_rd (evb w') = ev_rd (evb w) /\
    (forall id, is_Some (ev_wr (evb w) !! id) -> is_Some (ev_wr (evb w') !! id)).
Proof.
  unfold _worker_pipe_write. run.
  destruct (io_pipe_send (env w)) as [n e1]. run.
  destruct ((n =? 0) || (n =? CC_EAGAIN)); [ | destruct (n =? CC_ERROR) ]; run;
    eexists _, _; (split; [reflexivity | ]);
    cbn [trace heap conn_new conn_term evb ev_rd ev_wr evb_add_write];
    (split; [by rewrite <- ?app_assoc | ]); repeat split; try done.
  intros id Hid. by apply lookup_insert_is_Some', or_intror.
Qed.

Lemma queue_valid_ext (w w' : world Env) :
  heap w' = heap w -> conn_new w' = conn_new w -> queue_valid w -> queue_valid w'.
Proof. unfold queue_valid. by intros -> ->. Qed.

(** Dispatch of an event on the pipes (null user data). *)
Lemma pipe_dispatch_frame events w :
  queue_valid w ->
  exists w' delta,
    _worker_event ctx hdl processor pipe_term_wid None events w = Some (tt, w') /\
    trace w' = trace w ++ delta /\
    count is_pipe_send delta = (if has_event events EVENT_WRITE then 1 else 0)%nat /\
    (forall id, is_Some (ev_wr (evb w) !! id) -> is_Some (ev_wr (evb w') !! id)) /\
    conn_term w' = conn_term w /\
    queue_valid w'.
Proof.
  intros Hq. unfold _worker_event. run.
  destruct (has_event events EVENT_READ), (has_event events EVENT_WRITE),
           (has_event events EVENT_ERR); run.
  all: repeat match goal with
    | |- context [worker_add_stream ctx hdl ?w1] =>
        let Hrun := fresh "Hrun" in let Hq' := fresh "Hq'" in
        destruct (worker_add_stream_frame w1) as (? & ? & Hrun & ? & ? & ? & ? & Hq');
        [exact Hq | rewrite Hrun; clear Hrun; run]
    | |- context [_worker_pipe_write pipe_term_wid ?w1] =>
        let Hrun := fresh "Hrun" in
        let Hh := fresh "Hheap" in let Hn := fresh "Hnew" in
        destruct (pipe_write_frame w1) as
          (? & ? & Hrun & ? & ? & ? & ? & Hh & Hn & ? & ? & ?);
        rewrite Hrun; clear Hrun; run
    end.
  all: eexists _, _; (split; [reflexivity | ]); cbn [trace evb conn_term] in *.
  all: split;
    [ repeat match goal with H : trace _ = _ |- _ => rewrite H; clear H end;
      cbn [trace]; rewrite <- ?app_assoc; reflexivity | ].
  all: split; [ count_events | ].
  all: split;
    [ intros id Hid; cbn [ev_wr] in *;
      repeat match goal with
        | H : forall id, is_Some _ -> is_Some _ |- _ => apply H; clear H
        | H : ev_wr _ = ev_wr _ |- _ => rewrite H; clear H
        end; cbn [evb ev_wr]; exact Hid | ].
  all: split; [ congruence | ].
  all: try exact Hq.
  all: repeat match goal with
    | Hh : heap ?w2 = _, Hn : conn_new ?w2 = _ |- _ =>
        eapply (queue_valid_ext _ w2); [reflexivity | reflexivity | ];
        eapply queue_valid_ext; [exact Hh | exact Hn | ]; clear Hh Hn
    end.
  all: first [ exact Hq | assumption ].
Qed.

(** C8: an Outbound Handoff Signal whose one-byte write gives [0] or would
    block registers write interest, with null user data, under the write id
    of the outbound pipe, and any later dispatch of a WRITABLE event with
    null user data makes exactly one more attempt to send; a hard failure is
    only logged; any other result ends the signal with nothing more done.
    In every case the outbound queue keeps its entries. *)
Theorem pipe_signal_outcomes w n e1 :
  io_pipe_send (env w) = (n, e1) ->
  exists w',
    _worker_pipe_write pipe_term_wid w = Some (tt, w') /\
    conn_term w' = conn_term w /\ heap w' = heap w /\
    (n = 0 \/ n = CC_EAGAIN ->
       trace w' = trace w ++ [EvPipeSend n;
                              EvLog LOG_VERB "server core: retry send on pipe";
                              EvAddWrite pipe_term_wid None] /\
       ev_wr (evb w') !! pipe_term_wid = Some None /\
       forall events w2, has_event events EVENT_WRITE = true -> queue_valid w2 ->
         exists w3 delta,
           _worker_event ctx hdl processor pipe_term_wid None events w2 = Some (tt, w3) /\
           trace w3 = trace w2 ++ delta /\ count is_pipe_send delta = 1%nat) /\
    (n = CC_ERROR ->
       trace w' = trace w ++ [EvPipeSend n; EvLog LOG_ERROR "could not write to pipe"] /\
       evb w' = evb w) /\
    (n <> 0 -> n <> CC_EAGAIN -> n <> CC_ERROR ->
       trace w' = trace w ++ [EvPipeSend n] /\ evb w' = evb w).
Proof.
  intros Hsend. unfold _worker_pipe_write. run. rewrite Hsend. run.
  destruct ((n =? 0) || (n =? CC_EAGAIN)) eqn:Hretry;
    [ | destruct (n =? CC_ERROR) eqn:Herr ]; run;
    eexists; (split; [reflexivity | ]);
    cbn [trace heap conn_term evb ev_wr evb_add_write];
    (split; [done | ]); (split; [done | ]); unfold CC_EAGAIN, CC_ERROR in *.
  - split; [ | split; intros; lia ].
    intros _. split; [by rewrite <- !app_assoc | ].
    split; [apply lookup_insert_eq | ].
    intros events w2 Hev Hq.
    destruct (pipe_dispatch_frame events w2 Hq) as (w3 & delta & Hrun & Htr & Hc & _).
    rewrite Hev in Hc. by exists w3, delta.
  - split; [intros; lia | ]. split; [ | intros; lia ].
    intros _. by rewrite <- !app_assoc.
  - split; [intros; lia | ]. split; [intros; lia | ]. done.
Qed.

(** Return Connection always returns on a connection record.  It is marked
    once in the trace, writes nothing to the transport, leaves the channel
    state as it found it, removes no write interest other than the one under
    the read id of the connection, and leaves no read interest for it. *)
Lemma ret_stream_frame s w b :
  heap w !! s = Some b ->
  exists w' delta,
    worker_ret_stream hdl processor pipe_term_wid s w = Some (tt, w') /\
    trace w' = trace w ++ ret_mark :: delta /\
    count is_ret_mark delta = 0%nat /\
    count is_tcp_write delta = 0%nat /\
    (forall b', heap w' !! s = Some b' -> c_state (bs_ch b') = c_state (bs_ch b)) /\
    (forall id, id <> rid hdl (bs_ch b) ->
                is_Some (ev_wr (evb w) !! id) -> is_Some (ev_wr (evb w') !! id)) /\
    ev_rd (evb w') !! rid hdl (bs_ch b) = None.
Proof.
  intros Hs. unfold worker_ret_stream. run. rewrite Hs. run.
  destruct (proc_error processor (bs_rbuf b) (bs_wbuf b) (bs_data b) (env w))
    as [[r bufs] e1]. run.
  destruct (ring_array_push s (conn_term w)) as [q | ]; run.
  - match goal with |- context [_worker_pipe_write pipe_term_wid ?w1] =>
      destruct (pipe_write_frame w1) as
        (w' & d & Hrun & Htr & _ & Hm & Ht & Hhp & _ & _ & Hrd & Hwr)
    end.
    rewrite Hrun. exists w'. eexists. cbn [trace heap evb] in *.
    split; [done | ].
    split; [rewrite Htr, <- !app_assoc; reflexivity | ].
    split; [count_events | ]. split; [count_events | ].
    split. { intros b'. rewrite Hhp, lookup_insert_eq. by intros [= <-]. }
    split.
    + intros id Hne Hid. apply Hwr. cbn [ev_wr evb_del]. by rewrite lookup_delete_ne.
    + rewrite Hrd. apply lookup_delete_eq.
  - destruct (term hdl (bs_ch b) e1) as [c e2]. run.
    eexists _, _. split; [reflexivity | ]. cbn [trace heap evb ev_rd ev_wr evb_del].
    split; [rewrite <- !app_assoc; reflexivity | ].
    split; [done | ]. split; [done | ].
    split. { intros b'. by rewrite lookup_delete_eq. }
    split.
    + intros id Hne Hid. by rewrite lookup_delete_ne.
    + apply lookup_delete_eq.
Qed.

(** C7: Return Connection first runs the error hook of the processor, then
    unregisters the read id of the connection, then pushes the connection on
    the outbound queue.  If the queue has room the connection is appended and
    the Outbound Handoff Signal runs from there; if it is full, the transport
    is closed, the record is reset and given back, and nothing is sent on the
    pipe.  Either way no read interest is left for the connection. *)
Theorem return_connection_order s w b r bufs e1 :
  heap w !! s = Some b ->
  proc_error processor (bs_rbuf b) (bs_wbuf b) (bs_data b) (env w) = (r, bufs, e1) ->
  let head := [EvLog LOG_INFO "worker core marking buf_sock for return";
               EvProcError s r; EvDel (rid hdl (bs_ch b))] in
  ((length (ra_elems (conn_term w)) < ra_cap (conn_term w))%nat ->
   exists w1 w',
     worker_ret_stream hdl processor pipe_term_wid s w = Some (tt, w') /\
     trace w1 = trace w ++ head ++ [EvPush Q_conn_term s true] /\
     ra_elems (conn_term w1) = ra_elems (conn_term w) ++ [s] /\
     _worker_pipe_write pipe_term_wid w1 = Some (tt, w') /\
     ev_rd (evb w') !! rid hdl (bs_ch b) = None) /\
  ((ra_cap (conn_term w) <= length (ra_elems (conn_term w)))%nat ->
   exists w',
     worker_ret_stream hdl processor pipe_term_wid s w = Some (tt, w') /\
     trace w' = trace w ++ head ++
                [EvPush Q_conn_term s false;
                 EvLog LOG_ERROR "term connetion queue is full";
                 EvTerm s; EvSockReset s; EvSockReturn s] /\
     conn_term w' = conn_term w /\
     heap w' !! s = None /\
     ev_rd (evb w') !! rid hdl (bs_ch b) = None).
Proof.
  intros Hs Herr head. subst head. split; intros Hcap.
  - unfold worker_ret_stream. run. rewrite Hs. run. rewrite Herr. run.
    unfold ring_array_push. rewrite decide_True by done. run.
    match goal with |- context [_worker_pipe_write pipe_term_wid ?w1] =>
      set (w1' := w1);
      destruct (pipe_write_frame w1') as
        (w' & d & Hrun & _ & _ & _ & _ & _ & _ & _ & Hrd & _)
    end.
    exists w1', w'. split; [by rewrite Hrun | ].
    split; [subst w1'; cbn [trace]; by rewrite <- !app_assoc | ].
    split; [done | ]. split; [done | ].
    rewrite Hrd. apply lookup_delete_eq.
  - unfold worker_ret_stream. run. rewrite Hs. run. rewrite Herr. run.
    unfold ring_array_push. rewrite decide_False by lia. run.
    destruct (term hdl (bs_ch b) e1) as [c e2]. run.
    eexists. split; [reflexivity | ]. cbn [trace heap evb ev_rd evb_del conn_term].
    split; [by rewrite <- !app_assoc | ]. split; [done | ].
    split; apply lookup_delete_eq.
Qed.
End Handoff.


Section Dispatch.
Context {Env : Type} `{!Platform Env}.
Variable ctx : nat.
Variable hdl : channel_handler_st Env.
Variable processor : data_processor Env.
Variable pipe_term_wid : Z.

Lemma conn_frame_trans s (w1 w2 w3 : world Env) :
  conn_frame hdl s w1 w2 -> conn_frame hdl s w2 w3 -> conn_frame hdl s w1 w3.
Proof.
  intros [(b1 & b2 & H1 & H2 & Hsd12 & Hwr12 & Hone12) (d12 & Ht12 & Hc12)]
         [(b2' & b3 & H2' & H3 & Hsd23 & Hwr23 & Hone23) (d23 & Ht23 & Hc23)].
  rewrite H2 in H2'. injection H2' as <-. split.
  - exists b1, b3. split; [done | ]. split; [done | ]. split; [congruence | ]. split.
    + intros Hid id Hne His. apply Hwr23; [done | congruence | ]. by apply Hwr12.
    + intros Hid Hone. rewrite <- Hsd12. apply Hone23; [done | ].
      rewrite Hsd12. by apply Hone12.
  - exists (d12 ++ d23). split; [by rewrite Ht23, Ht12, app_assoc | ].
    rewrite count_app. lia.
Qed.

(** A frame between a world and an explicit later state of it. *)
Ltac frame_explicit Hs :=
  split;
  [ eexists _, _; split; [exact Hs | ];
    split; [cbn [heap]; first [apply lookup_insert_eq | exact Hs] | ];
    split; [reflexivity | ];
    let Hid := fresh "Hid" in let id := fresh "id" in
    let Hne := fresh "Hne" in let His := fresh "His" in
    split;
    [ intros Hid id Hne His;
      cbn [evb ev_wr evb_add_write evb_del evb_add_read];
      rewrite ?(proj1 (Hid _)), ?(proj2 (Hid _)); cbn [c_sd];
      rewrite ?lookup_insert_ne, ?lookup_delete_ne by congruence;
      exact His
    | intros Hid His; unfold one_interest;
      cbn [evb ev_rd ev_wr evb_add_write evb_del evb_add_read];
      rewrite ?(proj1 (Hid _)), ?(proj2 (Hid _)); cbn [c_sd];
      first
        [ exact His
        | right; split; [apply lookup_delete_eq | by rewrite lookup_insert_eq]
        | left; split; [by rewrite lookup_insert_eq | apply lookup_delete_eq] ] ]
  | first
      [ exists []; split; [cbn [trace]; by rewrite app_nil_r | done]
      | eexists; split; [cbn [trace]; rewrite <- ?app_assoc; reflexivity | done] ] ].

(** Connection Write keeps the frame of its connection. *)
Lemma write_frame s w b :
  heap w !! s = Some b ->
  exists status w',
    _worker_event_write hdl processor s w = Some (status, w') /\
    conn_frame hdl s w w'.
Proof.
  intros Hs. unfold _worker_event_write. run. rewrite Hs. run.
  destruct (io_tcp_write b (env w)) as [[[tst wb] cs] e1]. run.
  destruct ((tst =? CC_ERETRY) || (tst =? CC_EAGAIN));
    [ | destruct (tst =? CC_ERROR) ]; run.
  all: match goal with |- context [proc_write processor ?a ?b ?c ?d] =>
         destruct (proc_write processor a b c d) as [[r bufs] e2] end; run.
  all: destruct (r <? 0); run.
  all: eexists _, _; (split; [reflexivity | ]).
  all: frame_explicit Hs.
Qed.

(** Connection Read keeps the frame of its connection. *)
Lemma read_frame s w b :
  heap w !! s = Some b ->
  exists w',
    _worker_event_read hdl processor s w = Some (tt, w') /\
    conn_frame hdl s w w'.
Proof.
  intros Hs. unfold _worker_event_read. run. rewrite Hs. run.
  destruct (io_tcp_read b (env w)) as [[[rst rb] cs] e1]. run.
  match goal with |- context [proc_read processor ?a ?b ?c ?d] =>
    destruct (proc_read processor a b c d) as [[r bufs] e2] end; run.
  destruct (r <? 0); run.
  { eexists; (split; [reflexivity | ]). frame_explicit Hs. }
  destruct (buf_rsize bufs.1.2 >? 0); run.
  2: { eexists; (split; [reflexivity | ]). frame_explicit Hs. }
  match goal with |- context [_worker_event_write hdl processor s ?w1] =>
    set (w1' := w1) end.
  assert (Hf1 : conn_frame hdl s w w1') by (subst w1'; frame_explicit Hs).
  destruct Hf1 as [(b0 & b1 & Hb0 & Hb1 & Hrest) Htr1].
  destruct (write_frame s w1' b1 Hb1) as (st & w' & Hrun & Hf2).
  rewrite Hrun. exists w'. split; [done | ].
  eapply conn_frame_trans; [ | exact Hf2 ]. split; [ | exact Htr1 ].
  by exists b0, b1.
Qed.

Lemma conn_frame_refl s (w : world Env) b :
  heap w !! s = Some b -> conn_frame hdl s w w.
Proof.
  intros Hs. split; [by exists b, b | ].
  exists []. by rewrite app_nil_r.
Qed.

Lemma framed_ret s : framed hdl s (ret tt).
Proof. intros w b Hs. exists w. split; [done | by eapply conn_frame_refl]. Qed.

Lemma framed_bind s (m k : M Env unit) :
  framed hdl s m -> framed hdl s k -> framed hdl s (m ;; k).
Proof.
  intros Hm Hk w b Hs. destruct (Hm w b Hs) as (w1 & Hrun1 & Hf1).
  destruct Hf1 as [(b0 & b1 & Hb0 & Hb1 & Hrest) Htr1].
  destruct (Hk w1 b1 Hb1) as (w2 & Hrun2 & Hf2).
  exists w2. unfold bind. rewrite Hrun1. split; [done | ].
  eapply conn_frame_trans; [ | exact Hf2 ]. split; [ | exact Htr1 ].
  by exists b0, b1.
Qed.

Lemma framed_when s (c : bool) (m : M Env unit) :
  framed hdl s m -> framed hdl s (when c m).
Proof. destruct c; [done | intros _; apply framed_ret]. Qed.

Lemma framed_log s lvl msg : is_ret_mark (EvLog lvl msg) = false -> framed hdl s (log lvl msg).
Proof.
  intros Hm w b Hs. eexists. split; [reflexivity | ].
  split; [by exists b, b | ].
  eexists. split; [reflexivity | ]. rewrite count_cons, Hm. done.
Qed.

Lemma framed_INCR s m : framed hdl s (INCR m).
Proof.
  intros w b Hs. eexists. split; [reflexivity | ].
  split; [by exists b, b | ].
  exists []. by rewrite app_nil_r.
Qed.

Lemma framed_read s : framed hdl s (_worker_event_read hdl processor s).
Proof. intros w b Hs. by eapply read_frame. Qed.

(** The WRITABLE class of a connection: Connection Write, then back to read
    interest when the write went through. *)
Lemma framed_write_rearm s :
  framed hdl s
    (status <- _worker_event_write hdl processor s ;;
     when (status =? CC_OK)
       (c <- get_ch s ;;
        event_del (wid hdl c) ;;
        c <- get_ch s ;;
        event_add_read (rid hdl c) (Some s))).
Proof.
  intros w b Hs. destruct (write_frame s w b Hs) as (st & w1 & Hrun & Hf1).
  unfold bind at 1. rewrite Hrun.
  destruct Hf1 as [(b0 & b1 & Hb0 & Hb1 & Hrest) Htr1].
  assert (exists w2, when (st =? CC_OK)
       (c <- get_ch s ;; event_del (wid hdl c) ;;
        c <- get_ch s ;; event_add_read (rid hdl c) (Some s)) w1 = Some (tt, w2)
       /\ conn_frame hdl s w1 w2) as (w2 & Hrun2 & Hf2).
  { destruct (st =? CC_OK); run.
    - rewrite Hb1. run. rewrite Hb1. run.
      eexists. split; [reflexivity | ]. frame_explicit Hb1.
    - exists w1. split; [done | by eapply conn_frame_refl]. }
  exists w2. split; [exact Hrun2 | ].
  eapply conn_frame_trans; [ | exact Hf2 ]. split; [ | exact Htr1 ].
  by exists b0, b1.
Qed.

(** The handling of the event classes of a connection returns, keeps the frame
    of the connection, and leaves it in state TERM when the mask has ERROR. *)
Lemma bits_frame s events w b :
  heap w !! s = Some b ->
  exists w1,
    conn_event_bits hdl processor s events w = Some (tt, w1) /\
    conn_frame hdl s w w1 /\
    (has_event events EVENT_ERR = true -> conn_state w1 s = Some CHANNEL_TERM).
Proof.
  intros Hs. unfold conn_event_bits.
  set (R := when (has_event events EVENT_READ) _).
  set (Wr := when (has_event events EVENT_WRITE) _).
  assert (HR : framed hdl s R).
  { apply framed_when, framed_bind; [by apply framed_log | ].
    apply framed_bind; [apply framed_INCR | apply framed_read]. }
  assert (HW : framed hdl s Wr).
  { apply framed_when, framed_bind; [by apply framed_log | ].
    apply framed_bind; [apply framed_INCR | apply framed_write_rearm]. }
  destruct (framed_bind s R Wr HR HW w b Hs) as (w2 & Hrun2 & Hf2).
  unfold bind in Hrun2. unfold bind at 1.
  destruct (R w) as [[[] w1] | ]; [ | done].
  unfold bind at 1. rewrite Hrun2.
  pose proof Hf2 as [(b0 & b2 & Hb0 & Hb2 & Hrest) Htr2].
  destruct (has_event events EVENT_ERR); run.
  - rewrite Hb2. run. eexists. split; [reflexivity | ]. split.
    + eapply conn_frame_trans; [exact Hf2 | ]. frame_explicit Hb2.
    + intros _. unfold conn_state. cbn [heap]. by rewrite lookup_insert_eq.
  - exists w2. split; [done | ]. split; [exact Hf2 | intros; discriminate].
Qed.

(** Dispatch on a connection is the handling of the event classes followed by
    the check of the channel state. *)
Lemma worker_event_conn_split s events (w : world Env) :
  _worker_event ctx hdl processor pipe_term_wid (Some s) events w =
  (conn_event_bits hdl processor s events ;;
   conn_event_check hdl processor pipe_term_wid s)
    (emit (EvLog LOG_VERB "worker event") w).
Proof.
  unfold _worker_event, conn_event_bits, conn_event_check.
  unfold bind at 1, log at 1.
  set (w0 := emit _ w). set (R := when (has_event events EVENT_READ) _).
  set (Wr := when (has_event events EVENT_WRITE) _).
  set (Er := when (has_event events EVENT_ERR) _).
  unfold bind at 1 2 3 5 6 7.
  destruct (R w0) as [[[] w1] | ]; [ | done].
  destruct (Wr w1) as [[[] w2] | ]; [ | done].
  by destruct (Er w2) as [[[] w3] | ].
Qed.

(** The check of the channel state runs Return Connection, once, exactly when
    the state is TERM or ERROR. *)
Lemma check_spec s (w1 : world Env) b1 :
  heap w1 !! s = Some b1 ->
  conn_event_check hdl processor pipe_term_wid s w1 =
  if is_term_or_error (bs_ch b1)
  then worker_ret_stream hdl processor pipe_term_wid s w1
  else Some (tt, w1).
Proof.
  intros Hs. unfold conn_event_check. run. rewrite Hs. run.
  by destruct (is_term_or_error (bs_ch b1)).
Qed.

Lemma is_term_or_error_TERM c :
  c_state c = CHANNEL_TERM -> is_term_or_error c = true.
Proof. intros H. unfold is_term_or_error. by rewrite H. Qed.

(** C1, as the code has it: when the read hook of the processor returns a
    negative status, Connection Read puts the connection in state TERM and
    itself attempts no write to the transport, whatever the write buffer
    holds; and a dispatch whose mask has READABLE but not WRITABLE attempts no
    write to the transport at all and runs Return Connection once.  (With
    WRITABLE in the mask, Connection Write still runs for that class.) *)
Theorem read_failure_terminates_without_write s w b rst rb cs e1 r bufs e2 :
  heap w !! s = Some b ->
  io_tcp_read b (env w) = (rst, rb, cs, e1) ->
  proc_read processor rb (bs_wbuf b) (bs_data b) e1 = (r, bufs, e2) ->
  r < 0 ->
  (exists w1,
     _worker_event_read hdl processor s w = Some (tt, w1) /\
     trace w1 = trace w ++ [EvLog LOG_VERB "reading on buf_sock"; EvTcpRead s rst;
                            EvProcRead s r;
                            EvLog LOG_DEBUG "handler signals channel termination"] /\
     conn_state w1 s = Some CHANNEL_TERM) /\
  (forall events,
     has_event events EVENT_READ = true ->
     has_event events EVENT_WRITE = false ->
     exists w' delta,
       _worker_event ctx hdl processor pipe_term_wid (Some s) events w = Some (tt, w') /\
       trace w' = trace w ++ delta /\
       count is_tcp_write delta = 0%nat /\
       count is_ret_mark delta = 1%nat /\
       (forall b', heap w' !! s = Some b' -> c_state (bs_ch b') = CHANNEL_TERM)).
Proof.
  intros Hs Hrd Hp Hr. split.
  - destruct (read_hook_failure hdl processor s w b _ _ _ _ _ _ _ Hs Hrd Hp Hr)
      as (w1 & Hrun & Htr & Hheap & _).
    exists w1. split; [done | ]. split; [done | ].
    unfold conn_state. by rewrite Hheap, lookup_insert_eq.
  - intros events HR HW. rewrite worker_event_conn_split.
    unfold conn_event_bits. rewrite HR, HW. run.
    match goal with |- context [_worker_event_read hdl processor s ?w0] =>
      destruct (read_hook_failure hdl processor s w0 b _ _ _ _ _ _ _ Hs Hrd Hp Hr)
        as (w1 & Hrun & Htr & Hheap & _)
    end.
    rewrite Hrun. cbn [trace] in Htr. run.
    destruct (has_event events EVENT_ERR); run; rewrite ?Hheap, ?lookup_insert_eq; run;
      match goal with
      | |- context [conn_event_check hdl processor pipe_term_wid s ?w2] =>
          assert (exists b2, heap w2 !! s = Some b2 /\ c_state (bs_ch b2) = CHANNEL_TERM)
            as (b2 & Hb2 & Hst2)
            by (eexists; split;
                [cbn [heap]; rewrite ?Hheap; apply lookup_insert_eq | reflexivity]);
          rewrite (check_spec s w2 b2 Hb2), (is_term_or_error_TERM _ Hst2);
          destruct (ret_stream_frame hdl processor pipe_term_wid s w2 b2 Hb2)
            as (w' & d & Hret & Htr' & Hcm & Hcw & Hkeep & _)
      end;
      exists w'; eexists; (split; [done | ]); cbn [trace] in Htr';
      (split; [rewrite Htr', Htr, <- !app_assoc; reflexivity | ]);
      (split; [count_events | ]); (split; [count_events | ]);
      intros b' Hb'; by rewrite (Hkeep b' Hb').
Qed.

(** C9: in a dispatch on a connection, the handling of the READABLE, WRITABLE
    and ERROR classes comes first and starts no Return Connection; the channel
    state is then looked at once, and Return Connection runs, once, exactly
    when that state is TERM or ERROR.  A mask with the ERROR class always
    leaves the state that way, so a connection that got data and an error in
    one mask is returned by that same dispatch. *)
Theorem state_checked_once_after_bits s events w b :
  heap w !! s = Some b ->
  exists w1 b1 w' d1 d2,
    conn_event_bits hdl processor s events (emit (EvLog LOG_VERB "worker event") w)
      = Some (tt, w1) /\
    trace w1 = trace w ++ EvLog LOG_VERB "worker event" :: d1 /\
    count is_ret_mark d1 = 0%nat /\
    heap w1 !! s = Some b1 /\
    _worker_event ctx hdl processor pipe_term_wid (Some s) events w = Some (tt, w') /\
    trace w' = trace w1 ++ d2 /\
    (if is_term_or_error (bs_ch b1)
     then worker_ret_stream hdl processor pipe_term_wid s w1 = Some (tt, w') /\
          count is_ret_mark d2 = 1%nat
     else w' = w1 /\ d2 = []) /\
    (has_event events EVENT_ERR = true -> is_term_or_error (bs_ch b1) = true).
Proof.
  intros Hs. rewrite worker_event_conn_split.
  set (w0 := emit _ w).
  destruct (bits_frame s events w0 b Hs) as (w1 & Hrun & Hf & Herr).
  destruct Hf as [(b0 & b1 & Hb0 & Hb1 & _) (d1 & Htr1 & Hc1)].
  unfold bind. rewrite Hrun. rewrite (check_spec s w1 b1 Hb1).
  assert (Hterm : has_event events EVENT_ERR = true -> is_term_or_error (bs_ch b1) = true).
  { intros He. specialize (Herr He). unfold conn_state in Herr. rewrite Hb1 in Herr.
    injection Herr as Herr. unfold is_term_or_error. by rewrite Herr. }
  destruct (is_term_or_error (bs_ch b1)) eqn:Hst.
  - destruct (ret_stream_frame hdl processor pipe_term_wid s w1 b1 Hb1)
      as (w' & d2 & Hret & Htr2 & Hc2 & _).
    exists w1, b1, w', d1, (ret_mark :: d2). rewrite Hst.
    split; [done | ]. split; [rewrite Htr1; subst w0; exec; by rewrite <- app_assoc | ].
    repeat split; try done. by rewrite count_cons, Hc2.
  - exists w1, b1, w1, d1, []. rewrite Hst.
    split; [done | ]. split; [rewrite Htr1; subst w0; exec; by rewrite <- app_assoc | ].
    repeat split; try done. by rewrite app_nil_r.
Qed.

(** C3, as the code has it: a dispatch on a connection whose mask has the
    ERROR class leaves the channel in state TERM when the event classes have
    been handled, and therefore runs Return Connection; the connection record,
    if the worker still holds it afterwards, is in state TERM. *)
Theorem error_event_forces_term s events w b :
  heap w !! s = Some b ->
  has_event events EVENT_ERR = true ->
  exists w1 w',
    conn_event_bits hdl processor s events (emit (EvLog LOG_VERB "worker event") w)
      = Some (tt, w1) /\
    conn_state w1 s = Some CHANNEL_TERM /\
    _worker_event ctx hdl processor pipe_term_wid (Some s) events w = Some (tt, w') /\
    worker_ret_stream hdl processor pipe_term_wid s w1 = Some (tt, w') /\
    (forall b', heap w' !! s = Some b' -> c_state (bs_ch b') = CHANNEL_TERM).
Proof.
  intros Hs He. rewrite worker_event_conn_split.
  set (w0 := emit _ w).
  destruct (bits_frame s events w0 b Hs) as (w1 & Hrun & Hf & Herr).
  destruct Hf as [(b0 & b1 & Hb0 & Hb1 & _) _].
  specialize (Herr He). unfold bind. rewrite Hrun, (check_spec s w1 b1 Hb1).
  pose proof Herr as Hst. unfold conn_state in Hst. rewrite Hb1 in Hst.
  injection Hst as Hst. unfold is_term_or_error. rewrite Hst. cbn [orb bool_decide].
  rewrite bool_decide_eq_true_2 by done. cbn [orb].
  destruct (ret_stream_frame hdl processor pipe_term_wid s w1 b1 Hb1)
    as (w' & d2 & Hret & _ & _ & _ & Hkeep & _).
  exists w1, w'. repeat split; try done.
  intros b' Hb'. by rewrite (Hkeep b' Hb').
Qed.

Lemma is_term_or_error_not_open c :
  is_term_or_error c = true -> c_state c <> CHANNEL_OPEN.
Proof. unfold is_term_or_error. by destruct (c_state c). Qed.

(** C2: under the TCP handler table, a Connection Write that gets a retry
    status from the transport ends with the read interest of the connection
    removed and its write interest registered; and a connection that enters a
    dispatch with exactly one of the two interests registered and is still
    held, in state OPEN, when the dispatch ends has exactly one of them
    registered then, never both and never neither. *)
Theorem write_retry_flips_interest s w b tst wb cs e1 :
  tcp_ids hdl ->
  heap w !! s = Some b ->
  io_tcp_write b (env w) = (tst, wb, cs, e1) ->
  tst = CC_ERETRY \/ tst = CC_EAGAIN ->
  (exists status w' b',
     _worker_event_write hdl processor s w = Some (status, w') /\
     heap w' !! s = Some b' /\
     status <> CC_OK /\
     ev_rd (evb w') !! rid hdl (bs_ch b') = None /\
     ev_wr (evb w') !! wid hdl (bs_ch b') = Some (Some s)) /\
  (one_interest (evb w) (c_sd (bs_ch b)) ->
   forall events,
   exists w',
     _worker_event ctx hdl processor pipe_term_wid (Some s) events w = Some (tt, w') /\
     forall b', heap w' !! s = Some b' -> c_state (bs_ch b') = CHANNEL_OPEN ->
                one_interest (evb w') (c_sd (bs_ch b'))).
Proof.
  intros Hid Hs Hw Hretry. split.
  - by eapply write_retry_write_only.
  - intros Hone events. rewrite worker_event_conn_split.
    set (w0 := emit _ w).
    destruct (bits_frame s events w0 b Hs) as (w1 & Hrun & Hf & _).
    destruct Hf as [(b0 & b1 & Hb0 & Hb1 & Hsd & _ & Hone1) _].
    assert (b0 = b) as -> by (change (heap w0) with (heap w) in Hb0; congruence).
    specialize (Hone1 Hid Hone).
    unfold bind. rewrite Hrun, (check_spec s w1 b1 Hb1).
    destruct (is_term_or_error (bs_ch b1)) eqn:Hst.
    + destruct (ret_stream_frame hdl processor pipe_term_wid s w1 b1 Hb1)
        as (w' & d2 & Hret & _ & _ & _ & Hkeep & _).
      exists w'. split; [done | ]. intros b' Hb' Hopen.
      apply is_term_or_error_not_open in Hst. rewrite <- (Hkeep b' Hb') in Hst. done.
    + exists w1. split; [done | ]. intros b' Hb' _.
      rewrite Hb1 in Hb'. injection Hb' as <-. by rewrite Hsd.
Qed.

(** C10: no dispatch removes the write interest registered under the write id
    of the outbound pipe, and every dispatch of a WRITABLE event with null
    user data makes exactly one attempt to send a byte on that pipe, whatever
    the state of the world: the dispatch that follows it does so again, with
    the outbound queue still as it was. *)
Theorem signal_interest_never_dropped arg events w :
  dispatch_ready hdl pipe_term_wid arg w ->
  exists w' delta,
    _worker_event ctx hdl processor pipe_term_wid arg events w = Some (tt, w') /\
    trace w' = trace w ++ delta /\
    (is_Some (ev_wr (evb w) !! pipe_term_wid) ->
     is_Some (ev_wr (evb w') !! pipe_term_wid)) /\
    (arg = None -> has_event events EVENT_WRITE = true ->
     count is_pipe_send delta = 1%nat /\
     conn_term w' = conn_term w /\
     exists w2 delta2,
       _worker_event ctx hdl processor pipe_term_wid None events w' = Some (tt, w2) /\
       trace w2 = trace w' ++ delta2 /\
       count is_pipe_send delta2 = 1%nat /\
       conn_term w2 = conn_term w /\
       (is_Some (ev_wr (evb w) !! pipe_term_wid) ->
        is_Some (ev_wr (evb w2) !! pipe_term_wid))).
Proof.
  destruct arg as [s | ]; cbn [dispatch_ready].
  - intros (Hid & b & Hs & Hne). rewrite worker_event_conn_split.
    set (w0 := emit _ w).
    destruct (bits_frame s events w0 b Hs) as (w1 & Hrun & Hf & _).
    destruct Hf as [(b0 & b1 & Hb0 & Hb1 & Hsd & Hwr & _) (d1 & Htr1 & _)].
    assert (b0 = b) as -> by (change (heap w0) with (heap w) in Hb0; congruence).
    unfold bind. rewrite Hrun, (check_spec s w1 b1 Hb1).
    assert (Htr0 : trace w1 = trace w ++ EvLog LOG_VERB "worker event" :: d1).
    { rewrite Htr1. subst w0. exec. by rewrite <- app_assoc. }
    destruct (is_term_or_error (bs_ch b1)).
    + destruct (ret_stream_frame hdl processor pipe_term_wid s w1 b1 Hb1)
        as (w' & d2 & Hret & Htr2 & _ & _ & _ & Hwr2 & _).
      exists w'. eexists. split; [done | ].
      split; [rewrite Htr2, Htr0, <- app_assoc; reflexivity | ].
      split; [ | done ].
      intros His. apply Hwr2.
      * rewrite (proj1 (Hid _)). congruence.
      * apply Hwr; [done | congruence | exact His].
    + exists w1. eexists. split; [done | ]. split; [exact Htr0 | ].
      split; [ | done ].
      intros His. apply Hwr; [done | congruence | exact His].
  - intros Hq.
    destruct (pipe_dispatch_frame ctx hdl processor pipe_term_wid events w Hq)
      as (w' & d & Hrun & Htr & Hc & Hwr & Hct & Hq').
    destruct (pipe_dispatch_frame ctx hdl processor pipe_term_wid events w' Hq')
      as (w2 & d2 & Hrun2 & Htr2 & Hc2 & Hwr2 & Hct2 & _).
    exists w', d. split; [done | ]. split; [done | ]. split; [apply Hwr | ].
    intros _ Hev. rewrite Hev in Hc, Hc2. split; [done | ]. split; [done | ].
    exists w2, d2. split; [done | ]. split; [done | ]. split; [done | ].
    split; [congruence | ]. intros His. by apply Hwr2, Hwr.
Qed.
End Dispatch.

(** * The theorems on the scripted environment *)

Section Examples.
Import Script.
Local Open Scope Z_scope.

Lemma tcp_ids_tcp : tcp_ids tcp.
Proof. intros c. split; reflexivity. Defined.

(** The counterexample to C1 as stated: mask READABLE and WRITABLE, the read
    hook answers -1, and Connection Write still runs for the WRITABLE class,
    so the transport is written to in the same dispatch. *)
Lemma read_failure_then_write_counterexample :
  count is_tcp_write
    (final_trace (dispatch (Some 1%nat) (Z.lor EVENT_READ EVENT_WRITE)
                    (world0 [(1%nat, c1)] [] 4 [0; -1; 0; 0; 0; 1]))) = 1%nat /\
  final_trace (dispatch (Some 1%nat) (Z.lor EVENT_READ EVENT_WRITE)
                 (world0 [(1%nat, c1)] [] 4 [0; -1; 0; 0; 0; 1])) =
  [EvLog LOG_VERB "worker event";
   EvLog LOG_VERB "processing worker read event on buf_sock";
   EvLog LOG_VERB "reading on buf_sock";
   EvTcpRead 1 0;
   EvProcRead 1 (-1);
   EvLog LOG_DEBUG "handler signals channel termination";
   EvLog LOG_VERB "processing worker write event on buf_sock";
   EvLog LOG_VERB "writing on buf_sock";
   EvTcpWrite 1 0;
   EvProcWrite 1 0;
   EvDel 7;
   EvAddRead 7 (Some 1%nat);
   EvLog LOG_INFO "worker core marking buf_sock for return";
   EvProcError 1 0;
   EvDel 7;
   EvPush Q_conn_term 1 true;
   EvPipeSend 1].
Proof. split; vm_compute; reflexivity. Qed.

(** The counterexample to C3 as stated: mask ERROR alone on an open
    connection; the state the dispatch leaves is TERM, not ERROR. *)
Lemma error_event_state_counterexample :
  final_state (dispatch (Some 1%nat) EVENT_ERR (world0 [(1%nat, c1)] [] 4 [0; 1])) 1
    = Some CHANNEL_TERM /\
  final_state (dispatch (Some 1%nat) EVENT_ERR (world0 [(1%nat, c1)] [] 4 [0; 1])) 1
    <> Some CHANNEL_ERROR.
Proof. split; [vm_compute; reflexivity | vm_compute; discriminate]. Qed.

Lemma write_hook_follows_flush_witness :
  let w := world0 [(1%nat, c1)] [] 4 [-3; -1] in
  heap w !! 1%nat = Some c1 /\
  exists status w',
    _worker_event_write tcp echo 1 w = Some (status, w') /\ status = CC_ERROR.
Proof.
  intros w. split; [reflexivity | ].
  edestruct (write_hook_follows_flush tcp echo 1%nat w c1)
    as (status & w' & b' & regs & tail & Hrun & _ & _ & _ & Hneg & _);
    [reflexivity | reflexivity | reflexivity | ].
  exists status, w'. split; [exact Hrun | ]. exact (proj2 (Hneg eq_refl)).
Defined.

Lemma write_retry_flips_interest_witness :
  let w := mk_world [(7, Some 1%nat)] [] [(1%nat, c1)] [] 4 [-2; 0] in
  one_interest (evb w) 7 /\
  exists w', dispatch (Some 1%nat) EVENT_WRITE w = Some (tt, w') /\
    forall b', heap w' !! 1%nat = Some b' -> c_state (bs_ch b') = CHANNEL_OPEN ->
               one_interest (evb w') (c_sd (bs_ch b')).
Proof.
  intros w.
  assert (Hone : one_interest (evb w) 7).
  { left. split; [eexists; reflexivity | reflexivity]. }
  split; [exact Hone | ].
  edestruct (write_retry_flips_interest ctx tcp echo pipe_wid 1%nat w c1) as [_ Hdisp];
    [exact tcp_ids_tcp | reflexivity | reflexivity | right; reflexivity | ].
  exact (Hdisp Hone EVENT_WRITE).
Defined.

Lemma read_failure_terminates_without_write_witness :
  let w := world0 [(1%nat, c1)] [] 4 [0; -1; 0; 1] in
  exists w' delta,
    dispatch (Some 1%nat) EVENT_READ w = Some (tt, w') /\
    trace w' = trace w ++ delta /\
    count is_tcp_write delta = 0%nat.
Proof.
  intros w.
  edestruct (read_failure_terminates_without_write ctx tcp echo pipe_wid 1%nat w c1)
    as [_ Hdisp]; [reflexivity | reflexivity | reflexivity | reflexivity | ].
  destruct (Hdisp EVENT_READ eq_refl eq_refl) as (w' & delta & Hrun & Htr & Hc & _).
  exists w', delta. split; [exact Hrun | ]. split; [exact Htr | exact Hc].
Defined.

Lemma error_event_forces_term_witness :
  let w := world0 [(1%nat, c1)] [] 4 [0; 1] in
  has_event EVENT_ERR EVENT_ERR = true /\
  exists w', dispatch (Some 1%nat) EVENT_ERR w = Some (tt, w') /\
    forall b', heap w' !! 1%nat = Some b' -> c_state (bs_ch b') = CHANNEL_TERM.
Proof.
  intros w. split; [reflexivity | ].
  edestruct (error_event_forces_term ctx tcp echo pipe_wid 1%nat EVENT_ERR w c1)
    as (w1 & w' & _ & _ & Hrun & _ & Hst); [reflexivity | reflexivity | ].
  exists w'. split; [exact Hrun | exact Hst].
Defined.

Lemma state_checked_once_after_bits_witness :
  let w := world0 [(1%nat, c1)] [] 4 [0; 0; 0; 0; 0; 1] in
  exists w', dispatch (Some 1%nat) (Z.lor EVENT_READ EVENT_ERR) w = Some (tt, w').
Proof.
  intros w.
  edestruct (state_checked_once_after_bits ctx tcp echo pipe_wid 1%nat
               (Z.lor EVENT_READ EVENT_ERR) w c1)
    as (w1 & b1 & w' & d1 & d2 & _ & _ & _ & _ & Hrun & _); [reflexivity | ].
  exists w'. exact Hrun.
Defined.

Lemma queue_valid_two :
  queue_valid (world0 [(1%nat, c1); (2%nat, c2)] [2%nat; 1%nat] 4 [2]).
Proof. repeat constructor; eexists; reflexivity. Defined.

Lemma handoff_adopts_signalled_witness :
  let w := world0 [(1%nat, c1); (2%nat, c2)] [2%nat; 1%nat] 4 [2] in
  exists w' delta,
    worker_add_stream ctx tcp w = Some (tt, w') /\
    trace w' = trace w ++ delta /\
    popped delta = [2%nat; 1%nat] /\
    ra_elems (conn_new w') = [].
Proof.
  intros w.
  edestruct (handoff_adopts_signalled ctx tcp 2 w [] [2%nat; 1%nat] [])
    as (w' & delta & Hrun & Htr & _ & Hpop & Hrest & _);
    [exact queue_valid_two | reflexivity | reflexivity | reflexivity | ].
  exists w', delta. split; [exact Hrun | ]. split; [exact Htr | ].
  split; [exact Hpop | exact Hrest].
Defined.

Lemma handoff_short_queue_or_pipe_error_witness :
  (let w := world0 [(1%nat, c1); (2%nat, c2)] [2%nat; 1%nat] 4 [3] in
   exists w' delta,
     worker_add_stream ctx tcp w = Some (tt, w') /\
     trace w' = trace w ++ delta /\
     popped delta = [2%nat; 1%nat] /\
     ra_elems (conn_new w') = []) /\
  (let w := world0 [(1%nat, c1); (2%nat, c2)] [2%nat; 1%nat] 4 [-1] in
   exists w',
     worker_add_stream ctx tcp w = Some (tt, w') /\
     conn_new w' = conn_new w /\ heap w' = heap w /\ evb w' = evb w).
Proof.
  split; intros w.
  - edestruct (handoff_short_queue_or_pipe_error ctx tcp w 3 []) as [Hshort _];
      [exact queue_valid_two | reflexivity | ].
    destruct (Hshort eq_refl) as (w' & delta & Hrun & Htr & _ & Hpop & Hrest & _).
    exists w', delta. split; [exact Hrun | ]. split; [exact Htr | ].
    split; [exact Hpop | exact Hrest].
  - edestruct (handoff_short_queue_or_pipe_error ctx tcp w (-1) []) as [_ Hfail];
      [exact queue_valid_two | reflexivity | ].
    destruct (Hfail eq_refl) as (w' & Hrun & _ & Hnew & Hheap & Hevb & _).
    exists w'. split; [exact Hrun | ]. split; [exact Hnew | ].
    split; [exact Hheap | exact Hevb].
Defined.

Lemma return_connection_order_witness :
  (let w := world0 [(1%nat, c1)] [] 4 [0; 1] in
   exists w', worker_ret_stream tcp echo pipe_wid 1 w = Some (tt, w') /\
              ev_rd (evb w') !! 7 = None) /\
  (let w := world0 [(1%nat, c1)] [] 0 [0; 1] in
   exists w', worker_ret_stream tcp echo pipe_wid 1 w = Some (tt, w') /\
              heap w' !! 1%nat = None).
Proof.
  split; intros w.
  - edestruct (return_connection_order tcp echo pipe_wid 1%nat w c1) as [Hroom _];
      [reflexivity | reflexivity | ].
    destruct Hroom as (w1 & w' & Hrun & _ & _ & _ & Hrd).
    { vm_compute. do 4 constructor. }
    exists w'. split; [exact Hrun | exact Hrd].
  - edestruct (return_connection_order tcp echo pipe_wid 1%nat w c1) as [_ Hfull];
      [reflexivity | reflexivity | ].
    destruct Hfull as (w' & Hrun & _ & _ & Hgone & _).
    { vm_compute. constructor. }
    exists w'. split; [exact Hrun | exact Hgone].
Defined.

Lemma pipe_signal_outcomes_witness :
  let w := world0 [] [] 4 [-2] in
  exists w',
    _worker_pipe_write pipe_wid w = Some (tt, w') /\
    ev_wr (evb w') !! pipe_wid = Some None.
Proof.
  intros w.
  edestruct (pipe_signal_outcomes ctx tcp echo pipe_wid w)
    as (w' & Hrun & _ & _ & Hretry & _); [reflexivity | ].
  exists w'. split; [exact Hrun | exact (proj1 (proj2 (Hretry (or_intror eq_refl))))].
Defined.

Lemma signal_interest_never_dropped_witness :
  let w := mk_world [] [(pipe_wid, None)] [] [] 4 [1; 1] in
  is_Some (ev_wr (evb w) !! pipe_wid) /\
  exists w' delta,
    dispatch None EVENT_WRITE w = Some (tt, w') /\
    trace w' = trace w ++ delta /\
    count is_pipe_send delta = 1%nat /\
    is_Some (ev_wr (evb w') !! pipe_wid) /\
    exists w2 delta2,
      dispatch None EVENT_WRITE w' = Some (tt, w2) /\
      trace w2 = trace w' ++ delta2 /\
      count is_pipe_send delta2 = 1%nat.
Proof.
  intros w.
  assert (His : is_Some (ev_wr (evb w) !! pipe_wid)) by (eexists; reflexivity).
  split; [exact His | ].
  edestruct (signal_interest_never_dropped ctx tcp echo pipe_wid None EVENT_WRITE w)
    as (w' & delta & Hrun & Htr & Hkeep & Hnull); [constructor | ].
  destruct (Hnull eq_refl eq_refl) as (Hc & _ & w2 & delta2 & Hrun2 & Htr2 & Hc2 & _).
  exists w', delta. split; [exact Hrun | ]. split; [exact Htr | ].
  split; [exact Hc | ]. split; [exact (Hkeep His) | ].
  exists w2, delta2. split; [exact Hrun2 | ]. split; [exact Htr2 | exact Hc2].
Defined.
End Examples.


(** * Further properties of the connection path *)

Section ConnectionMore.
Context {Env : Type} `{!Platform Env}.
Variable ctx : nat.
Variable hdl : channel_handler_st Env.
Variable processor : data_processor Env.
Variable pipe_term_wid : Z.

(** Connection Write makes one attempt on the transport, whatever comes of it. *)
Lemma write_attempts_once s w b :
  heap w !! s = Some b ->
  exists status w' delta,
    _worker_event_write hdl processor s w = Some (status, w') /\
    trace w' = trace w ++ delta /\
    count is_tcp_write delta = 1%nat.
Proof.
  intros Hs. unfold _worker_event_write. run. rewrite Hs. run.
  destruct (io_tcp_write b (env w)) as [[[tst wb] cs] e1]. run.
  destruct ((tst =? CC_ERETRY) || (tst =? CC_EAGAIN));
    [ | destruct (tst =? CC_ERROR) ]; run.
  all: match goal with |- context [proc_write processor ?a ?b ?c ?d] =>
         destruct (proc_write processor a b c d) as [[r bufs] e2] end; run.
  all: destruct (r <? 0); run.
  all: eexists _, _, _; (split; [reflexivity | ]); cbn [trace].
  all: split; [rewrite <- !app_assoc; reflexivity | done].
Qed.

(** X1: Connection Read reads the transport once and then always calls the
    read hook, whatever the transport answered; it goes on to Connection
    Write, once, exactly when the hook did not fail and left bytes in the
    write buffer.  Otherwise the transport is not written to and the event
    base is as it was. *)
Theorem read_writes_only_pending_reply s w b rst rb cs e1 r bufs e2 :
  heap w !! s = Some b ->
  io_tcp_read b (env w) = (rst, rb, cs, e1) ->
  proc_read processor rb (bs_wbuf b) (bs_data b) e1 = (r, bufs, e2) ->
  exists w' delta,
    _worker_event_read hdl processor s w = Some (tt, w') /\
    trace w' = trace w ++ [EvLog LOG_VERB "reading on buf_sock"; EvTcpRead s rst;
                           EvProcRead s r] ++ delta /\
    count is_tcp_write delta
      = (if r <? 0 then 0%nat else if buf_rsize bufs.1.2 >? 0 then 1%nat else 0%nat) /\
    ((r <? 0) || negb (buf_rsize bufs.1.2 >? 0) = true ->
     evb w' = evb w /\ env w' = e2).
Proof.
  intros Hs Hrd Hp. unfold _worker_event_read. run. rewrite Hs. run.
  rewrite Hrd. run. rewrite Hp. run.
  destruct (r <? 0); run.
  { eexists _, _. split; [reflexivity | ]. cbn [trace evb env].
    split; [rewrite <- !app_assoc; reflexivity | done]. }
  destruct (buf_rsize bufs.1.2 >? 0); run.
  2: { eexists _, _. split; [reflexivity | ]. cbn [trace evb env].
       split; [rewrite <- !app_assoc; reflexivity | done]. }
  match goal with |- context [_worker_event_write hdl processor s ?w1] =>
    destruct (write_attempts_once s w1 _ (lookup_insert_eq _ _ _))
      as (st & w' & d & Hrun & Htr & Hc)
  end.
  rewrite Hrun. cbn [trace] in Htr. exists w'. eexists.
  split; [reflexivity | ].
  split; [rewrite Htr, <- !app_assoc; reflexivity | ].
  split; [count_events | done].
Qed.


(** X3: under the TCP handler table, a dispatch of a WRITABLE event (without
    READABLE) whose Connection Write went through ([CC_OK] from the transport
    and no failure of the write hook) removes the write interest of the
    connection and registers its read interest with the connection as user
    data: a connection still held and in state OPEN after the dispatch is
    back to read interest only. *)
Theorem writable_success_rearms_read s events w b wb cs e1 r bufs e2 :
  tcp_ids hdl ->
  heap w !! s = Some b ->
  io_tcp_write b (env w) = (CC_OK, wb, cs, e1) ->
  proc_write processor (bs_rbuf b) wb (bs_data b) e1 = (r, bufs, e2) ->
  0 <= r ->
  has_event events EVENT_READ = false ->
  has_event events EVENT_WRITE = true ->
  exists w',
    _worker_event ctx hdl processor pipe_term_wid (Some s) events w = Some (tt, w') /\
    forall b', heap w' !! s = Some b' -> c_state (bs_ch b') = CHANNEL_OPEN ->
      ev_rd (evb w') !! rid hdl (bs_ch b') = Some (Some s) /\
      ev_wr (evb w') !! wid hdl (bs_ch b') = None.
Proof.
  intros Hid Hs Hw Hp Hr HR HW. rewrite worker_event_conn_split.
  unfold conn_event_bits. rewrite HR, HW. unfold _worker_event_write.
  run. rewrite Hs. run. rewrite Hw. run.
  change ((CC_OK =? CC_ERETRY) || (CC_OK =? CC_EAGAIN)) with false.
  change (CC_OK =? CC_ERROR) with false. run. rewrite Hp. run.
  replace (r <? 0) with false by lia. run.
  change (CC_OK =? CC_OK) with true. run.
  destruct (has_event events EVENT_ERR); run;
    match goal with
    | |- context [conn_event_check hdl processor pipe_term_wid s ?w2] =>
        assert (exists b2, heap w2 !! s = Some b2) as (b2 & Hb2)
          by (eexists; cbn [heap]; apply lookup_insert_eq);
        pose proof Hb2 as Hb2'; cbn [heap] in Hb2';
        rewrite lookup_insert_eq in Hb2'; injection Hb2' as Hb2';
        rewrite (check_spec hdl processor pipe_term_wid s w2 b2 Hb2);
        destruct (is_term_or_error (bs_ch b2)) eqn:Hst;
        [ destruct (ret_stream_frame hdl processor pipe_term_wid s w2 b2 Hb2)
            as (w' & d & Hret & _ & _ & _ & Hkeep & _);
          exists w'; split; [exact Hret | ];
          intros b' Hb' Hopen;
          apply is_term_or_error_not_open in Hst;
          rewrite <- (Hkeep b' Hb') in Hst; done
        | exists w2; split; [reflexivity | ];
          intros b' Hb' Hopen; rewrite Hb2 in Hb'; injection Hb' as <- ]
    end.
  - subst b2. done.
  - subst b2. cbn [bs_ch evb ev_rd ev_wr evb_add_read evb_del].
    rewrite !(proj1 (Hid _)), !(proj2 (Hid _)). cbn [c_sd].
    split; [apply lookup_insert_eq | apply lookup_delete_eq].
Qed.
End ConnectionMore.

(** * Accounting and isolation *)

Section Accounting.
Context {Env : Type} `{!Platform Env}.
Variable ctx : nat.
Variable hdl : channel_handler_st Env.
Variable processor : data_processor Env.
Variable pipe_term_wid : Z.

Lemma metrics_rel_trans d1 d2 (w w1 w2 : world Env) :
  metrics_rel d1 w w1 -> metrics_rel d2 w1 w2 ->
  metrics_rel (fun x => d1 x + d2 x) w w2.
Proof.
  unfold metrics_rel. destruct (worker_metrics w) as [ms | ].
  - intros (ms1 & -> & H1) (ms2 & -> & H2). exists ms2. split; [done | ].
    intros x. rewrite H2, H1. lia.
  - by intros ->.
Qed.

Lemma metrics_rel_ext d d' (w w' : world Env) :
  (forall x, d x = d' x) -> metrics_rel d w w' -> metrics_rel d' w w'.
Proof.
  unfold metrics_rel. intros Hd. destruct (worker_metrics w); [ | done].
  intros (ms' & -> & H). exists ms'. split; [done | ]. intros x. by rewrite <- Hd.
Qed.

Lemma popped_app_nil t1 t2 : popped t1 = [] -> popped t2 = [] -> popped (t1 ++ t2) = [].
Proof. unfold popped. rewrite omap_app. by intros -> ->. Qed.

Lemma quiet_trans d1 d2 s (w w1 w2 : world Env) :
  quiet d1 s w w1 -> quiet d2 s w1 w2 -> quiet (fun x => d1 x + d2 x) s w w2.
Proof.
  intros (Ho1 & (b & b1 & Hb & Hb1 & Hw1 & Hh1 & Hsd1) & Hn1 & Ht1
            & (t1 & Htr1 & Hp1 & Hm1 & Hs1) & Hmet1)
         (Ho2 & (b1' & b2 & Hb1' & Hb2 & Hw2 & Hh2 & Hsd2) & Hn2 & Ht2
            & (t2 & Htr2 & Hp2 & Hm2 & Hs2) & Hmet2).
  rewrite Hb1 in Hb1'. injection Hb1' as <-.
  split; [intros p Hp; rewrite Ho2, Ho1; done | ].
  split; [exists b, b2; repeat split; (done || congruence) | ].
  split; [congruence | ]. split; [congruence | ].
  split; [ | by eapply metrics_rel_trans ].
  exists (t1 ++ t2). split; [by rewrite Htr2, Htr1, app_assoc | ].
  split; [by apply popped_app_nil | ]. rewrite !count_app. lia.
Qed.

Lemma quiet_ext d d' s (w w' : world Env) :
  (forall x, d x = d' x) -> quiet d s w w' -> quiet d' s w w'.
Proof.
  intros Hd (? & ? & ? & ? & ? & Hm). repeat split; try done.
  by eapply metrics_rel_ext.
Qed.

(** Quietness between a world and an explicit later state of it. *)
Ltac quiet_explicit Hs :=
  split; [intros ? ?; cbn [heap]; rewrite ?lookup_insert_ne by done; reflexivity | ];
  split;
  [ eexists _, _; split; [exact Hs | ];
    split; [cbn [heap]; first [apply lookup_insert_eq | exact Hs] | ];
    repeat split | ];
  split; [reflexivity | ]; split; [reflexivity | ];
  split;
  [ first
      [ exists []; split; [cbn [trace]; by rewrite app_nil_r | done]
      | eexists; split; [cbn [trace]; rewrite <- ?app_assoc; reflexivity | done] ]
  | unfold metrics_rel; cbn [worker_metrics];
    destruct (worker_metrics _); cbn [fmap option_fmap option_map];
    [ eexists; split; [reflexivity | ];
      intros ?; unfold metrics_incr, unit_at; repeat case_decide; lia
    | reflexivity ] ].

Lemma write_quiet s w b :
  heap w !! s = Some b ->
  exists status w',
    _worker_event_write hdl processor s w = Some (status, w') /\
    quiet (fun _ => 0) s w w'.
Proof.
  intros Hs. unfold _worker_event_write. run. rewrite Hs. run.
  destruct (io_tcp_write b (env w)) as [[[tst wb] cs] e1]. run.
  destruct ((tst =? CC_ERETRY) || (tst =? CC_EAGAIN));
    [ | destruct (tst =? CC_ERROR) ]; run.
  all: match goal with |- context [proc_write processor ?a ?b ?c ?d] =>
         destruct (proc_write processor a b c d) as [[r bufs] e2] end; run.
  all: destruct (r <? 0); run.
  all: eexists _, _; (split; [reflexivity | ]).
  all: quiet_explicit Hs.
Qed.

Lemma quiet_refl s (w : world Env) b :
  heap w !! s = Some b -> quiet (fun _ => 0) s w w.
Proof.
  intros Hs. split; [done | ]. split; [by exists b, b | ].
  split; [done | ]. split; [done | ].
  split; [exists []; by rewrite app_nil_r | ].
  unfold metrics_rel. destruct (worker_metrics w) as [ms | ]; [ | done].
  exists ms. split; [done | intros; lia].
Qed.

Lemma quietly_bind d1 d2 s (m k : M Env unit) :
  quietly d1 s m -> quietly d2 s k -> quietly (fun x => d1 x + d2 x) s (m ;; k).
Proof.
  intros Hm Hk w b Hs. destruct (Hm w b Hs) as (w1 & Hrun1 & Hq1).
  pose proof Hq1 as (_ & (b0 & b1 & _ & Hb1 & _) & _).
  destruct (Hk w1 b1 Hb1) as (w2 & Hrun2 & Hq2).
  exists w2. unfold bind. rewrite Hrun1. split; [done | by eapply quiet_trans].
Qed.

Lemma quietly_when d s (c : bool) (m : M Env unit) :
  quietly d s m -> quietly (fun x => if c then d x else 0) s (when c m).
Proof.
  destruct c; [done | ]. intros _ w b Hs. exists w.
  split; [done | by eapply quiet_refl].
Qed.

Lemma quietly_ext d d' s (m : M Env unit) :
  (forall x, d x = d' x) -> quietly d s m -> quietly d' s m.
Proof.
  intros Hd Hm w b Hs. destruct (Hm w b Hs) as (w' & Hrun & Hq).
  exists w'. split; [done | by eapply quiet_ext].
Qed.

Lemma quietly_log s lvl msg :
  is_ret_mark (EvLog lvl msg) = false ->
  quietly (Env := Env) (fun _ => 0) s (log lvl msg).
Proof.
  intros Hm w b Hs. eexists. split; [reflexivity | ].
  split; [done | ]. split; [by exists b, b | ].
  split; [done | ]. split; [done | ].
  split.
  - eexists. split; [reflexivity | ]. split; [done | ].
    rewrite count_cons, Hm. done.
  - unfold metrics_rel. cbn [emit worker_metrics].
    destruct (worker_metrics w) as [ms | ]; [ | done].
    exists ms. split; [done | intros; lia].
Qed.

Lemma quietly_INCR s m : quietly (Env := Env) (unit_at m) s (INCR m).
Proof.
  intros w b Hs. eexists. split; [reflexivity | ].
  split; [done | ]. split; [by exists b, b | ].
  split; [done | ]. split; [done | ].
  split; [exists []; cbn; by rewrite app_nil_r | ].
  unfold metrics_rel. cbn [set_metrics worker_metrics].
  destruct (worker_metrics w) as [ms | ]; [ | done].
  eexists. split; [reflexivity | ].
  intros x. unfold metrics_incr, unit_at. case_decide; lia.
Qed.

Lemma quietly_read s : quietly (fun _ => 0) s (_worker_event_read hdl processor s).
Proof.
  intros w b Hs. unfold _worker_event_read. run. rewrite Hs. run.
  destruct (io_tcp_read b (env w)) as [[[rst rb] cs] e1]. run.
  match goal with |- context [proc_read processor ?a ?b ?c ?d] =>
    destruct (proc_read processor a b c d) as [[r bufs] e2] end; run.
  destruct (r <? 0); run.
  { eexists; (split; [reflexivity | ]). quiet_explicit Hs. }
  destruct (buf_rsize bufs.1.2 >? 0); run.
  2: { eexists; (split; [reflexivity | ]). quiet_explicit Hs. }
  match goal with |- context [_worker_event_write hdl processor s ?w1] =>
    set (w1' := w1) end.
  assert (Hq1 : quiet (fun _ => 0) s w w1') by (subst w1'; quiet_explicit Hs).
  pose proof Hq1 as (_ & (b0 & b1 & _ & Hb1 & _) & _).
  destruct (write_quiet s w1' b1 Hb1) as (st & w' & Hrun & Hq2).
  rewrite Hrun. exists w'. split; [done | ].
  eapply quiet_ext; [ | eapply quiet_trans; [exact Hq1 | exact Hq2] ]. done.
Qed.

Lemma quietly_write_rearm s :
  quietly (fun _ => 0) s
    (status <- _worker_event_write hdl processor s ;;
     when (status =? CC_OK)
       (c <- get_ch s ;;
        event_del (wid hdl c) ;;
        c <- get_ch s ;;
        event_add_read (rid hdl c) (Some s))).
Proof.
  intros w b Hs. destruct (write_quiet s w b Hs) as (st & w1 & Hrun & Hq1).
  unfold bind at 1. rewrite Hrun.
  pose proof Hq1 as (_ & (b0 & b1 & _ & Hb1 & _) & _).
  assert (exists w2, when (st =? CC_OK)
       (c <- get_ch s ;; event_del (wid hdl c) ;;
        c <- get_ch s ;; event_add_read (rid hdl c) (Some s)) w1 = Some (tt, w2)
       /\ quiet (fun _ => 0) s w1 w2) as (w2 & Hrun2 & Hq2).
  { destruct (st =? CC_OK); run.
    - rewrite Hb1. run. rewrite Hb1. run.
      eexists. split; [reflexivity | ]. quiet_explicit Hb1.
    - exists w1. split; [done | by eapply quiet_refl]. }
  exists w2. split; [exact Hrun2 | ].
  eapply quiet_ext; [ | eapply quiet_trans; [exact Hq1 | exact Hq2] ]. done.
Qed.

Lemma quietly_set_term s :
  quietly (Env := Env) (fun _ => 0) s (set_state s CHANNEL_TERM).
Proof.
  intros w b Hs. run. rewrite Hs. run.
  eexists. split; [reflexivity | ]. quiet_explicit Hs.
Qed.

(** The handling of the event classes of a connection is quiet and counts
    each class of the mask once. *)
Lemma bits_quiet s events :
  quietly (class_delta events) s (conn_event_bits hdl processor s events).
Proof.
  unfold conn_event_bits.
  eapply quietly_ext; [ | apply quietly_bind; [ | apply quietly_bind ] ].
  2: { apply quietly_when, quietly_bind; [by apply quietly_log | ].
       apply quietly_bind; [apply quietly_INCR | apply quietly_read]. }
  2: { apply quietly_when, quietly_bind; [by apply quietly_log | ].
       apply quietly_bind; [apply quietly_INCR | apply quietly_write_rearm]. }
  2: { apply quietly_when, quietly_bind; [apply quietly_set_term | apply quietly_INCR]. }
  intros x. unfold class_delta, unit_at.
  destruct (has_event events EVENT_READ), (has_event events EVENT_WRITE),
           (has_event events EVENT_ERR), x; reflexivity.
Qed.

(** Outbound Handoff Signal touches nothing but the event base. *)
Lemma pipe_write_quiet w :
  exists w' delta,
    _worker_pipe_write pipe_term_wid w = Some (tt, w') /\
    trace w' = trace w ++ delta /\
    popped delta = [] /\
    count is_ret_mark delta = 0%nat /\
    count is_pipe_send delta = 1%nat /\
    worker_metrics w' = worker_metrics w /\
    heap w' = heap w /\ conn_new w' = conn_new w /\ conn_term w' = conn_term w.
Proof.
  unfold _worker_pipe_write. run.
  destruct (io_pipe_send (env w)) as [n e1]. run.
  destruct ((n =? 0) || (n =? CC_EAGAIN)); [ | destruct (n =? CC_ERROR) ]; run;
    eexists _, _; (split; [reflexivity | ]);
    cbn [trace heap conn_new conn_term worker_metrics];
    (split; [by rewrite <- ?app_assoc | ]); done.
Qed.

(** What Return Connection does to the world: the connection goes to the tail
    of the outbound queue, or, when that queue is full, its record is given
    back; nothing else moves. *)
Lemma ret_stream_outcome s w b :
  heap w !! s = Some b ->
  exists w' delta,
    worker_ret_stream hdl processor pipe_term_wid s w = Some (tt, w') /\
    trace w' = trace w ++ delta /\
    popped delta = [] /\
    count is_ret_mark delta = 1%nat /\
    metrics_rel (unit_at Metric.worker_ret_stream) w w' /\
    (forall p, p <> s -> heap w' !! p = heap w !! p) /\
    conn_new w' = conn_new w /\
    (((length (ra_elems (conn_term w)) < ra_cap (conn_term w))%nat /\
      conn_term w' = RingArray (ra_cap (conn_term w)) (ra_elems (conn_term w) ++ [s]) /\
      count is_pipe_send delta = 1%nat /\
      exists b', heap w' !! s = Some b' /\ bs_ch b' = bs_ch b /\
                 bs_owner b' = bs_owner b /\ bs_hdl b' = bs_hdl b) \/
     ((ra_cap (conn_term w) <= length (ra_elems (conn_term w)))%nat /\
      conn_term w' = conn_term w /\
      count is_pipe_send delta = 0%nat /\
      heap w' !! s = None)).
Proof.
  intros Hs. unfold worker_ret_stream. run. rewrite Hs. run.
  destruct (proc_error processor (bs_rbuf b) (bs_wbuf b) (bs_data b) (env w))
    as [[r bufs] e1]. run.
  unfold ring_array_push. case_decide; run.
  - match goal with |- context [_worker_pipe_write pipe_term_wid ?w1] =>
      destruct (pipe_write_quiet w1) as
        (w' & d & Hrun & Htr & Hpop & Hm & Hsend & Hmet & Hhp & Hnew & Hterm)
    end.
    rewrite Hrun. exists w'. eexists. cbn [trace heap worker_metrics conn_new conn_term] in *.
    split; [done | ].
    split; [rewrite Htr, <- !app_assoc; reflexivity | ].
    split; [cbn [app]; unfold popped in *; cbn [omap]; exact Hpop | ].
    split; [count_events | ].
    split.
    { unfold metrics_rel. rewrite Hmet.
      destruct (worker_metrics w) as [ms | ]; cbn [fmap option_fmap option_map]; [ | done].
      eexists. split; [reflexivity | ]. intros x. unfold metrics_incr, unit_at.
      case_decide; lia. }
    split; [intros p Hp; rewrite Hhp; by rewrite lookup_insert_ne | ].
    split; [done | ]. left.
    split; [done | ]. split; [done | ]. split; [count_events | ].
    eexists. rewrite Hhp. split; [apply lookup_insert_eq | done].
  - destruct (term hdl (bs_ch b) e1) as [c e2]. run.
    eexists _, _. split; [reflexivity | ].
    cbn [trace heap worker_metrics conn_new conn_term].
    split; [rewrite <- !app_assoc; reflexivity | ].
    split; [done | ]. split; [done | ].
    split.
    { unfold metrics_rel.
      destruct (worker_metrics w) as [ms | ]; cbn [fmap option_fmap option_map]; [ | done].
      eexists. split; [reflexivity | ]. intros x. unfold metrics_incr, unit_at.
      case_decide; lia. }
    split.
    { intros p Hp. rewrite lookup_delete_ne by done. by rewrite !lookup_insert_ne. }
    split; [done | ]. right.
    split; [lia | ]. split; [done | ]. split; [done | ]. apply lookup_delete_eq.
Qed.

(** X4: after a dispatch on a connection, the connection is in exactly one
    place.  Either the worker still holds it, in a state that is neither TERM
    nor ERROR, and the outbound queue is as it was; or it is in state TERM or
    ERROR and has been appended, once, to the tail of the outbound queue, which
    had room; or the outbound queue was full, is as it was, and the record has
    been given back. *)
Theorem dispatch_keeps_or_hands_back s events w b :
  heap w !! s = Some b ->
  exists w',
    _worker_event ctx hdl processor pipe_term_wid (Some s) events w = Some (tt, w') /\
    ((exists b', heap w' !! s = Some b' /\ is_term_or_error (bs_ch b') = false /\
                 conn_term w' = conn_term w) \/
     (exists b', heap w' !! s = Some b' /\ is_term_or_error (bs_ch b') = true /\
                 (length (ra_elems (conn_term w)) < ra_cap (conn_term w))%nat /\
                 ra_elems (conn_term w') = ra_elems (conn_term w) ++ [s]) \/
     (heap w' !! s = None /\
      (ra_cap (conn_term w) <= length (ra_elems (conn_term w)))%nat /\
      conn_term w' = conn_term w)).
Proof.
  intros Hs. rewrite worker_event_conn_split.
  set (w0 := emit _ w).
  destruct (bits_quiet s events w0 b Hs) as (w1 & Hrun & Hq).
  destruct Hq as (_ & (b0 & b1 & _ & Hb1 & _) & _ & Hterm & _).
  change (conn_term w0) with (conn_term w) in Hterm.
  unfold bind. rewrite Hrun, (check_spec hdl processor pipe_term_wid s w1 b1 Hb1).
  destruct (is_term_or_error (bs_ch b1)) eqn:Hst.
  - destruct (ret_stream_outcome s w1 b1 Hb1)
      as (w' & d & Hret & _ & _ & _ & _ & _ & _ & Hcase).
    exists w'. split; [done | ]. right. rewrite Hterm in Hcase.
    destruct Hcase as [(Hroom & Hq' & _ & b' & Hb' & Hch & _) | (Hfull & Hq' & _ & Hgone)].
    + left. exists b'. rewrite Hch, Hq'. done.
    + right. done.
  - exists w1. split; [done | ]. left. by exists b1.
Qed.

(** X5: a dispatch on a connection touches no other connection record and
    takes nothing off the inbound queue; and if the worker still holds the
    connection afterwards, its owner, handler and socket descriptor are those
    it had. *)
Theorem dispatch_touches_one_connection s events w b :
  heap w !! s = Some b ->
  exists w' delta,
    _worker_event ctx hdl processor pipe_term_wid (Some s) events w = Some (tt, w') /\
    trace w' = trace w ++ delta /\
    popped delta = [] /\
    conn_new w' = conn_new w /\
    (forall p, p <> s -> heap w' !! p = heap w !! p) /\
    (forall b', heap w' !! s = Some b' ->
       bs_owner b' = bs_owner b /\ bs_hdl b' = bs_hdl b /\
       c_sd (bs_ch b') = c_sd (bs_ch b)).
Proof.
  intros Hs. rewrite worker_event_conn_split.
  set (w0 := emit _ w).
  destruct (bits_quiet s events w0 b Hs) as (w1 & Hrun & Hq).
  destruct Hq as (Hoth & (b0 & b1 & Hb0 & Hb1 & Hown & Hhdl & Hsd) & Hnew & _
                    & (d1 & Htr1 & Hpop1 & _) & _).
  assert (b0 = b) as -> by (change (heap w0) with (heap w) in Hb0; congruence).
  unfold bind. rewrite Hrun, (check_spec hdl processor pipe_term_wid s w1 b1 Hb1).
  assert (Htr0 : trace w1 = trace w ++ EvLog LOG_VERB "worker event" :: d1).
  { rewrite Htr1. subst w0. exec. by rewrite <- app_assoc. }
  destruct (is_term_or_error (bs_ch b1)).
  - destruct (ret_stream_outcome s w1 b1 Hb1)
      as (w' & d & Hret & Htr & Hpop & _ & _ & Hoth' & Hnew' & Hcase).
    exists w'. eexists. split; [done | ].
    split; [rewrite Htr, Htr0, <- app_assoc; reflexivity | ].
    split; [cbn [app]; change (popped (?e :: ?t)) with (popped t);
            by apply popped_app_nil | ].
    split; [by rewrite Hnew', Hnew | ].
    split; [intros p Hp; by rewrite Hoth', Hoth | ].
    intros b' Hb'.
    destruct Hcase as [(_ & _ & _ & b'' & Hb'' & Hch & Ho & Hh) | (_ & _ & _ & Hgone)].
    + rewrite Hb'' in Hb'. injection Hb' as <-. rewrite Ho, Hh, Hch. done.
    + congruence.
  - exists w1. eexists. split; [done | ]. split; [exact Htr0 | ].
    split; [done | ]. split; [done | ]. split; [exact Hoth | ].
    intros b' Hb'. rewrite Hb1 in Hb'. by injection Hb' as <-.
Qed.

(** The loop of Inbound Handoff counts one added stream for every connection
    it takes off the queue, and nothing else. *)
Lemma add_stream_loop_account k : forall w,
  queue_valid w ->
  exists w',
    add_stream_loop ctx hdl k w = Some (tt, w') /\
    metrics_rel (fun x => unit_at Metric.worker_add_stream x
                          * Z.of_nat (min k (length (ra_elems (conn_new w))))) w w'.
Proof.
  induction k as [| k IH]; intros w Hq.
  - exists w. split; [done | ]. unfold metrics_rel.
    destruct (worker_metrics w) as [ms | ]; [ | done].
    exists ms. split; [done | ]. intros x. cbn [min]. lia.
  - cbn [add_stream_loop]. unfold pop_conn_new at 1, ring_array_pop.
    unfold bind at 1. unfold queue_valid in Hq.
    destruct (ra_elems (conn_new w)) as [| p0 q] eqn:Hel.
    + eexists. split; [reflexivity | ]. unfold metrics_rel. exec.
      destruct (worker_metrics w) as [ms | ]; [ | done].
      exists ms. split; [done | ]. intros x. cbn [length]. rewrite Nat.min_0_r. lia.
    + apply Forall_cons in Hq as [[b0 Hb0] Hq].
      run. rewrite Hb0. run.
      match goal with |- context [add_stream_loop ctx hdl k ?w1] => set (w1' := w1) end.
      destruct (IH w1') as (w' & Hrun & Hmet).
      { unfold queue_valid. subst w1'. cbn [conn_new heap ra_elems].
        eapply Forall_impl; [exact Hq | ]. intros p Hp. cbn beta.
        rewrite insert_insert_eq. by apply lookup_insert_is_Some', or_intror. }
      exists w'. split; [exact Hrun | ].
      assert (H1 : metrics_rel (unit_at Metric.worker_add_stream) w w1').
      { unfold metrics_rel. subst w1'. cbn [worker_metrics].
        destruct (worker_metrics w) as [ms | ]; cbn [fmap option_fmap option_map]; [ | done].
        eexists. split; [reflexivity | ]. intros x. unfold metrics_incr, unit_at.
        case_decide; lia. }
      eapply metrics_rel_ext; [ | eapply metrics_rel_trans; [exact H1 | exact Hmet] ].
      intros x. cbn beta. change (ra_elems (conn_new w1')) with q.
      cbn [length]. rewrite <- Nat.succ_min_distr. lia.
Qed.

Lemma popped_shortfall k len : popped (shortfall k len) = [].
Proof. unfold shortfall. by case_decide. Qed.

Lemma count_mark_adopt_events (w : world Env) ps :
  count is_ret_mark (flat_map (adopt_events hdl w) ps) = 0%nat.
Proof.
  induction ps as [| p ps IH]; [done | ].
  cbn [flat_map]. rewrite count_app, IH. unfold adopt_events.
  by destruct (heap w !! p).
Qed.

(** Inbound Handoff, for any result of the pipe read. *)
Lemma worker_add_stream_account w :
  queue_valid w ->
  exists w' delta,
    worker_add_stream ctx hdl w = Some (tt, w') /\
    trace w' = trace w ++ delta /\
    popped delta ++ ra_elems (conn_new w') = ra_elems (conn_new w) /\
    ra_cap (conn_new w') = ra_cap (conn_new w) /\
    count is_ret_mark delta = 0%nat /\
    metrics_rel (tally delta) w w' /\
    (forall p, heap w' !! p =
               if decide (p ∈ popped delta)
               then adopt ctx hdl <$> heap w !! p else heap w !! p) /\
    queue_valid w'.
Proof.
  intros Hq.
  destruct (worker_add_stream_frame ctx hdl w Hq) as (w0 & _ & Hrun0 & _ & _ & _ & _ & Hq').
  unfold worker_add_stream in *. revert Hrun0. run.
  destruct (io_pipe_recv RING_ARRAY_DEFAULT_CAP (env w)) as [n e1]. run.
  destruct (n <? 0).
  - run. intros [= <-]. eexists _, _. split; [reflexivity | ].
    cbn [trace conn_new heap worker_metrics].
    split; [by rewrite <- !app_assoc | ]. split; [done | ]. split; [done | ].
    split; [done | ]. split.
    { unfold metrics_rel. cbn [worker_metrics].
      destruct (worker_metrics w) as [ms | ]; [ | done].
      exists ms. split; [done | ]. intros x.
      destruct x; unfold tally; rewrite ?count_app, ?count_cons, ?count_nil; cbn; lia. }
    split; [ | exact Hq' ].
    intros p. rewrite decide_False; [done | ]. cbn. apply not_elem_of_nil.
  - match goal with |- context [add_stream_loop ctx hdl ?k ?w1] =>
      set (w1' := w1); set (k' := k) end.
    destruct (add_stream_loop_spec ctx hdl k' w1') as
      (w' & Hrun & Hcn & Htr & Hhp & _); [exact Hq | ].
    destruct (add_stream_loop_account k' w1') as (w'' & Hrun' & Hmet); [exact Hq | ].
    rewrite Hrun in Hrun'. injection Hrun' as <-. rewrite Hrun. intros [= <-].
    change (ra_elems (conn_new w1')) with (ra_elems (conn_new w)) in *.
    change (ra_cap (conn_new w1')) with (ra_cap (conn_new w)) in *.
    change (heap w1') with (heap w) in *.
    set (q := ra_elems (conn_new w)) in *.
    assert (Hvalid : Forall (fun p => is_Some (heap w !! p)) (take k' q)).
    { apply Forall_take. exact Hq. }
    assert (Hpop : popped (EvPipeRecv n :: flat_map (adopt_events hdl w1') (take k' q)
                             ++ shortfall k' (length q)) = take k' q).
    { change (popped (?e :: ?t)) with (popped t). unfold popped. rewrite omap_app.
      fold (popped (shortfall k' (length q))). rewrite popped_shortfall, app_nil_r.
      by apply (popped_adopt_events hdl w1'). }
    assert (Hmark : count is_ret_mark
                      (EvPipeRecv n :: flat_map (adopt_events hdl w1') (take k' q)
                         ++ shortfall k' (length q)) = 0%nat).
    { rewrite count_cons, count_app, count_mark_adopt_events.
      unfold shortfall. by case_decide. }
    exists w', (EvPipeRecv n :: flat_map (adopt_events hdl w1') (take k' q)
                   ++ shortfall k' (length q)).
    split; [reflexivity | ].
    split; [rewrite Htr; change (trace w1') with (trace w ++ [EvPipeRecv n]);
            by rewrite <- !app_assoc | ].
    rewrite Hpop.
    split; [rewrite Hcn; cbn [ra_elems]; apply take_drop | ].
    split; [by rewrite Hcn | ].
    split; [exact Hmark | ].
    split; [ | split; [exact Hhp | exact Hq'] ].
    unfold metrics_rel in *. change (worker_metrics w1') with (worker_metrics w) in Hmet.
    destruct (worker_metrics w) as [ms | ]; [ | done].
    destruct Hmet as (ms' & Hms' & Hx). exists ms'. split; [done | ].
    intros x. rewrite Hx. unfold tally, unit_at. rewrite Hpop, Hmark, length_take.
    destruct x; case_decide; try done; lia.
Qed.

Lemma tally_app t1 t2 x : tally (t1 ++ t2) x = tally t1 x + tally t2 x.
Proof.
  unfold tally, popped. destruct x; try done.
  - rewrite omap_app, length_app. lia.
  - rewrite count_app. lia.
Qed.

Lemma tally_quiet t x : popped t = [] -> count is_ret_mark t = 0%nat -> tally t x = 0.
Proof. unfold tally. intros -> ->. by destruct x. Qed.

(** What a dispatch on the pipes does to the queues, the records and the
    counters, for any mask. *)
Lemma pipe_dispatch_account events w :
  queue_valid w ->
  exists w' delta,
    _worker_event ctx hdl processor pipe_term_wid None events w = Some (tt, w') /\
    trace w' = trace w ++ delta /\
    popped delta ++ ra_elems (conn_new w') = ra_elems (conn_new w) /\
    ra_cap (conn_new w') = ra_cap (conn_new w) /\
    metrics_rel (fun x => class_delta events x + tally delta x) w w' /\
    (forall p, heap w' !! p =
               if decide (p ∈ popped delta)
               then adopt ctx hdl <$> heap w !! p else heap w !! p).
Proof.
  intros Hq. unfold _worker_event.
  set (R := when (has_event events EVENT_READ) _).
  set (Wr := when (has_event events EVENT_WRITE) _).
  set (Er := when (has_event events EVENT_ERR) _).
  set (w0 := emit (EvLog LOG_VERB "worker event") w).
  (* the READABLE class *)
  assert (exists w1 d1,
    R w0 = Some (tt, w1) /\
    trace w1 = trace w0 ++ d1 /\
    popped d1 ++ ra_elems (conn_new w1) = ra_elems (conn_new w) /\
    ra_cap (conn_new w1) = ra_cap (conn_new w) /\
    count is_ret_mark d1 = 0%nat /\
    metrics_rel (fun x => (if has_event events EVENT_READ
                           then unit_at Metric.worker_event_read x else 0)
                          + tally d1 x) w w1 /\
    (forall p, heap w1 !! p =
               if decide (p ∈ popped d1)
               then adopt ctx hdl <$> heap w !! p else heap w !! p))
    as (w1 & d1 & Hrun1 & Htr1 & Hpop1 & Hcap1 & Hm1 & Hmet1 & Hhp1).
  { subst R w0. destruct (has_event events EVENT_READ); run.
    - match goal with |- context [worker_add_stream ctx hdl ?wa] =>
        destruct (worker_add_stream_account wa Hq)
          as (w1 & d1 & Hrun & Htr & Hpop & Hcap & Hm & Hmet & Hhp & _);
        assert (Hinc : metrics_rel (unit_at Metric.worker_event_read) w wa)
      end.
      { unfold metrics_rel. cbn [worker_metrics].
        destruct (worker_metrics w) as [ms | ]; cbn [fmap option_fmap option_map]; [ | done].
        eexists. split; [reflexivity | ]. intros x. unfold metrics_incr, unit_at.
        case_decide; lia. }
      exists w1, d1. rewrite Hrun. repeat split; try done.
      eapply metrics_rel_trans; [exact Hinc | exact Hmet].
    - eexists _, []. split; [reflexivity | ]. split; [by rewrite app_nil_r | ].
      split; [done | ]. split; [done | ]. split; [done | ].
      split; [ | intros p; rewrite decide_False; [done | apply not_elem_of_nil] ].
      unfold metrics_rel. cbn [worker_metrics].
      destruct (worker_metrics w) as [ms | ]; [ | done].
      exists ms. split; [done | ]. intros x. destruct x; cbn; lia. }
  (* the WRITABLE class *)
  assert (exists w2 d2,
    Wr w1 = Some (tt, w2) /\
    trace w2 = trace w1 ++ d2 /\ popped d2 = [] /\ count is_ret_mark d2 = 0%nat /\
    heap w2 = heap w1 /\ conn_new w2 = conn_new w1 /\
    metrics_rel (fun x => if has_event events EVENT_WRITE
                          then unit_at Metric.worker_event_write x else 0) w1 w2)
    as (w2 & d2 & Hrun2 & Htr2 & Hpop2 & Hm2 & Hhp2 & Hnew2 & Hmet2).
  { subst Wr. destruct (has_event events EVENT_WRITE); run.
    - match goal with |- context [_worker_pipe_write pipe_term_wid ?wa] =>
        destruct (pipe_write_quiet wa)
          as (w2 & d2 & Hrun & Htr & Hpop & Hm & _ & Hmet & Hhp & Hnew & _)
      end.
      exists w2, d2. rewrite Hrun. repeat split; try done.
      unfold metrics_rel. rewrite Hmet. cbn [worker_metrics].
      destruct (worker_metrics w1) as [ms | ]; cbn [fmap option_fmap option_map]; [ | done].
      eexists. split; [reflexivity | ]. intros x. unfold metrics_incr, unit_at.
      case_decide; lia.
    - exists w1, []. split; [done | ]. split; [by rewrite app_nil_r | ].
      repeat split; try done. unfold metrics_rel.
      destruct (worker_metrics w1) as [ms | ]; [ | done].
      exists ms. split; [done | ]. intros x. lia. }
  (* the ERROR class *)
  assert (exists w3 d3,
    Er w2 = Some (tt, w3) /\
    trace w3 = trace w2 ++ d3 /\ popped d3 = [] /\ count is_ret_mark d3 = 0%nat /\
    heap w3 = heap w2 /\ conn_new w3 = conn_new w2 /\
    metrics_rel (fun x => if has_event events EVENT_ERR
                          then unit_at Metric.worker_event_error x else 0) w2 w3)
    as (w3 & d3 & Hrun3 & Htr3 & Hpop3 & Hm3 & Hhp3 & Hnew3 & Hmet3).
  { subst Er. destruct (has_event events EVENT_ERR); run.
    - eexists _, _. split; [reflexivity | ]. cbn [trace heap conn_new].
      split; [reflexivity | ]. repeat split. unfold metrics_rel. cbn [worker_metrics].
      destruct (worker_metrics w2) as [ms | ]; cbn [fmap option_fmap option_map]; [ | done].
      eexists. split; [reflexivity | ]. intros x. unfold metrics_incr, unit_at.
      case_decide; lia.
    - exists w2, []. split; [done | ]. split; [by rewrite app_nil_r | ].
      repeat split; try done. unfold metrics_rel.
      destruct (worker_metrics w2) as [ms | ]; [ | done].
      exists ms. split; [done | ]. intros x. lia. }
  unfold bind, log. cbv beta iota. fold w0. rewrite Hrun1, Hrun2, Hrun3.
  exists w3, (EvLog LOG_VERB "worker event" :: d1 ++ d2 ++ d3).
  assert (Hpop : popped (EvLog LOG_VERB "worker event" :: d1 ++ d2 ++ d3) = popped d1).
  { change (popped (?e :: ?t)) with (popped t). unfold popped in *.
    by rewrite !omap_app, Hpop2, Hpop3, !app_nil_r. }
  split; [done | ].
  split; [rewrite Htr3, Htr2, Htr1; subst w0; exec; by rewrite <- !app_assoc | ].
  rewrite Hpop.
  split; [by rewrite Hnew3, Hnew2 | ]. split; [by rewrite Hnew3, Hnew2 | ].
  split; [ | intros p; by rewrite Hhp3, Hhp2 ].
  eapply metrics_rel_ext;
    [ | eapply metrics_rel_trans; [eapply metrics_rel_trans; [exact Hmet1 | exact Hmet2]
                                  | exact Hmet3] ].
  intros x. cbn beta.
  change (EvLog LOG_VERB "worker event" :: d1 ++ d2 ++ d3)
    with ([EvLog LOG_VERB "worker event"] ++ d1 ++ d2 ++ d3).
  rewrite !tally_app, (tally_quiet d2), (tally_quiet d3) by done.
  rewrite (tally_quiet [_]) by done.
  unfold class_delta, unit_at.
  destruct (has_event events EVENT_READ), (has_event events EVENT_WRITE),
           (has_event events EVENT_ERR), x; cbn; repeat case_decide; try done; lia.
Qed.

(** X6: a dispatch on the pipes, whatever its mask and whatever the pipe
    read returns, loses, duplicates and reorders no connection: the
    connections it popped, in the order of the pops, followed by what is left
    of the inbound queue are the inbound queue it started from.  The outbound
    queue is as it was.  No record appears or disappears, every record keeps
    its channel, buffers and private slot, a record that was not popped is
    unchanged, and a popped one has the worker context as owner and the
    worker's handler table. *)
Theorem pipe_dispatch_conserves events w :
  queue_valid w ->
  exists w' delta,
    _worker_event ctx hdl processor pipe_term_wid None events w = Some (tt, w') /\
    trace w' = trace w ++ delta /\
    popped delta ++ ra_elems (conn_new w') = ra_elems (conn_new w) /\
    conn_term w' = conn_term w /\
    (forall p, heap w !! p = None -> heap w' !! p = None) /\
    (forall p b, heap w !! p = Some b ->
       exists b', heap w' !! p = Some b' /\
         bs_ch b' = bs_ch b /\ bs_rbuf b' = bs_rbuf b /\
         bs_wbuf b' = bs_wbuf b /\ bs_data b' = bs_data b /\
         (p ∉ popped delta -> b' = b) /\
         (p ∈ popped delta -> bs_owner b' = Some ctx /\ bs_hdl b' = Some hdl)).
Proof.
  intros Hq.
  destruct (pipe_dispatch_account events w Hq)
    as (w' & delta & Hrun & Htr & Hpop & _ & _ & Hhp).
  destruct (pipe_dispatch_frame ctx hdl processor pipe_term_wid events w Hq)
    as (w'' & d' & Hrun' & _ & _ & _ & Hterm & _).
  rewrite Hrun in Hrun'. injection Hrun' as <-.
  exists w', delta. split; [done | ]. split; [done | ]. split; [done | ].
  split; [done | ]. split.
  - intros p Hp. rewrite Hhp, Hp. by case_decide.
  - intros p b Hb. rewrite Hhp, Hb. case_decide.
    + exists (adopt ctx hdl b). repeat split; done.
    + exists b. repeat split; done.
Qed.

(** X7: the counters agree with what a dispatch did.  A null
    [worker_metrics] stays null; otherwise each of the three counters of event
    classes grows by one when its class is in the mask and by nothing when it
    is not, the counter of added streams grows by the number of connections
    popped off the inbound queue, and the counter of returned streams by the
    number of runs of Return Connection. *)
Theorem dispatch_counts_agree arg events w :
  dispatch_valid arg w ->
  exists w' delta,
    _worker_event ctx hdl processor pipe_term_wid arg events w = Some (tt, w') /\
    trace w' = trace w ++ delta /\
    metrics_rel (fun x => class_delta events x + tally delta x) w w'.
Proof.
  destruct arg as [s | ]; cbn [dispatch_valid].
  - intros [b Hs]. rewrite worker_event_conn_split.
    set (w0 := emit _ w).
    destruct (bits_quiet s events w0 b Hs) as (w1 & Hrun & Hq).
    destruct Hq as (_ & (b0 & b1 & _ & Hb1 & _) & _ & _ & (d1 & Htr1 & Hpop1 & Hm1 & _) & Hmet1).
    unfold bind. rewrite Hrun, (check_spec hdl processor pipe_term_wid s w1 b1 Hb1).
    assert (Htr0 : trace w1 = trace w ++ [EvLog LOG_VERB "worker event"] ++ d1).
    { rewrite Htr1. subst w0. exec. by rewrite <- app_assoc. }
    assert (Hmet0 : metrics_rel (class_delta events) w w1) by exact Hmet1.
    destruct (is_term_or_error (bs_ch b1)).
    + destruct (ret_stream_outcome s w1 b1 Hb1)
        as (w' & d & Hret & Htr & Hpop & Hm & Hmet & _).
      exists w', ([EvLog LOG_VERB "worker event"] ++ d1 ++ d).
      split; [done | ]. split; [by rewrite Htr, Htr0, <- !app_assoc | ].
      eapply metrics_rel_ext; [ | eapply metrics_rel_trans; [exact Hmet0 | exact Hmet] ].
      intros x. cbn beta. rewrite !tally_app, (tally_quiet [_]), (tally_quiet d1) by done.
      unfold tally, unit_at. rewrite Hpop, Hm.
      destruct x; repeat case_decide; try done; cbn; lia.
    + exists w1, ([EvLog LOG_VERB "worker event"] ++ d1).
      split; [done | ]. split; [done | ].
      eapply metrics_rel_ext; [ | exact Hmet0 ].
      intros x. cbn beta. rewrite !tally_app, (tally_quiet [_]), (tally_quiet d1) by done.
      lia.
  - intros Hq.
    destruct (pipe_dispatch_account events w Hq)
      as (w' & delta & Hrun & Htr & _ & _ & Hmet & _).
    by exists w', delta.
Qed.

(** Outbound Handoff Signal leaves the event base as it is or adds the write
    interest of the outbound pipe. *)
Lemma pipe_write_evb w :
  exists w',
    _worker_pipe_write pipe_term_wid w = Some (tt, w') /\
    (evb w' = evb w \/ evb w' = evb_add_write pipe_term_wid None (evb w)).
Proof.
  unfold _worker_pipe_write. run.
  destruct (io_pipe_send (env w)) as [n e1]. run.
  destruct ((n =? 0) || (n =? CC_EAGAIN)); [ | destruct (n =? CC_ERROR) ]; run;
    eexists; (split; [reflexivity | ]); cbn [evb]; auto.
Qed.

(** X8: under the TCP handler table, and when the descriptor of the
    connection is not the write id of the outbound pipe, a connection that a
    dispatch does not keep has no interest left in the event base: after the
    dispatch either the worker holds the connection in a state that is neither
    TERM nor ERROR, or neither read nor write interest is registered under
    its descriptor. *)
Theorem returned_connection_unregistered s events w b :
  tcp_ids hdl ->
  heap w !! s = Some b ->
  c_sd (bs_ch b) <> pipe_term_wid ->
  exists w',
    _worker_event ctx hdl processor pipe_term_wid (Some s) events w = Some (tt, w') /\
    ((exists b', heap w' !! s = Some b' /\ is_term_or_error (bs_ch b') = false) \/
     (ev_rd (evb w') !! c_sd (bs_ch b) = None /\
      ev_wr (evb w') !! c_sd (bs_ch b) = None)).
Proof.
  intros Hid Hs Hne. rewrite worker_event_conn_split.
  set (w0 := emit _ w).
  destruct (bits_quiet s events w0 b Hs) as (w1 & Hrun & Hq).
  destruct Hq as (_ & (b0 & b1 & Hb0 & Hb1 & _ & _ & Hsd) & _).
  assert (b0 = b) as -> by (change (heap w0) with (heap w) in Hb0; congruence).
  unfold bind. rewrite Hrun, (check_spec hdl processor pipe_term_wid s w1 b1 Hb1).
  destruct (is_term_or_error (bs_ch b1)) eqn:Hst.
  2: { exists w1. split; [done | ]. left. by exists b1. }
  rewrite <- Hsd. clear Hrun.
  unfold worker_ret_stream. run. rewrite Hb1. run.
  destruct (proc_error processor (bs_rbuf b1) (bs_wbuf b1) (bs_data b1) (env w1))
    as [[r bufs] e1]. run.
  rewrite (proj1 (Hid _)).
  destruct (ring_array_push s (conn_term w1)) as [q | ]; run.
  - match goal with |- context [_worker_pipe_write pipe_term_wid ?wa] =>
      destruct (pipe_write_evb wa) as (w' & Hrun & Hevb)
    end.
    rewrite Hrun. exists w'. split; [done | ]. right. cbn [evb] in Hevb.
    destruct Hevb as [-> | ->]; cbn [ev_rd ev_wr evb_del evb_add_write];
      rewrite ?lookup_insert_ne by congruence; split; apply lookup_delete_eq.
  - destruct (term hdl (bs_ch b1) e1) as [c e2]. run.
    eexists. split; [reflexivity | ]. right. cbn [evb ev_rd ev_wr evb_del].
    split; apply lookup_delete_eq.
Qed.
End Accounting.

(** ** Setup and teardown *)

Section LifecycleProps.
Context {Env : Type} `{!Reactor Env}.
Variable WORKER_TIMEOUT : Z.
Variable WORKER_NEVENT : Z.
Variable tcp_close : tcp_conn -> Env -> tcp_conn * Env.
Variable tcp_read_id : tcp_conn -> Z.
Variable tcp_write_id : tcp_conn -> Z.
Variable pipe_new_rid : Z.

Lemma life_count_app f (a b : list life_event) :
  life_count f (a ++ b) = (life_count f a + life_count f b)%nat.
Proof. unfold life_count. by rewrite filter_app, length_app. Qed.

Lemma int_of_uint_small v : 0 <= v < 2 ^ 31 -> int_of_uint v = v.
Proof.
  intros Hv. unfold int_of_uint. cbv zeta.
  rewrite Z.mod_small by lia.
  destruct (Z.ltb_spec v (2 ^ 31)); lia.
Qed.

(** Teardown, on any state. *)
Lemma teardown_spec (c : core Env) :
  exists delta,
    core_worker_teardown c =
      Core false (ctx_timeout c) (if worker_init c then None else ctx_evb c) None
           (handlers c) (core_env c) (life c ++ delta) /\
    life_count is_destroy delta = (if worker_init c then 1 else 0)%nat /\
    life_count is_create_ok delta = 0%nat /\
    life_count is_exit delta = 0%nat.
Proof.
  unfold core_worker_teardown, event_base_destroy, life_emit, set_ctx_evb,
    set_core_metrics, set_init.
  destruct c as [i t e m h en l]. cbn. destruct i; cbn.
  - eexists. rewrite <- app_assoc. split; [reflexivity | ]. done.
  - eexists. rewrite <- app_assoc. split; [reflexivity | ]. done.
Qed.

(** Setup, on any state and for either answer of [event_base_create]. *)
Lemma setup_spec options metrics (c : core Env) ok e' :
  io_event_base_create
    (match options with
     | Some o => int_of_uint (worker_nevent o)
     | None => WORKER_NEVENT
     end) (core_env c) = (ok, e') ->
  exists c' delta,
    core_worker_setup WORKER_TIMEOUT WORKER_NEVENT tcp_close tcp_read_id tcp_write_id
      pipe_new_rid options metrics c
    = (if ok then Returns else Exits EX_CONFIG, c') /\
    worker_init c' = ok /\
    ctx_evb c' = (if ok then Some (EventBase {[pipe_new_rid := None]} ∅) else None) /\
    core_metrics c' = metrics /\
    handlers c' = (if ok then Some (ChannelHandler tcp_close tcp_read_id tcp_write_id)
                   else handlers c) /\
    ctx_timeout c' = match options with
                     | Some o => int_of_uint (worker_timeout o)
                     | None => WORKER_TIMEOUT
                     end /\
    core_env c' = e' /\
    life c' = life c ++ delta /\
    life_count is_destroy delta = (if worker_init c then 1 else 0)%nat /\
    life_count is_create_ok delta = (if ok then 1 else 0)%nat /\
    life_count is_exit delta = (if ok then 0 else 1)%nat /\
    (ok = false -> last delta = Some (LfExit EX_CONFIG)).
Proof.
  intros Hcreate. unfold core_worker_setup.
  destruct c as [i t e m h en l]. cbn in Hcreate.
  destruct i.
  - cbn [worker_init life_emit].
    match goal with |- context [core_worker_teardown ?x] =>
      destruct (teardown_spec x) as (d & -> & Hd & Hc & Hx) end.
    cbn in *. rewrite Hcreate. destruct ok; cbn.
    all: eexists _, _; (split; [reflexivity | ]); cbn.
    all: repeat (split; [done | ]).
    all: (split; [rewrite <- !app_assoc; reflexivity | ]).
    all: rewrite !life_count_app, ?Hd, ?Hc, ?Hx; repeat (split; [done | ]).
    all: intros Hok; try discriminate.
    by rewrite !app_assoc, last_snoc.
  - cbn. rewrite Hcreate. destruct ok; cbn.
    all: eexists _, _; (split; [reflexivity | ]); cbn.
    all: repeat (split; [done | ]).
    all: (split; [rewrite <- !app_assoc; reflexivity | ]).
    all: repeat (split; [done | ]); by intros.
Qed.

(** X9: a setup whose event base is created returns with the module
    initialised on a new event base that holds the read interest of the
    inbound pipe, with null user data, and nothing else, whatever the state
    before: nothing registered in an earlier event base survives a second
    setup.  The metrics pointer and the handler table are the ones given, and
    the earlier event base is destroyed exactly when the module was
    initialised. *)
Theorem setup_success_fresh_base options metrics (c : core Env) e' :
  io_event_base_create
    (match options with
     | Some o => int_of_uint (worker_nevent o)
     | None => WORKER_NEVENT
     end) (core_env c) = (true, e') ->
  exists c' delta,
    core_worker_setup WORKER_TIMEOUT WORKER_NEVENT tcp_close tcp_read_id tcp_write_id
      pipe_new_rid options metrics c = (Returns, c') /\
    worker_init c' = true /\
    ctx_evb c' = Some (EventBase {[pipe_new_rid := None]} ∅) /\
    core_metrics c' = metrics /\
    handlers c' = Some (ChannelHandler tcp_close tcp_read_id tcp_write_id) /\
    core_env c' = e' /\
    life c' = life c ++ delta /\
    life_count is_destroy delta = (if worker_init c then 1 else 0)%nat /\
    life_count is_create_ok delta = 1%nat /\
    life_count is_exit delta = 0%nat.
Proof.
  intros Hcreate.
  destruct (setup_spec options metrics c true e' Hcreate)
    as (c' & delta & Hrun & Hi & He & Hm & Hh & _ & Hen & Hl & Hd & Hc & Hx & _).
  exists c', delta. done.
Qed.

(** X10: a setup whose event base cannot be created exits the process with
    status [EX_CONFIG], as its last call, and leaves the module not
    initialised and without an event base, also when it was initialised
    before; the handler table is not touched and nothing is registered. *)
Theorem setup_failure_exits options metrics (c : core Env) e' :
  io_event_base_create
    (match options with
     | Some o => int_of_uint (worker_nevent o)
     | None => WORKER_NEVENT
     end) (core_env c) = (false, e') ->
  exists c' delta,
    core_worker_setup WORKER_TIMEOUT WORKER_NEVENT tcp_close tcp_read_id tcp_write_id
      pipe_new_rid options metrics c = (Exits EX_CONFIG, c') /\
    worker_init c' = false /\
    ctx_evb c' = None /\
    handlers c' = handlers c /\
    life c' = life c ++ delta /\
    last delta = Some (LfExit EX_CONFIG) /\
    life_count is_exit delta = 1%nat /\
    life_count is_create_ok delta = 0%nat /\
    life_count is_destroy delta = (if worker_init c then 1 else 0)%nat /\
    (forall id data, LfAddRead id data ∉ delta).
Proof.
  intros Hcreate.
  destruct (setup_spec options metrics c false e' Hcreate)
    as (c' & delta & Hrun & Hi & He & Hm & Hh & _ & Hen & Hl & Hd & Hc & Hx & Hlast).
  exists c', delta. repeat (split; [auto; done | ]).
  (* the trace of the failing run holds no registration *)
  intros id data Hin.
  revert Hrun Hl. unfold core_worker_setup.
  destruct c as [i t e m h en l]. cbn in Hcreate.
  destruct i; cbn; rewrite Hcreate; cbn; intros [= <-]; cbn;
    rewrite <- ?app_assoc; intros Heq%app_inv_head; subst delta;
    cbn in Hin; rewrite ?elem_of_cons, elem_of_nil in Hin; intuition discriminate.
Qed.

(** X11: options whose values fit an [int] are used as they are given: the
    configured timeout becomes the timeout of the context and the configured
    number of events is the one the event base is asked for, whether the
    creation then succeeds or not. *)
Theorem setup_options_in_range o metrics (c : core Env) :
  0 <= worker_timeout o < 2 ^ 31 ->
  0 <= worker_nevent o < 2 ^ 31 ->
  exists r c' ok pre post,
    core_worker_setup WORKER_TIMEOUT WORKER_NEVENT tcp_close tcp_read_id tcp_write_id
      pipe_new_rid (Some o) metrics c = (r, c') /\
    ctx_timeout c' = worker_timeout o /\
    life c' = life c ++ pre ++ LfCreate (worker_nevent o) ok :: post /\
    life_count is_create_ok pre = 0%nat /\
    life_count is_create_ok post = 0%nat.
Proof.
  intros Ht Hn. unfold core_worker_setup.
  rewrite !int_of_uint_small by done.
  destruct c as [i t e m h en l].
  destruct i.
  - cbn [worker_init life_emit].
    match goal with |- context [core_worker_teardown ?x] =>
      destruct (teardown_spec x) as (d & -> & Hd & Hc & Hx) end.
    cbn in *. destruct (io_event_base_create _ en) as [ok e']. destruct ok; cbn.
    all: eexists _, _, _, (_ :: _ :: d), _; (split; [reflexivity | ]); cbn.
    all: split; [done | ].
    all: split; [rewrite <- !app_assoc; cbn; reflexivity | ].
    all: split; [exact Hc | done].
  - cbn. destruct (io_event_base_create _ en) as [ok e']. destruct ok; cbn.
    all: eexists _, _, _, [_], _; (split; [reflexivity | ]); cbn.
    all: split; [done | ].
    all: split; [rewrite <- !app_assoc; cbn; reflexivity | ].
    all: done.
Qed.

(** X12: tearing down twice is tearing down once: the second teardown
    destroys nothing, since no event base is left, and changes the state only
    by its two log lines. *)
Theorem teardown_twice (c : core Env) :
  core_worker_teardown (core_worker_teardown c) =
  life_emit (LfLog LOG_WARN "core::worker has never been setup")
    (life_emit (LfLog LOG_INFO "tear down the core::worker module")
       (core_worker_teardown c)).
Proof.
  destruct (teardown_spec c) as (d & -> & _).
  unfold core_worker_teardown, life_emit, set_core_metrics, set_init. cbn.
  reflexivity.
Qed.

(** The invariant of the module between calls: the module is initialised
    exactly when the context has an event base; the event bases created and
    not destroyed are that one; a module that is not initialised has no
    metrics; and the process has not exited. *)
Lemma run_ops_inv ops (c : core Env) :
  (worker_init c = true <-> is_Some (ctx_evb c)) ->
  life_count is_create_ok (life c) =
    (life_count is_destroy (life c) + (if worker_init c then 1 else 0))%nat ->
  (worker_init c = false -> core_metrics c = None) ->
  life_count is_exit (life c) = 0%nat ->
  let '(r, c') := run_ops WORKER_TIMEOUT WORKER_NEVENT tcp_close tcp_read_id
                    tcp_write_id pipe_new_rid ops c in
  (worker_init c' = true <-> is_Some (ctx_evb c')) /\
  life_count is_create_ok (life c') =
    (life_count is_destroy (life c') + (if worker_init c' then 1 else 0))%nat /\
  match r with
  | Returns => life_count is_exit (life c') = 0%nat /\
               (worker_init c' = false -> core_metrics c' = None)
  | Exits code => code = EX_CONFIG /\ worker_init c' = false /\
                  last (life c') = Some (LfExit EX_CONFIG) /\
                  life_count is_exit (life c') = 1%nat
  end.
Proof.
  revert c. induction ops as [ | op ops IH]; intros c Hev Hbal Hmet Hex.
  - cbn. done.
  - destruct op as [o m | ]; cbn [run_ops].
    + destruct (io_event_base_create
                  (match o with
                   | Some o => int_of_uint (worker_nevent o)
                   | None => WORKER_NEVENT
                   end) (core_env c)) as [ok e'] eqn:Hcreate.
      destruct (setup_spec o m c ok e' Hcreate)
        as (c' & delta & -> & Hi & He & Hm & Hh & _ & Hen & Hl & Hd & Hc & Hx & Hlast).
      destruct ok.
      * apply IH.
        -- rewrite Hi, He. split; [by eexists | done].
        -- rewrite Hl, !life_count_app, Hbal, Hd, Hc, Hi.
           destruct (worker_init c); lia.
        -- rewrite Hi. done.
        -- rewrite Hl, life_count_app, Hex, Hx. done.
      * rewrite Hi, He. split; [split; [done | by intros [? ?]] | ].
        split; [rewrite Hl, !life_count_app, Hbal, Hd, Hc;
                destruct (worker_init c); lia | ].
        split; [done | ]. split; [done | ].
        split; [ | rewrite Hl, life_count_app, Hex, Hx; done ].
        rewrite Hl. specialize (Hlast eq_refl).
        destruct delta as [ | x delta] using rev_ind; [done | ].
        rewrite app_assoc, last_snoc. by rewrite last_snoc in Hlast.
    + destruct (teardown_spec c) as (d & Heq & Hd & Hc & Hx).
      apply IH; rewrite Heq; cbn [worker_init ctx_evb core_metrics life].
      * split; [done | ]. destruct (worker_init c) eqn:Hi; [by intros [? ?] | ].
        intros Hsome. apply Hev in Hsome. done.
      * rewrite !life_count_app, Hbal, Hd, Hc. destruct (worker_init c); lia.
      * done.
      * rewrite life_count_app, Hex, Hx. done.
Qed.

(** X13: over any sequence of setups and teardowns from the start of the
    program, up to a setup that exits, the module is initialised exactly when
    the context has an event base, and every event base that was created has
    been destroyed except the one in use: no event base leaks and none is
    destroyed twice.  A sequence that exits does so with status [EX_CONFIG],
    as its last call, uninitialised; one that returns has made no exit call,
    and holds no metrics unless initialised. *)
Theorem lifecycle_balanced ops (e : Env) :
  let '(r, c) := run_ops WORKER_TIMEOUT WORKER_NEVENT tcp_close tcp_read_id
                   tcp_write_id pipe_new_rid ops (core_start e) in
  (worker_init c = true <-> is_Some (ctx_evb c)) /\
  life_count is_create_ok (life c) =
    (life_count is_destroy (life c) + (if worker_init c then 1 else 0))%nat /\
  match r with
  | Returns => life_count is_exit (life c) = 0%nat /\
               (worker_init c = false -> core_metrics c = None)
  | Exits code => code = EX_CONFIG /\ worker_init c = false /\
                  last (life c) = Some (LfExit EX_CONFIG) /\
                  life_count is_exit (life c) = 1%nat
  end.
Proof.
  apply run_ops_inv; cbn; try done.
Qed.

End LifecycleProps.

(** ** The wait cycle and the main loop *)

Section WaitCycle.
Context {Env : Type} `{!Platform Env} `{!Loop Env}.
Variable ctx : nat.
Variable hdl : channel_handler_st Env.
Variable processor : data_processor Env.
Variable pipe_term_wid : Z.

Lemma metrics_rel_refl (w w' : world Env) :
  worker_metrics w' = worker_metrics w -> metrics_rel (fun _ => 0) w w'.
Proof.
  intros Heq. unfold metrics_rel. rewrite Heq.
  destruct (worker_metrics w) as [ms | ]; [ | done].
  exists ms. split; [done | ]. intros x. lia.
Qed.

Lemma adopt_adopt (b : buf_sock Env) :
  adopt ctx hdl (adopt ctx hdl b) = adopt ctx hdl b.
Proof. done. Qed.

(** What a dispatch on a connection does to the queues, the records and the
    counters, for any mask. *)
Lemma conn_dispatch_account s events (w : world Env) b :
  heap w !! s = Some b ->
  exists w' delta rets,
    _worker_event ctx hdl processor pipe_term_wid (Some s) events w = Some (tt, w') /\
    trace w' = trace w ++ delta /\
    popped delta = [] /\
    conn_new w' = conn_new w /\
    (forall p, p <> s -> heap w' !! p = heap w !! p) /\
    ra_elems (conn_term w') = ra_elems (conn_term w) ++ rets /\
    sublist rets [s] /\
    metrics_rel (fun x => class_delta events x + tally delta x) w w'.
Proof.
  intros Hs. rewrite worker_event_conn_split.
  set (w0 := emit _ w).
  destruct (bits_quiet hdl processor s events w0 b Hs) as (w1 & Hrun & Hq).
  destruct Hq as (Hoth & (b0 & b1 & _ & Hb1 & _) & Hnew & Hterm
                    & (d1 & Htr1 & Hpop1 & Hm1 & _) & Hmet1).
  unfold bind. rewrite Hrun, (check_spec hdl processor pipe_term_wid s w1 b1 Hb1).
  assert (Htr0 : trace w1 = trace w ++ [EvLog LOG_VERB "worker event"] ++ d1).
  { rewrite Htr1. subst w0. cbn. by rewrite <- app_assoc. }
  assert (Hmet0 : metrics_rel (class_delta events) w w1) by exact Hmet1.
  destruct (is_term_or_error (bs_ch b1)).
  - destruct (ret_stream_outcome hdl processor pipe_term_wid s w1 b1 Hb1)
      as (w' & d & Hret & Htr & Hpop & Hm & Hmet & Hoth' & Hnew' & Hcase).
    exists w', ([EvLog LOG_VERB "worker event"] ++ d1 ++ d).
    exists (drop (length (ra_elems (conn_term w))) (ra_elems (conn_term w'))).
    split; [done | ]. split; [by rewrite Htr, Htr0, <- !app_assoc | ].
    split; [by repeat apply popped_app_nil | ].
    split; [by rewrite Hnew', Hnew | ].
    split; [intros p Hp; by rewrite Hoth', Hoth | ].
    assert (Hterm0 : conn_term w1 = conn_term w) by exact Hterm.
    split; [ | split].
    + destruct Hcase as [(_ & -> & _) | (_ & -> & _)]; rewrite Hterm0; cbn [ra_elems].
      * by rewrite drop_app_length.
      * by rewrite drop_all, app_nil_r.
    + destruct Hcase as [(_ & -> & _) | (_ & -> & _)]; rewrite Hterm0; cbn [ra_elems].
      * by rewrite drop_app_length.
      * rewrite drop_all. apply sublist_nil_l.
    + eapply metrics_rel_ext; [ | eapply metrics_rel_trans; [exact Hmet0 | exact Hmet] ].
      intros x. cbn beta. rewrite !tally_app, (tally_quiet [_]), (tally_quiet d1) by done.
      unfold tally, unit_at. rewrite Hpop, Hm.
      destruct x; repeat case_decide; try done; cbn; lia.
  - exists w1, ([EvLog LOG_VERB "worker event"] ++ d1), [].
    split; [done | ]. split; [done | ].
    split; [by apply popped_app_nil | ].
    split; [exact Hnew | ]. split; [exact Hoth | ].
    assert (Hterm0 : conn_term w1 = conn_term w) by exact Hterm.
    split; [by rewrite Hterm0, app_nil_r | ].
    split; [apply sublist_nil_l | ].
    eapply metrics_rel_ext; [ | exact Hmet0 ].
    intros x. cbn beta. rewrite !tally_app, (tally_quiet [_]), (tally_quiet d1) by done.
    lia.
Qed.


Lemma batch_valid_env ready (w : world Env) e :
  batch_valid ready (set_env e w) <-> batch_valid ready w.
Proof. done. Qed.

(** The dispatches of a valid batch all return, and between them keep the
    queues, the records and the counters as [batch_outcome] says. *)
Lemma deliver_spec ready : forall w : world Env,
  batch_valid ready w ->
  exists w',
    deliver ctx hdl processor pipe_term_wid ready w = Some (tt, w') /\
    batch_outcome ctx hdl ready w w'.
Proof.
  induction ready as [ | [[s | ] events] ready IH]; intros w (Hq & Hnd & Hall).
  - exists w. split; [done | ]. exists [], [].
    split; [by rewrite app_nil_r | ]. split; [done | ].
    split; [by rewrite app_nil_r | ]. split; [done | ].
    split; [intros p _; by rewrite decide_False by apply not_elem_of_nil | ].
    split; [done | ].
    eapply metrics_rel_ext; [ | by apply metrics_rel_refl ].
    intros x. by destruct x.
  - (* an event on a connection *)
    change (batch_conns ((Some s, events) :: ready)) with (s :: batch_conns ready) in *.
    apply NoDup_cons in Hnd as [Hs_new Hnd].
    apply Forall_cons in Hall as [[[b Hs] Hs_q] Hall].
    destruct (conn_dispatch_account s events w b Hs)
      as (w1 & d1 & rets1 & Hrun1 & Htr1 & Hpop1 & Hnew1 & Hoth1 & Hterm1 & Hsub1 & Hmet1).
    assert (Hvalid1 : batch_valid ready w1).
    { split; [ | split; [exact Hnd | ] ].
      - unfold queue_valid in *. rewrite Hnew1.
        rewrite Forall_forall in Hq |- *. intros p Hp.
        rewrite Hoth1; [by apply Hq | ]. by intros ->.
      - rewrite Forall_forall in Hall |- *. intros p Hp.
        rewrite Hnew1, Hoth1; [by apply Hall | ]. by intros ->. }
    destruct (IH w1 Hvalid1)
      as (w' & Hrun & d2 & rets2 & Htr2 & Hpop2 & Hterm2 & Hsub2 & Hheap2 & Hq2 & Hmet2).
    exists w'. split; [cbn [deliver]; unfold bind; by rewrite Hrun1 | ].
    exists (d1 ++ d2), (rets1 ++ rets2).
    split; [by rewrite Htr2, Htr1, app_assoc | ].
    split; [by rewrite popped_app, Hpop1, <- Hnew1 | ].
    split; [by rewrite Hterm2, Hterm1, app_assoc | ].
    split; [by apply (sublist_app _ [s]) | ].
    split.
    { intros p Hp. apply not_elem_of_cons in Hp as [Hps Hp].
      rewrite (Hheap2 p Hp), (Hoth1 p Hps), popped_app, Hpop1. done. }
    split; [exact Hq2 | ].
    eapply metrics_rel_ext; [ | eapply metrics_rel_trans; [exact Hmet1 | exact Hmet2] ].
    intros x. cbn beta. cbn [batch_class]. rewrite tally_app. lia.
  - (* an event on the pipes *)
    change (batch_conns ((None, events) :: ready)) with (batch_conns ready) in *.
    destruct (pipe_dispatch_account ctx hdl processor pipe_term_wid events w Hq)
      as (w1 & d1 & Hrun1 & Htr1 & Hpop1 & _ & Hmet1 & Hheap1).
    destruct (pipe_dispatch_frame ctx hdl processor pipe_term_wid events w Hq)
      as (w1' & d1' & Hrun1' & _ & _ & _ & Hterm1 & Hq1).
    rewrite Hrun1 in Hrun1'. injection Hrun1' as <-.
    assert (Hvalid1 : batch_valid ready w1).
    { split; [exact Hq1 | split; [exact Hnd | ] ].
      rewrite Forall_forall in Hall |- *. intros p Hp.
      destruct (Hall p Hp) as [Hsome Hnot]. split.
      - rewrite Hheap1. destruct (decide (p ∈ popped d1)); [ | done].
        by apply fmap_is_Some.
      - intros Hin. apply Hnot. rewrite <- Hpop1. apply elem_of_app. by right. }
    destruct (IH w1 Hvalid1)
      as (w' & Hrun & d2 & rets2 & Htr2 & Hpop2 & Hterm2 & Hsub2 & Hheap2 & Hq2 & Hmet2).
    exists w'. split; [cbn [deliver]; unfold bind; by rewrite Hrun1 | ].
    exists (d1 ++ d2), rets2.
    split; [by rewrite Htr2, Htr1, app_assoc | ].
    split; [by rewrite popped_app, <- app_assoc, Hpop2 | ].
    split; [by rewrite Hterm2, Hterm1 | ].
    split; [exact Hsub2 | ].
    split.
    { intros p Hp. rewrite (Hheap2 p Hp), Hheap1, popped_app.
      destruct (decide (p ∈ popped d2)), (decide (p ∈ popped d1)).
      - rewrite decide_True by (apply elem_of_app; auto).
        destruct (heap w !! p); [cbn; by rewrite adopt_adopt | done].
      - by rewrite decide_True by (apply elem_of_app; auto).
      - by rewrite decide_True by (apply elem_of_app; auto).
      - by rewrite decide_False by (rewrite elem_of_app; tauto). }
    split; [exact Hq2 | ].
    eapply metrics_rel_ext; [ | eapply metrics_rel_trans; [exact Hmet1 | exact Hmet2] ].
    intros x. cbn beta. cbn [batch_class]. rewrite tally_app. lia.
Qed.


(** The three steps that follow a wait that succeeded. *)
Lemma counted_spec n (st : loop_st Env) :
  let st' := time_update (INCR_N_total n (INCR_loop st)) in
  lp_world st' = set_env (io_time_update (env (lp_world st))) (lp_world st) /\
  lp_timeout st' = lp_timeout st /\
  lp_calls st' = lp_calls st ++ [LpTimeUpdate] /\
  (worker_event_loop st', worker_event_total st') =
    match worker_metrics (lp_world st) with
    | Some _ => (worker_event_loop st + 1, worker_event_total st + n)
    | None => (worker_event_loop st, worker_event_total st)
    end.
Proof.
  destruct st as [w t l tot c].
  unfold time_update, INCR_N_total, INCR_loop, lp_emit, lp_set_world. cbn.
  destruct (worker_metrics w) as [ms | ] eqn:Hms; cbn; rewrite ?Hms; cbn; done.
Qed.

(** X14: a wait that delivers a batch in which no connection is ready twice,
    and every ready connection has its record and is not waiting in the
    inbound queue, completes: every dispatch returns, the cycle returns
    [CC_OK] after one wait and one refresh of the time, and, unless
    [worker_metrics] is null, it counts one loop and as many events as were
    delivered.  Over the whole batch the inbound queue loses at its head the
    connections popped, the outbound queue gains at its tail connections of
    the batch, in the order of their events and each at most once, and
    records outside the batch change only by adoption. *)
Theorem wait_cycle_conserves (st : loop_st Env) ready e :
  io_event_wait (evb (lp_world st)) (lp_timeout st) (env (lp_world st)) = (inr ready, e) ->
  batch_valid ready (lp_world st) ->
  exists st',
    _worker_evwait ctx hdl processor pipe_term_wid st = Some (CC_OK, st') /\
    batch_outcome ctx hdl ready (lp_world st) (lp_world st') /\
    lp_timeout st' = lp_timeout st /\
    lp_calls st' = lp_calls st ++
                   [LpWait (lp_timeout st) (Z.of_nat (length ready)); LpTimeUpdate] /\
    (worker_event_loop st', worker_event_total st') =
      match worker_metrics (lp_world st) with
      | Some _ => (worker_event_loop st + 1,
                   worker_event_total st + Z.of_nat (length ready))
      | None => (worker_event_loop st, worker_event_total st)
      end.
Proof.
  intros Hwait Hvalid.
  apply (batch_valid_env ready (lp_world st) e) in Hvalid.
  destruct (deliver_spec ready _ Hvalid) as (w' & Hrun & Hout).
  unfold _worker_evwait, event_wait. rewrite Hwait, Hrun.
  destruct (Z.ltb_spec (Z.of_nat (length ready)) 0) as [Hneg | _]; [lia | ].
  eexists. split; [reflexivity | ].
  match goal with |- context [time_update (INCR_N_total ?n (INCR_loop ?s))] =>
    destruct (counted_spec n s) as (Hw & Ht & Hc & Hn) end.
  rewrite Hw, Ht, Hc, Hn. cbn [lp_world lp_timeout lp_calls lp_emit lp_set_world
                               worker_event_loop worker_event_total].
  destruct Hout as (delta & rets & Htr & Hpop & Hterm & Hsub & Hheap & Hq & Hmet).
  split; [by exists delta, rets | ].
  split; [done | ]. split; [by rewrite <- app_assoc | ].
  unfold metrics_rel in Hmet. cbn in Hmet.
  destruct (worker_metrics (lp_world st)) as [ms | ].
  - by destruct Hmet as (ms' & -> & _).
  - by rewrite Hmet.
Qed.

(** What a wait cycle that returns has done to the log of the loop. *)
Lemma evwait_calls (st st' : loop_st Env) r :
  _worker_evwait ctx hdl processor pipe_term_wid st = Some (r, st') ->
  lp_timeout st' = lp_timeout st /\
  ((r = CC_OK /\ exists n, 0 <= n /\
      lp_calls st' = lp_calls st ++ [LpWait (lp_timeout st) n; LpTimeUpdate]) \/
   (r < 0 /\
    lp_calls st' = lp_calls st ++ [LpWait (lp_timeout st) r] /\
    worker_event_loop st' = worker_event_loop st /\
    worker_event_total st' = worker_event_total st /\
    exists e, lp_world st' = set_env e (lp_world st))).
Proof.
  unfold _worker_evwait, event_wait.
  destruct (io_event_wait _ _ _) as [[n | ready] e].
  - destruct (Z.ltb_spec n 0) as [Hneg | Hpos].
    + intros [= <- <-]. split; [done | ]. right. cbn. eauto 10.
    + intros [= <- <-].
      match goal with |- context [time_update (INCR_N_total ?n (INCR_loop ?s))] =>
        destruct (counted_spec n s) as (Hw & Ht & Hc & Hn) end.
      rewrite Ht, Hc. split; [done | ].
      left. split; [done | ]. exists n. split; [done | ]. cbn. by rewrite <- app_assoc.
  - destruct (deliver _ _ _ _ _ _) as [[[] w'] | ]; [ | done].
    destruct (Z.ltb_spec (Z.of_nat (length ready)) 0) as [Hneg | _]; [lia | ].
    intros [= <- <-].
    match goal with |- context [time_update (INCR_N_total ?n (INCR_loop ?s))] =>
      destruct (counted_spec n s) as (Hw & Ht & Hc & Hn) end.
    rewrite Ht, Hc. split; [done | ].
    left. split; [done | ]. exists (Z.of_nat (length ready)). split; [lia | ].
    cbn. by rewrite <- app_assoc.
Qed.

(** X15: a wait cycle returns [CC_OK] or a negative status, and one that
    does not return [CC_OK] has dispatched nothing and counted nothing: the
    world is as it was but for the environment, the two counters of the loop
    are unchanged, the time is not refreshed, and the status is the one the
    wait gave. *)
Theorem wait_failure_dispatches_nothing (st st' : loop_st Env) r :
  _worker_evwait ctx hdl processor pipe_term_wid st = Some (r, st') ->
  r <> CC_OK ->
  r < 0 /\
  lp_calls st' = lp_calls st ++ [LpWait (lp_timeout st) r] /\
  worker_event_loop st' = worker_event_loop st /\
  worker_event_total st' = worker_event_total st /\
  lp_timeout st' = lp_timeout st /\
  exists e, lp_world st' = set_env e (lp_world st).
Proof.
  intros Hrun Hr.
  destruct (evwait_calls st st' r Hrun) as (Ht & [(-> & _) | (Hneg & Hc & Hl & Htot & He)]);
    done.
Qed.

(** The main loop, for any fuel that lets it end. *)
Lemma evloop_spec fuel : forall (st st' : loop_st Env) r,
  core_worker_evloop ctx hdl processor pipe_term_wid fuel st = Ended r st' ->
  lp_timeout st' = lp_timeout st /\
  exists ns,
    Forall (fun n => 0 <= n) ns /\
    match r with
    | Returns =>
        lp_calls st' = lp_calls st ++ cycles (lp_timeout st) ns ++ [LpRunning false]
    | Exits code =>
        code = 1 /\
        exists n, n < 0 /\
          lp_calls st' = lp_calls st ++ cycles (lp_timeout st) ns ++
            [LpRunning true; LpWait (lp_timeout st) n;
             LpCrit "worker core event loop exited due to failure"; LpExit 1]
    end.
Proof.
  induction fuel as [ | fuel IH]; intros st st' r; [done | ].
  cbn [core_worker_evloop]. unfold load_running.
  destruct (io_running (env (lp_world st))) as [[ | ] e].
  - set (st1 := lp_emit _ _).
    destruct (_worker_evwait _ _ _ _ st1) as [[status st2] | ] eqn:Hwait; [ | done].
    destruct (evwait_calls st1 st2 status Hwait)
      as (Ht & [(-> & n & Hn & Hc) | (Hneg & Hc & _)]).
    + change (negb (CC_OK =? CC_OK)) with false. cbv iota.
      intros Hrest. destruct (IH st2 st' r Hrest) as (Ht' & ns & Hns & Hshape).
      split; [by rewrite Ht', Ht | ].
      exists (n :: ns). split; [by constructor | ].
      rewrite Ht, Hc in Hshape. subst st1. cbn in Hshape |- *.
      destruct r as [ | code].
      * rewrite Hshape, <- !app_assoc. done.
      * destruct Hshape as (-> & m & Hm & Hshape). split; [done | ].
        exists m. split; [done | ]. rewrite Hshape, <- !app_assoc. done.
    + destruct (Z.eqb_spec status CC_OK) as [-> | _]; [done | ]. cbv iota beta.
      cbn [negb]. intros [= <- <-]. split; [done | ].
      exists []. split; [constructor | ]. split; [done | ].
      exists status. split; [done | ].
      cbn. rewrite Hc. subst st1. cbn. rewrite <- !app_assoc. done.
  - intros [= <- <-]. split; [done | ]. exists []. split; [constructor | ]. done.
Qed.

Lemma evloop_fuel fuel : forall (st st' : loop_st Env) r k,
  core_worker_evloop ctx hdl processor pipe_term_wid fuel st = Ended r st' ->
  core_worker_evloop ctx hdl processor pipe_term_wid (fuel + k) st = Ended r st'.
Proof.
  induction fuel as [ | fuel IH]; intros st st' r k; [done | ].
  cbn [core_worker_evloop Nat.add].
  destruct (load_running st) as [[ | ] st1]; [ | done].
  destruct (_worker_evwait _ _ _ _ st1) as [[status st2] | ]; [ | done].
  destruct (negb (status =? CC_OK)); [done | ]. apply IH.
Qed.

(** X16: a main loop that ends has run complete cycles, each a reading of
    the flag as set, a wait on the timeout of the context that gave a count
    of zero or more, and a refresh of the time, and then either read the flag
    as cleared and returned, or made a wait that failed, logged it and exited
    with status 1, nothing after.  The timeout is the same in every wait, and
    giving the run more fuel changes nothing. *)
Theorem evloop_ends_by_flag_or_failure fuel (st st' : loop_st Env) r :
  core_worker_evloop ctx hdl processor pipe_term_wid fuel st = Ended r st' ->
  (forall k, core_worker_evloop ctx hdl processor pipe_term_wid (fuel + k) st
             = Ended r st') /\
  lp_timeout st' = lp_timeout st /\
  exists ns,
    Forall (fun n => 0 <= n) ns /\
    match r with
    | Returns =>
        lp_calls st' = lp_calls st ++ cycles (lp_timeout st) ns ++ [LpRunning false]
    | Exits code =>
        code = 1 /\
        exists n, n < 0 /\
          lp_calls st' = lp_calls st ++ cycles (lp_timeout st) ns ++
            [LpRunning true; LpWait (lp_timeout st) n;
             LpCrit "worker core event loop exited due to failure"; LpExit 1]
    end.
Proof.
  intros Hrun. split; [intros k; by apply evloop_fuel | ].
  exact (evloop_spec fuel st st' r Hrun).
Qed.

End WaitCycle.

(** ** The further properties on the scripted environment *)

Section MoreExamples.
Import Script ScriptLoop.
Local Open Scope Z_scope.

Lemma read_writes_only_pending_reply_witness :
  let w := world0 [(1%nat, c1)] [] 4 [0; -1] in
  heap w !! 1%nat = Some c1 /\
  exists w' delta,
    _worker_event_read tcp echo 1 w = Some (tt, w') /\
    count is_tcp_write delta = 0%nat.
Proof.
  intros w. split; [reflexivity | ].
  edestruct (read_writes_only_pending_reply tcp echo 1%nat w c1)
    as (w' & delta & Hrun & _ & Hcount & _);
    [reflexivity | reflexivity | reflexivity | ].
  exists w', delta. split; [exact Hrun | exact Hcount].
Defined.


Lemma writable_success_rearms_read_witness :
  let w := mk_world [] [(7, Some 1%nat)] [(1%nat, c1)] [] 4 [0; 0] in
  heap w !! 1%nat = Some c1 /\
  exists w',
    dispatch (Some 1%nat) EVENT_WRITE w = Some (tt, w') /\
    forall b', heap w' !! 1%nat = Some b' -> c_state (bs_ch b') = CHANNEL_OPEN ->
      ev_rd (evb w') !! c_sd (bs_ch b') = Some (Some 1%nat) /\
      ev_wr (evb w') !! c_sd (bs_ch b') = None.
Proof.
  intros w. split; [reflexivity | ].
  edestruct (writable_success_rearms_read ctx tcp echo pipe_wid 1%nat EVENT_WRITE w c1)
    as (w' & Hrun & Hreg);
    [exact tcp_ids_tcp | reflexivity | reflexivity | reflexivity | discriminate
     | reflexivity | reflexivity | ].
  exists w'. split; [exact Hrun | exact Hreg].
Defined.

Lemma dispatch_keeps_or_hands_back_witness :
  let w := world0 [(1%nat, c1)] [] 4 [0; -1; 0; 1] in
  heap w !! 1%nat = Some c1 /\
  exists w',
    dispatch (Some 1%nat) EVENT_READ w = Some (tt, w') /\
    ((exists b', heap w' !! 1%nat = Some b' /\ is_term_or_error (bs_ch b') = false /\
                 conn_term w' = conn_term w) \/
     (exists b', heap w' !! 1%nat = Some b' /\ is_term_or_error (bs_ch b') = true /\
                 (length (ra_elems (conn_term w)) < ra_cap (conn_term w))%nat /\
                 ra_elems (conn_term w') = ra_elems (conn_term w) ++ [1%nat]) \/
     (heap w' !! 1%nat = None /\
      (ra_cap (conn_term w) <= length (ra_elems (conn_term w)))%nat /\
      conn_term w' = conn_term w)).
Proof.
  intros w. split; [reflexivity | ].
  exact (dispatch_keeps_or_hands_back ctx tcp echo pipe_wid 1%nat EVENT_READ w c1 eq_refl).
Defined.

Lemma dispatch_touches_one_connection_witness :
  let w := world0 [(1%nat, c1); (2%nat, c2)] [] 4 [0; -1; 0; 1] in
  heap w !! 1%nat = Some c1 /\
  exists w',
    dispatch (Some 1%nat) EVENT_READ w = Some (tt, w') /\
    conn_new w' = conn_new w /\
    heap w' !! 2%nat = Some c2.
Proof.
  intros w. split; [reflexivity | ].
  edestruct (dispatch_touches_one_connection ctx tcp echo pipe_wid 1%nat EVENT_READ w c1)
    as (w' & delta & Hrun & _ & _ & Hnew & Hoth & _); [reflexivity | ].
  exists w'. split; [exact Hrun | ]. split; [exact Hnew | ].
  rewrite (Hoth 2%nat); [reflexivity | discriminate].
Defined.

Lemma pipe_dispatch_conserves_witness :
  let w := world0 [(1%nat, c1); (2%nat, c2)] [2%nat; 1%nat] 4 [2] in
  queue_valid w /\
  exists w' delta,
    dispatch None EVENT_READ w = Some (tt, w') /\
    popped delta ++ ra_elems (conn_new w') = [2%nat; 1%nat] /\
    conn_term w' = conn_term w.
Proof.
  intros w. split; [exact queue_valid_two | ].
  edestruct (pipe_dispatch_conserves ctx tcp echo pipe_wid EVENT_READ w)
    as (w' & delta & Hrun & _ & Hpop & Hterm & _); [exact queue_valid_two | ].
  exists w', delta. split; [exact Hrun | ]. split; [exact Hpop | exact Hterm].
Defined.

Lemma dispatch_counts_agree_witness :
  let w := world0 [(1%nat, c1)] [] 4 [0; -1; 0; 1] in
  dispatch_valid (Some 1%nat) w /\
  exists w' delta,
    dispatch (Some 1%nat) EVENT_READ w = Some (tt, w') /\
    trace w' = trace w ++ delta /\
    metrics_rel (fun x => class_delta EVENT_READ x + tally delta x) w w'.
Proof.
  intros w.
  assert (Hv : dispatch_valid (Some 1%nat) w) by (eexists; reflexivity).
  split; [exact Hv | ].
  exact (dispatch_counts_agree ctx tcp echo pipe_wid (Some 1%nat) EVENT_READ w Hv).
Defined.

Lemma returned_connection_unregistered_witness :
  let w := mk_world [(7, Some 1%nat)] [] [(1%nat, c1)] [] 4 [0; -1; 0; 1] in
  heap w !! 1%nat = Some c1 /\
  c_sd (bs_ch c1) <> pipe_wid /\
  exists w',
    dispatch (Some 1%nat) EVENT_READ w = Some (tt, w') /\
    ((exists b', heap w' !! 1%nat = Some b' /\ is_term_or_error (bs_ch b') = false) \/
     (ev_rd (evb w') !! 7 = None /\ ev_wr (evb w') !! 7 = None)).
Proof.
  intros w.
  assert (Hsd : c_sd (bs_ch c1) <> pipe_wid) by discriminate.
  split; [reflexivity | ]. split; [exact Hsd | ].
  exact (returned_connection_unregistered ctx tcp echo pipe_wid 1%nat EVENT_READ w c1
           tcp_ids_tcp eq_refl Hsd).
Defined.

Lemma setup_success_fresh_base_witness :
  let c := core_start [1] in
  io_event_base_create 1024 (core_env c) = (true, []) /\
  exists c',
    setup None None c = (Returns, c') /\
    worker_init c' = true /\
    ctx_evb c' = Some (EventBase {[3 := None]} ∅).
Proof.
  intros c. split; [reflexivity | ].
  edestruct (setup_success_fresh_base (Env := list Z) 100 1024
               (fun c e => (TcpConn (c_sd c) CHANNEL_TERM, e)) c_sd c_sd 3 None None c [])
    as (c' & delta & Hrun & Hinit & Hevb & _); [reflexivity | ].
  exists c'. split; [exact Hrun | ]. split; [exact Hinit | exact Hevb].
Defined.

Lemma setup_failure_exits_witness :
  let c := core_start [-1] in
  io_event_base_create 1024 (core_env c) = (false, []) /\
  exists c',
    setup None None c = (Exits EX_CONFIG, c') /\
    worker_init c' = false /\
    ctx_evb c' = None.
Proof.
  intros c. split; [reflexivity | ].
  edestruct (setup_failure_exits (Env := list Z) 100 1024
               (fun c e => (TcpConn (c_sd c) CHANNEL_TERM, e)) c_sd c_sd 3 None None c [])
    as (c' & delta & Hrun & Hinit & Hevb & _); [reflexivity | ].
  exists c'. split; [exact Hrun | ]. split; [exact Hinit | exact Hevb].
Defined.

Lemma setup_options_in_range_witness :
  let o := WorkerOptions 250 64 in
  0 <= worker_timeout o < 2 ^ 31 /\
  0 <= worker_nevent o < 2 ^ 31 /\
  exists r c',
    setup (Some o) None (core_start [1]) = (r, c') /\
    ctx_timeout c' = 250.
Proof.
  intros o.
  assert (Ht : 0 <= worker_timeout o < 2 ^ 31) by (split; [discriminate | reflexivity]).
  assert (Hn : 0 <= worker_nevent o < 2 ^ 31) by (split; [discriminate | reflexivity]).
  split; [exact Ht | ]. split; [exact Hn | ].
  destruct (setup_options_in_range (Env := list Z) 100 1024
              (fun c e => (TcpConn (c_sd c) CHANNEL_TERM, e)) c_sd c_sd 3 o None
              (core_start [1]) Ht Hn)
    as (r & c' & ok & pre & post & Hrun & Htime & _).
  exists r, c'. split; [exact Hrun | exact Htime].
Defined.

Lemma batch_valid_pipe :
  batch_valid [(None, EVENT_READ)]
    (mk_world [(3, None)] [] [(1%nat, c1); (2%nat, c2)] [2%nat; 1%nat] 4 [1; 2]).
Proof.
  split; [repeat constructor; eexists; reflexivity | ].
  split; constructor.
Defined.

Lemma wait_cycle_conserves_witness :
  let st := start (mk_world [(3, None)] [] [(1%nat, c1); (2%nat, c2)]
                     [2%nat; 1%nat] 4 [1; 2]) in
  batch_valid [(None, EVENT_READ)] (lp_world st) /\
  exists st',
    evwait st = Some (CC_OK, st') /\
    lp_calls st' = [LpWait 100 1; LpTimeUpdate] /\
    batch_outcome ctx tcp [(None, EVENT_READ)] (lp_world st) (lp_world st').
Proof.
  intros st. split; [exact batch_valid_pipe | ].
  edestruct (wait_cycle_conserves ctx tcp echo pipe_wid st [(None, EVENT_READ)] [2])
    as (st' & Hrun & Hout & _ & Hcalls & _); [reflexivity | exact batch_valid_pipe | ].
  exists st'. split; [exact Hrun | ]. split; [exact Hcalls | exact Hout].
Defined.

Lemma wait_failure_dispatches_nothing_witness :
  let st := start (world0 [] [] 4 [-1]) in
  let st' := LoopSt (set_env [] (lp_world st)) 100 0 0 [LpWait 100 (-1)] in
  evwait st = Some (-1, st') /\
  -1 <> CC_OK /\
  worker_event_loop st' = worker_event_loop st /\
  worker_event_total st' = worker_event_total st.
Proof.
  intros st st'.
  assert (Hrun : evwait st = Some (-1, st')) by reflexivity.
  assert (Hr : -1 <> CC_OK) by discriminate.
  split; [exact Hrun | ]. split; [exact Hr | ].
  destruct (wait_failure_dispatches_nothing ctx tcp echo pipe_wid st st' (-1) Hrun Hr)
    as (_ & _ & Hloop & Htotal & _).
  split; [exact Hloop | exact Htotal].
Defined.

Lemma evloop_ends_by_flag_or_failure_witness :
  let st := start (world0 [] [] 4 [1; 0; 0]) in
  let st' := LoopSt (set_env [] (lp_world st)) 100 0 0
               [LpRunning true; LpWait 100 0; LpTimeUpdate; LpRunning false] in
  evloop 3 st = Ended Returns st' /\
  forall k, evloop (3 + k) st = Ended Returns st'.
Proof.
  intros st st'.
  assert (Hrun : evloop 3 st = Ended Returns st') by reflexivity.
  split; [exact Hrun | ].
  exact (proj1 (evloop_ends_by_flag_or_failure ctx tcp echo pipe_wid 3 st st' Returns Hrun)).
Defined.
End MoreExamples.
